(** * Comfyui-Bot: the image-job protocol of [bot5.py]

    A shallow embedding of the bot's interaction with the node-graph
    backend: job submission ([queue_prompt]), the WebSocket receive loop and
    the history walk of [get_images], and the slash commands [img], [i2i]
    and [des] that drive them.

    Python values that come out of [json.loads] are modelled by the type
    [json]; Python exceptions by the type [exn]; the network, the file
    system and the Discord context by an explicit world that records every
    effect in a trace.  Library functions the bot calls but does not define
    ([json.dumps], [json.loads], [urlencode], PIL, base64) are fields of a
    record [pylib] the development is parametric in.

    The [gem] command and the Ollama helpers talk to the text service
    only; they are embedded apart, in the module [Ollama]. *)

From Stdlib Require Import ZArith List String Ascii Bool Lia Sorted.
From Stdlib Require Import QArith Qround Qabs Qpower Lqa DecimalString.
Import ListNotations.
Open Scope string_scope.
Open Scope Z_scope.

Set Implicit Arguments.
Set Warnings "-register-all".

(* ================================================================= *)
(** ** Python values *)

(** [bytes] objects. *)
Definition bytes := list Byte.byte.

(** A Python [float]: a finite binary64 value, carried by the rational it
    denotes, or one of the three special values. *)
Inductive pyfloat :=
| FFinite (q : Q)
| FInf (negative : bool)
| FNaN.

(** What [json.loads] returns, and what [json.dumps] accepts.  A [dict]
    is an association list in insertion order, as Python keeps it. *)
Inductive json :=
| JNull
| JBool (b : bool)
| JInt (n : Z)
| JFloat (x : pyfloat)
| JStr (s : string)
| JArr (items : list json)
| JObj (fields : list (string * json)).

(** Exceptions the modelled code can raise.  The handlers of the commands
    tell [ConnectionResetError] and [ClientResponseError] from the rest.
    [HistoryNotFoundError] is the kind the specification names for a job
    missing from the history; nothing in [bot5.py] defines or raises it. *)
Inductive exn :=
| KeyError (key : json)
| TypeError
| IndexError
| UnboundLocalError (name : string)
| ZeroDivisionError
| OverflowError
| ValueError
| JSONDecodeError
| URLError
| FileNotFoundError
| UnidentifiedImageError
| ClientResponseError
| ConnectionResetError
| HistoryNotFoundError.

(** The result of an expression: a value or a raised exception. *)
Inductive result (A : Type) :=
| Ok (a : A)
| Err (e : exn).
Arguments Ok {A} a.
Arguments Err {A} e.

Definition rbind {A B} (r : result A) (k : A -> result B) : result B :=
  match r with
  | Ok a => k a
  | Err e => Err e
  end.

Declare Scope res_scope.
Delimit Scope res_scope with res.
Notation "'let?' x ':=' r 'in' k" := (rbind r (fun x => k))
  (at level 10, x name, r at level 100, k at level 200) : res_scope.
Open Scope res_scope.

(* ----------------------------------------------------------------- *)
(** *** Dictionaries in insertion order *)

Section Assoc.
Variables (K V : Type) (keq : K -> K -> bool).

(** [d.get(k)]: the value stored under the first key equal to [k]. *)
Fixpoint assoc_get (d : list (K * V)) (k : K) : option V :=
  match d with
  | [] => None
  | (k', v) :: d' => if keq k' k then Some v else assoc_get d' k
  end.

(** [d[k] = v]: an existing key keeps its place, a new one goes last. *)
Fixpoint assoc_set (d : list (K * V)) (k : K) (v : V) : list (K * V) :=
  match d with
  | [] => [(k, v)]
  | (k', v') :: d' =>
      if keq k' k then (k', v) :: d' else (k', v') :: assoc_set d' k v
  end.

Definition assoc_keys (d : list (K * V)) : list K := map fst d.

End Assoc.

Definition dict_get {V} (d : list (string * V)) (k : string) : option V :=
  assoc_get String.eqb d k.

Definition dict_set {V} (d : list (string * V)) (k : string) (v : V) :=
  assoc_set String.eqb d k v.

(* ----------------------------------------------------------------- *)
(** *** Equality, truth and hashing *)

Definition pyfloat_eqb (x y : pyfloat) : bool :=
  match x, y with
  | FFinite p, FFinite q => Qeq_bool p q
  | FInf a, FInf b => Bool.eqb a b
  | _, _ => false
  end.

(** The numeric reading of [bool], [int] and [float] values, which [==]
    compares across types ([True == 1 == 1.0]). *)
Definition as_number (v : json) : option pyfloat :=
  match v with
  | JBool b => Some (FFinite (inject_Z (if b then 1 else 0)))
  | JInt n => Some (FFinite (inject_Z n))
  | JFloat x => Some x
  | _ => None
  end.

(** Python's [a == b] on decoded JSON. *)
Fixpoint py_eq (a b : json) {struct a} : bool :=
  match a with
  | JNull => match b with JNull => true | _ => false end
  | JStr s => match b with JStr t => String.eqb s t | _ => false end
  | JArr l =>
      match b with
      | JArr m =>
          (fix all2 (l m : list json) {struct l} : bool :=
             match l, m with
             | [], [] => true
             | x :: l', y :: m' => py_eq x y && all2 l' m'
             | _, _ => false
             end) l m
      | _ => false
      end
  | JObj d =>
      match b with
      | JObj e =>
          Nat.eqb (List.length d) (List.length e) &&
          (fix all (d : list (string * json)) {struct d} : bool :=
             match d with
             | [] => true
             | (k, v) :: d' =>
                 match dict_get e k with
                 | Some v' => py_eq v v'
                 | None => false
                 end && all d'
             end) d
      | _ => false
      end
  | JBool _ | JInt _ | JFloat _ =>
      match as_number a, as_number b with
      | Some x, Some y => pyfloat_eqb x y
      | _, _ => false
      end
  end.

(** [v is None]. *)
Definition is_None (v : json) : bool :=
  match v with JNull => true | _ => false end.

(** Lists and dicts are unhashable: they cannot be dict keys. *)
Definition hashable (v : json) : bool :=
  match v with JArr _ | JObj _ => false | _ => true end.

(* ----------------------------------------------------------------- *)
(** *** Subscription, iteration and membership *)

(** Python's index normalisation for sequences of length [len]. *)
Definition seq_index (len i : Z) : option nat :=
  let j := if i <? 0 then i + len else i in
  if (0 <=? j) && (j <? len) then Some (Z.to_nat j) else None.

Definition index_of (k : json) : option Z :=
  match k with
  | JInt i => Some i
  | JBool b => Some (if b then 1 else 0)
  | _ => None
  end.

Definition string_nth (s : string) (n : nat) : option string :=
  match String.get n s with
  | Some c => Some (String c EmptyString)
  | None => None
  end.

(** [c[k]]. *)
Definition py_getitem (c k : json) : result json :=
  match c with
  | JObj d =>
      if hashable k then
        match k with
        | JStr s =>
            match dict_get d s with
            | Some v => Ok v
            | None => Err (KeyError k)
            end
        | _ => Err (KeyError k)
        end
      else Err TypeError
  | JArr l =>
      match index_of k with
      | Some i =>
          match seq_index (Z.of_nat (List.length l)) i with
          | Some n =>
              match nth_error l n with
              | Some v => Ok v
              | None => Err IndexError
              end
          | None => Err IndexError
          end
      | None => Err TypeError
      end
  | JStr s =>
      match index_of k with
      | Some i =>
          match seq_index (Z.of_nat (String.length s)) i with
          | Some n =>
              match string_nth s n with
              | Some v => Ok (JStr v)
              | None => Err IndexError
              end
          | None => Err IndexError
          end
      | None => Err TypeError
      end
  | _ => Err TypeError
  end.

(** [c['name']], a subscription by a string literal. *)
Definition getitem (c : json) (name : string) : result json :=
  py_getitem c (JStr name).

Fixpoint chars (s : string) : list json :=
  match s with
  | EmptyString => []
  | String c s' => JStr (String c EmptyString) :: chars s'
  end.

(** [for x in c]: the values the loop variable takes. *)
Definition py_iter (c : json) : result (list json) :=
  match c with
  | JObj d => Ok (map (fun kv => JStr (fst kv)) d)
  | JArr l => Ok l
  | JStr s => Ok (chars s)
  | _ => Err TypeError
  end.

Fixpoint is_substring (p s : string) : bool :=
  String.prefix p s ||
  match s with
  | EmptyString => false
  | String _ s' => is_substring p s'
  end.

(** ['name' in c]. *)
Definition py_contains (name : string) (c : json) : result bool :=
  match c with
  | JObj d =>
      Ok (match dict_get d name with Some _ => true | None => false end)
  | JArr l => Ok (existsb (fun x => py_eq (JStr name) x) l)
  | JStr s => Ok (is_substring name s)
  | _ => Err TypeError
  end.

(** [c['name'] = v]. *)
Definition py_setitem (c : json) (name : string) (v : json) : result json :=
  match c with
  | JObj d => Ok (JObj (dict_set d name v))
  | _ => Err TypeError
  end.

(* ================================================================= *)
(** ** Python numbers: [float] arithmetic

    Python's [float] is IEEE 754 binary64 and every operation rounds its
    exact result to the nearest representable value, ties to the even
    significand.  [round64] is that rounding on the rationals. *)

Module Binary64.

Open Scope Q_scope.

Definition pow2 (e : Z) : Q := 2 ^ e.

(** For [x > 0]: the [e] with [2^e <= x < 2^(e+1)]. *)
Definition binade (x : Q) : Z :=
  let e := (Z.log2 (Qnum x) - Z.log2 (Zpos (Qden x)))%Z in
  if Qle_bool (pow2 e) x then e else (e - 1)%Z.

(** Round to the nearest integer, ties to even. *)
Definition rne (x : Q) : Z :=
  let f := Qfloor x in
  match Qcompare (x - inject_Z f) (1 # 2) with
  | Lt => f
  | Gt => (f + 1)%Z
  | Eq => if Z.even f then f else (f + 1)%Z
  end.

(** The exponent of the unit in the last place at [x > 0]: 53 significant
    bits, and no exponent below that of the subnormal numbers. *)
Definition ulp_exp (x : Q) : Z := Z.max (binade x - 52) (-1074).

Definition round_pos (x : Q) : Q :=
  inject_Z (rne (x / pow2 (ulp_exp x))) * pow2 (ulp_exp x).

Definition round64 (x : Q) : Q :=
  match Qcompare x 0 with
  | Eq => 0
  | Gt => round_pos x
  | Lt => - round_pos (- x)
  end.

(** A rounded result too large for binary64 becomes an infinity. *)
Definition to_float (x : Q) : pyfloat :=
  let r := round64 x in
  if Qle_bool (pow2 1024) (Qabs r) then FInf (negb (Qle_bool 0 r))
  else FFinite r.

(** [a / b] on two [int]s: the exact quotient, rounded once. *)
Definition int_truediv (a b : Z) : result Q :=
  if (b =? 0)%Z then Err ZeroDivisionError
  else
    match to_float (inject_Z a / inject_Z b) with
    | FFinite q => Ok q
    | _ => Err OverflowError
    end.

(** [x / y] and [x * y] on finite [float]s. *)
Definition float_div (x y : Q) : result pyfloat :=
  if Qeq_bool y 0 then Err ZeroDivisionError else Ok (to_float (x / y)).

Definition float_mul (x y : Q) : pyfloat := to_float (x * y).

(** [int(x)]: truncation towards zero. *)
Definition int_of_float (x : pyfloat) : result Z :=
  match x with
  | FFinite q => Ok (if Qle_bool 0 q then Qfloor q else Qceiling q)
  | FInf _ => Err OverflowError
  | FNaN => Err ValueError
  end.

End Binary64.

(** The size [i2i] submits for a source image of [width_org] by
    [height_org] pixels: [aspect] is computed first, then the branches. *)
Definition i2i_size (width_org height_org : Z) : result (Z * Z) :=
  let? aspect := Binary64.int_truediv width_org height_org in
  if 3686400 <? width_org * height_org then
    if negb (Qle_bool aspect 1) then
      let? quotient := Binary64.float_div 1920 aspect in
      let? height := Binary64.int_of_float quotient in
      Ok (1920, height)
    else
      let? width := Binary64.int_of_float (Binary64.float_mul 1920 aspect) in
      Ok (width, 1920)
  else Ok (width_org, height_org).

(* ================================================================= *)
(** ** The world outside the bot *)

(** A WebSocket message: [str] for a text frame, [bytes] for a binary one. *)
Inductive frame :=
| TextFrame (s : string)
| BinaryFrame (b : bytes).

(** An image as PIL sees it: its size, and what saving it as PNG gives. *)
Record pil_image := {
  im_width : Z;
  im_height : Z;
  im_png : result bytes
}.

(** The library functions the bot calls. *)
Record pylib := {
  json_dumps : json -> string;
  json_loads : string -> option json;
  json_loads_bytes : bytes -> option json;
  str_encode : string -> bytes;
  str_of : json -> string;
  urlencode : list (string * json) -> string;
  b64encode : bytes -> string;
  bytes_repr : bytes -> string;
  Image_open : bytes -> result pil_image
}.

(** The server side of one WebSocket connection: the frames it pushes, and
    what [recv] does once they are used up (raise, or wait for ever). *)
Record ws_session := {
  ws_frames : list frame;
  ws_end : option exn
}.

(** The services the bot talks to, as functions of the request: a
    backend without memory.  (For the one place where the same request
    is made again, see [http_get_after] below.) *)
Record outside := {
  urlopen_post : string -> bytes -> result bytes;
  urlopen_get : string -> result bytes;
  open_file : string -> result string;
  ws_server : string -> result ws_session;
  http_download : string -> result bytes
}.

(** Every effect of a command, in the order it happens. *)
Inductive event :=
| Defer
| OpenFile (filename : string)
| Download (url : string)
| WsConnect (uri : string)
| WsSend (payload : string)
| WsRecv (f : frame)
| WsClose
| HttpPost (url : string) (body : bytes)
| HttpGet (url : string)
| CtxSend (content : json)
| CtxSendFile (file_name : string) (content : bytes)
| LogInfo (msg : string)
| LogError (e : exn).

(** The state a command runs in: the frames still to come on its open
    WebSocket, and the effects so far. *)
Record world := {
  inbox : ws_session;
  trace : list event
}.

Definition emit (ev : event) (w : world) : world :=
  {| inbox := inbox w; trace := trace w ++ [ev] |}.

(** How a computation ends: with a value, with an exception, or never
    (blocked in [recv] on a silent connection). *)
Inductive outcome (A : Type) :=
| Ret (a : A)
| Raise (e : exn)
| Hang.
Arguments Ret {A} a.
Arguments Raise {A} e.
Arguments Hang {A}.

Definition M (A : Type) := world -> outcome A * world.

Definition ret {A} (a : A) : M A := fun w => (Ret a, w).

Definition raise {A} (e : exn) : M A := fun w => (Raise e, w).

Definition bind {A B} (m : M A) (k : A -> M B) : M B :=
  fun w =>
    match m w with
    | (Ret a, w') => k a w'
    | (Raise e, w') => (Raise e, w')
    | (Hang, w') => (Hang, w')
    end.

Definition lift {A} (r : result A) : M A :=
  match r with
  | Ok a => ret a
  | Err e => raise e
  end.

Definition effect {A} (ev : event) (r : result A) : M A :=
  fun w => lift r (emit ev w).

(** [try: m except Exception as e: handler e]. *)
Definition try_except {A} (m : M A) (handler : exn -> M A) : M A :=
  fun w =>
    match m w with
    | (Raise e, w') => handler e w'
    | other => other
    end.

(** A block that runs [exit] when it is left, normally or by an exception. *)
Definition scoped {A} (m : M A) (exit : event) : M A :=
  fun w =>
    match m w with
    | (Ret a, w') => (Ret a, emit exit w')
    | (Raise e, w') => (Raise e, emit exit w')
    | (Hang, w') => (Hang, w')
    end.

Declare Scope m_scope.
Delimit Scope m_scope with M.
Notation "x <- m ;; k" := (bind m (fun x => k))
  (at level 100, m at next level, right associativity) : m_scope.
Notation "m ;; k" := (bind m (fun _ => k))
  (at level 100, right associativity) : m_scope.

(** [for x in xs: st = body x st]. *)
Fixpoint for_each {A S} (xs : list A) (body : A -> S -> M S) (st : S) : M S :=
  match xs with
  | [] => ret st
  | x :: xs' => (st' <- body x st ;; for_each xs' body st')%M
  end.

Definition server_address : string := "192.168.8.219:8188".

(* ================================================================= *)
(** ** The bot *)

Section Bot.

(** The Python runtime and the services, fixed for one run. *)
Variable py : pylib.
Variable net : outside.

(** The module-level [client_id = str(uuid.uuid4())]: set when the module
    is loaded, read by every function below, assigned by none. *)
Variable client_id : string.

(** [format(v)] inside [str.format] and f-strings: a [str] stands for
    itself. *)
Definition py_str (v : json) : string :=
  match v with
  | JStr s => s
  | _ => str_of py v
  end.

Definition loads (s : string) : result json :=
  match json_loads py s with
  | Some v => Ok v
  | None => Err JSONDecodeError
  end.

Definition loads_bytes (b : bytes) : result json :=
  match json_loads_bytes py b with
  | Some v => Ok v
  | None => Err JSONDecodeError
  end.

(* ----------------------------------------------------------------- *)
(** *** Effects *)

Definition http_post (url : string) (data : bytes) : M bytes :=
  effect (HttpPost url data) (urlopen_post net url data).

Definition http_get (url : string) : M bytes :=
  effect (HttpGet url) (urlopen_get net url).

Definition ctx_send (content : json) : M unit :=
  effect (CtxSend content) (Ok tt).

Definition ctx_send_file (file_name : string) (content : bytes) : M unit :=
  effect (CtxSendFile file_name content) (Ok tt).

(** [websockets.connect(uri)]: on success the session's frames become the
    inbox of the world. *)
Definition ws_connect (uri : string) : M unit :=
  fun w =>
    match ws_server net uri with
    | Ok session =>
        (Ret tt, {| inbox := session; trace := trace w ++ [WsConnect uri] |})
    | Err e => (Raise e, emit (WsConnect uri) w)
    end.

Definition ws_send (payload : string) : M unit :=
  effect (WsSend payload) (Ok tt).

(** [await ws.recv()]: the next frame; with none left, the session's end. *)
Definition ws_recv : M frame :=
  fun w =>
    match ws_frames (inbox w) with
    | f :: rest =>
        (Ret f,
         {| inbox := {| ws_frames := rest; ws_end := ws_end (inbox w) |};
            trace := trace w ++ [WsRecv f] |})
    | [] =>
        match ws_end (inbox w) with
        | Some e => (Raise e, w)
        | None => (Hang, w)
        end
    end.

(* ----------------------------------------------------------------- *)
(** *** [queue_prompt], [get_image], [get_history] *)

Definition prompt_url : string := "http://" ++ server_address ++ "/prompt".

Definition queue_prompt (prompt : json) : M json :=
  let p := JObj [("prompt", prompt); ("client_id", JStr client_id)] in
  let data := str_encode py (json_dumps py p) in
  (body <- http_post prompt_url data ;;
   lift (loads_bytes body))%M.

Definition view_url (filename subfolder folder_type : json) : string :=
  let data :=
    [("filename", filename); ("subfolder", subfolder); ("type", folder_type)] in
  "http://" ++ server_address ++ "/view?" ++ urlencode py data.

Definition get_image (filename subfolder folder_type : json) : M bytes :=
  http_get (view_url filename subfolder folder_type).

Definition history_url (prompt_id : json) : string :=
  "http://" ++ server_address ++ "/history/" ++ py_str prompt_id.

Definition get_history (prompt_id : json) : M json :=
  (body <- http_get (history_url prompt_id) ;;
   lift (loads_bytes body))%M.

(* ----------------------------------------------------------------- *)
(** *** [get_images]: the receive loop *)

Inductive loop_ctl := Break | Continue.

(** One pass through the body of [while True] once [out] is received. *)
Definition on_frame (prompt_id : json) (out : frame) : result loop_ctl :=
  match out with
  | TextFrame s =>
      let? message := loads s in
      let? ty := getitem message "type" in
      if py_eq ty (JStr "executing") then
        let? data := getitem message "data" in
        let? node := getitem data "node" in
        if is_None node then
          let? pid := getitem data "prompt_id" in
          if py_eq pid prompt_id then Ok Break else Ok Continue
        else Ok Continue
      else Ok Continue
  | BinaryFrame _ => Ok Continue
  end.

(** [while True: out = await ws.recv(); ...].  Every pass consumes a
    frame, so [fuel] above the number of frames in the inbox is never
    used up. *)
Fixpoint while_recv (fuel : nat) (prompt_id : json) : M unit :=
  match fuel with
  | O => fun w => (Hang, w)
  | S fuel' =>
      (out <- ws_recv ;;
       ctl <- lift (on_frame prompt_id out) ;;
       match ctl with
       | Break => ret tt
       | Continue => while_recv fuel' prompt_id
       end)%M
  end.

Definition await_completion (prompt_id : json) : M unit :=
  fun w => while_recv (S (List.length (ws_frames (inbox w)))) prompt_id w.

(* ----------------------------------------------------------------- *)
(** *** [get_images]: the walk over the history record *)

(** The two local variables the walk assigns.  [images_output] has no
    value until the first node with an ['images'] entry is met. *)
Record locals := {
  images_output : option (list bytes);
  output_images : list (json * list bytes)
}.

(** [images_output = []; for image in node_output['images']: ...append]. *)
Definition fetch_images (node_output : json) : M (list bytes) :=
  (images <- lift (getitem node_output "images") ;;
   items <- lift (py_iter images) ;;
   for_each items
     (fun image acc =>
        filename <- lift (getitem image "filename") ;;
        subfolder <- lift (getitem image "subfolder") ;;
        folder_type <- lift (getitem image "type") ;;
        image_data <- get_image filename subfolder folder_type ;;
        ret (acc ++ [image_data])%list)
     [])%M.

(** The body of [for node_id in history['outputs']].  The assignment to
    [output_images[node_id]] stands after the [if], not inside it. *)
Definition visit_node (history node_id : json) (st : locals) : M locals :=
  (outputs <- lift (getitem history "outputs") ;;
   node_output <- lift (py_getitem outputs node_id) ;;
   has_images <- lift (py_contains "images" node_output) ;;
   current <- (if has_images : bool
               then (fetched <- fetch_images node_output ;; ret (Some fetched))
               else ret (images_output st)) ;;
   match current with
   | None => raise (UnboundLocalError "images_output")
   | Some fetched =>
       if hashable node_id then
         ret {| images_output := current;
                output_images :=
                  assoc_set py_eq (output_images st) node_id fetched |}
       else raise TypeError
   end)%M.

(** [for node_id in history['outputs']: ...], one pass. *)
Definition inner_loop (history : json) (st : locals) : M locals :=
  (outputs <- lift (getitem history "outputs") ;;
   node_ids <- lift (py_iter outputs) ;;
   for_each node_ids (visit_node history) st)%M.

(** [for o in history['outputs']: for node_id in history['outputs']: ...]. *)
Definition nested_loop (history : json) (st : locals) : M locals :=
  (outputs <- lift (getitem history "outputs") ;;
   os <- lift (py_iter outputs) ;;
   for_each os (fun _ st' => inner_loop history st') st)%M.

Definition no_locals : locals :=
  {| images_output := None; output_images := [] |}.

(** The part of [get_images] after the receive loop. *)
Definition fetch_results (prompt_id : json) : M (list (json * list bytes)) :=
  (response <- get_history prompt_id ;;
   history <- lift (py_getitem response prompt_id) ;;
   st <- nested_loop history no_locals ;;
   ret (output_images st))%M.

(** [prompt_id = queue_prompt(prompt)['prompt_id']], the first statement
    of [get_images]. *)
Definition submit (prompt : json) : M json :=
  (response <- queue_prompt prompt ;;
   lift (getitem response "prompt_id"))%M.

Definition get_images (prompt : json) : M (list (json * list bytes)) :=
  (prompt_id <- submit prompt ;;
   await_completion prompt_id ;;
   fetch_results prompt_id)%M.

(* ----------------------------------------------------------------- *)
(** *** The commands *)

Definition load_prompt (filename : string) : M json :=
  (text <- effect (OpenFile filename) (open_file net filename) ;;
   lift (loads text))%M.

Definition ws_uri (address identifier : string) : string :=
  "ws://" ++ address ++ "/ws?clientId=" ++ identifier.

(** [prompt[node]["inputs"][field] = v] on a freshly loaded graph. *)
Definition set_input (prompt : json) (node field : string) (v : json)
  : result json :=
  let? n := getitem prompt node in
  let? inputs := getitem n "inputs" in
  let? inputs' := py_setitem inputs field v in
  let? n' := py_setitem n "inputs" inputs' in
  py_setitem prompt node n'.

(** [for node_id in images: for image_data in images[node_id]: ...]. *)
Definition send_images (images : list (json * list bytes)) : M unit :=
  for_each (assoc_keys images)
    (fun node_id _ =>
       match assoc_get py_eq images node_id with
       | None => raise (KeyError node_id)
       | Some datas =>
           for_each datas
             (fun image_data _ =>
                image <- lift (Image_open py image_data) ;;
                image_binary <- lift (im_png image) ;;
                ctx_send_file (py_str node_id ++ ".png") image_binary)%M
             tt
       end)
    tt.

(** [async with websockets.connect(uri) as ws: await ws.send(...); ...],
    the block [img] and [i2i] share. *)
Definition run_prompt (prompt : json) : M unit :=
  (ws_connect (ws_uri server_address client_id) ;;
   scoped
     (ws_send (json_dumps py prompt) ;;
      images <- get_images prompt ;;
      send_images images)
     WsClose)%M.

Definition process_images (address identifier : string) (prompt : json)
  : M (list (json * list bytes)) :=
  (ws_connect (ws_uri address identifier) ;;
   scoped (ws_send (json_dumps py prompt) ;; get_images prompt) WsClose)%M.

Definition sorry_try_later : json :=
  JStr "An error occurred while processing your request. Please try again later.".

Definition sorry_unexpected : json :=
  JStr "An unexpected error occurred. Please try again later.".

(** The [except] clauses of [img] and [des]. *)
Definition report (e : exn) : M unit :=
  match e with
  | ConnectionResetError =>
      (effect (LogError e) (Ok tt) ;; ctx_send sorry_try_later)%M
  | _ => (effect (LogError e) (Ok tt) ;; ctx_send sorry_unexpected)%M
  end.

(** The [except] clauses of [i2i]. *)
Definition report_i2i (e : exn) : M unit :=
  match e with
  | ClientResponseError | ConnectionResetError =>
      (effect (LogError e) (Ok tt) ;; ctx_send sorry_try_later)%M
  | _ => (effect (LogError e) (Ok tt) ;; ctx_send sorry_unexpected)%M
  end.

(** [width is not None and height is not None]. *)
Definition both_given (width height : json) : bool :=
  negb (is_None width) && negb (is_None height).

(** The width and height [img] writes into the graph: the [if] and its
    [else] branch. *)
Definition img_size (width height : json) : json * json :=
  if both_given width height
  then (width, height)
  else (JInt 1024, JInt 1024).

(** The job graph [img] builds: the template with the text, the width
    and the height written in. *)
Definition img_prompt (text : string) (width height : json) : M json :=
  (prompt <- load_prompt "flux-api.json" ;;
   prompt <- lift (set_input prompt "6" "text" (JStr text)) ;;
   prompt <- lift (set_input prompt "27" "width"
                     (fst (img_size width height))) ;;
   lift (set_input prompt "27" "height" (snd (img_size width height))))%M.

(** [img(ctx, text, width, height)] with its parameters bound. *)
Definition img (text : string) (width height : json) : M unit :=
  (effect Defer (Ok tt) ;;
   try_except
     (prompt <- img_prompt text width height ;;
      run_prompt prompt)
     report)%M.

(** How a call binds a parameter declared [name: int = default]: the
    command framework passes the options the user gave, as integers, and
    Python supplies the default for the others. *)
Definition bind_int (default : Z) (given : option Z) : json :=
  match given with
  | Some v => JInt v
  | None => JInt default
  end.

(** The [/img] command as Discord invokes it. *)
Definition img_command (text : string) (width height : option Z) : M unit :=
  img text (bind_int 1024 width) (bind_int 1024 height).

(** The job graph [i2i] builds from the attachment at [image_url]. *)
Definition i2i_prompt (text image_url : string) (denoise : json) : M json :=
  (image_data <- effect (Download image_url) (http_download net image_url) ;;
   image <- lift (Image_open py image_data) ;;
   buffered <- lift (im_png image) ;;
   size <- lift (i2i_size (im_width image) (im_height image)) ;;
   let image_base64 := b64encode py buffered in
   prompt <- load_prompt "i2iflux-base64.json" ;;
   prompt <- lift (set_input prompt "6" "text" (JStr text)) ;;
   prompt <- lift (set_input prompt "53" "image" (JStr image_base64)) ;;
   prompt <- lift (set_input prompt "51" "width" (JInt (fst size))) ;;
   prompt <- lift (set_input prompt "51" "height" (JInt (snd size))) ;;
   lift (set_input prompt "17" "denoise" denoise))%M.

(** [i2i(ctx, text, image, denoise)]. *)
Definition i2i (text image_url : string) (denoise : json) : M unit :=
  (effect Defer (Ok tt) ;;
   try_except
     (prompt <- i2i_prompt text image_url denoise ;;
      run_prompt prompt)
     report_i2i)%M.

(** The default of [denoise: float = 0.7]. *)
Definition default_denoise : json :=
  JFloat (FFinite (Binary64.round64 (7 # 10))).

Definition frame_str (f : frame) : string :=
  match f with
  | TextFrame s => s
  | BinaryFrame b => bytes_repr py b
  end.

Definition loads_frame (f : frame) : result json :=
  match f with
  | TextFrame s => loads s
  | BinaryFrame b => loads_bytes b
  end.

(** The job graph [des] builds from the attachment at [image_url], and
    logs. *)
Definition des_prompt (image_url : string) : M json :=
  (image_data <- effect (Download image_url) (http_download net image_url) ;;
   image <- lift (Image_open py image_data) ;;
   buffered <- lift (im_png image) ;;
   let image_base64 := b64encode py buffered in
   prompt <- load_prompt "florance_api.json" ;;
   prompt <- lift (set_input prompt "62" "image" (JStr image_base64)) ;;
   effect (LogInfo ("Sending prompt to server: " ++ json_dumps py prompt))
          (Ok tt) ;;
   ret prompt)%M.

(** The [async with] block of [des]: one frame out, one frame in, and
    the answer passed on. *)
Definition describe (prompt : json) : M unit :=
  (ws_connect (ws_uri server_address client_id) ;;
   scoped
     (ws_send (json_dumps py prompt) ;;
      response <- ws_recv ;;
      effect (LogInfo ("Received response from server: "
                       ++ frame_str response)) (Ok tt) ;;
      response_data <- lift (loads_frame response) ;;
      ctx_send (match response_data with
                | JObj _ => JStr (json_dumps py response_data)
                | _ => response_data
                end))
     WsClose)%M.

(** [des(ctx, image)]; [image_url] is the attachment's [url]. *)
Definition des (image_url : string) : M unit :=
  (effect Defer (Ok tt) ;;
   try_except
     (prompt <- des_prompt image_url ;;
      describe prompt)
     report)%M.

End Bot.

(* ----------------------------------------------------------------- *)
(** *** The process and its invocations *)

(** The module state that outlives a command: what the import of
    [bot5.py] computed. *)
Record process := {
  proc_client_id : string
}.

(** Loading the module draws one UUID. *)
Definition startup (uuid4 : string) : process :=
  {| proc_client_id := uuid4 |}.

(** A slash command with the options the user gave. *)
Inductive invocation :=
| Img (text : string) (width height : option Z)
| I2i (text image_url : string) (denoise : option json)
| Des (image_url : string).

Definition option_or {A} (default : A) (given : option A) : A :=
  match given with
  | Some v => v
  | None => default
  end.

Definition invoke (py : pylib) (net : outside) (p : process)
  (c : invocation) : M unit :=
  match c with
  | Img text width height =>
      img_command py net (proc_client_id p) text width height
  | I2i text image_url denoise =>
      i2i py net (proc_client_id p) text image_url
        (option_or default_denoise denoise)
  | Des image_url => des py net (proc_client_id p) image_url
  end.

(** The commands of the image-generation path. *)
Definition generates (c : invocation) : bool :=
  match c with
  | Img _ _ _ | I2i _ _ _ => true
  | Des _ => false
  end.

(** A command starts with no connection open and nothing done yet. *)
Definition idle : world :=
  {| inbox := {| ws_frames := []; ws_end := None |}; trace := [] |}.

Definition run {A} (m : M A) : outcome A * world := m idle.

(* ================================================================= *)
(** ** The walk against a backend with memory

    [outside] answers a [GET] as a function of the URL: the same request
    gets the same answer however often it is made.  The walk of
    [get_images] makes the same request more than once, so it is given
    here over any [GET]: the same code as [fetch_images], [visit_node],
    [inner_loop] and [nested_loop], with [urllib.request.urlopen] as a
    parameter. *)

Section WalkWith.

Variable py : pylib.
Variable get : string -> M bytes.

Definition fetch_images_with (node_output : json) : M (list bytes) :=
  (images <- lift (getitem node_output "images") ;;
   items <- lift (py_iter images) ;;
   for_each items
     (fun image acc =>
        filename <- lift (getitem image "filename") ;;
        subfolder <- lift (getitem image "subfolder") ;;
        folder_type <- lift (getitem image "type") ;;
        image_data <- get (view_url py filename subfolder folder_type) ;;
        ret (acc ++ [image_data])%list)
     [])%M.

Definition visit_node_with (history node_id : json) (st : locals)
  : M locals :=
  (outputs <- lift (getitem history "outputs") ;;
   node_output <- lift (py_getitem outputs node_id) ;;
   has_images <- lift (py_contains "images" node_output) ;;
   current <- (if has_images : bool
               then (fetched <- fetch_images_with node_output ;;
                     ret (Some fetched))
               else ret (images_output st)) ;;
   match current with
   | None => raise (UnboundLocalError "images_output")
   | Some fetched =>
       if hashable node_id then
         ret {| images_output := current;
                output_images :=
                  assoc_set py_eq (output_images st) node_id fetched |}
       else raise TypeError
   end)%M.

Definition inner_loop_with (history : json) (st : locals) : M locals :=
  (outputs <- lift (getitem history "outputs") ;;
   node_ids <- lift (py_iter outputs) ;;
   for_each node_ids (visit_node_with history) st)%M.

Definition nested_loop_with (history : json) (st : locals) : M locals :=
  (outputs <- lift (getitem history "outputs") ;;
   os <- lift (py_iter outputs) ;;
   for_each os (fun _ st' => inner_loop_with history st') st)%M.

End WalkWith.

(** The [GET] of a backend with memory: what it answers may depend on
    everything the command has done before the request. *)
Definition http_get_after (answers : list event -> string -> result bytes)
  (url : string) : M bytes :=
  fun w => lift (answers (trace w) url) (emit (HttpGet url) w).

(** A backend that answers equal requests equally, whenever they are
    made. *)
Definition stable (answers : list event -> string -> result bytes) : Prop :=
  forall tr tr' url, answers tr url = answers tr' url.

(** The backend without memory that answers as [answers] does at the
    start. *)
Definition at_start (answers : list event -> string -> result bytes)
  : outside :=
  {| urlopen_post := fun _ _ => Err URLError;
     urlopen_get := answers [];
     open_file := fun _ => Err FileNotFoundError;
     ws_server := fun _ => Err ConnectionResetError;
     http_download := fun _ => Err ClientResponseError |}.



(* ================================================================= *)
(** ** The text service: [gem] and the Ollama helpers

    [gem], [get_ollama_response], [initialize_ollama] and [on_ready] use
    [requests], print on the console and answer on the Discord context.
    They share no state with the image commands and get a world of their
    own: the list of what they did.  [requests] is taken as of version
    2.27 and later, where the error of [response.json()] on a body that
    is not JSON belongs to the [RequestException] family. *)

Module Ollama.

(** The exceptions [requests] raises, all of the family
    [requests.exceptions.RequestException]. *)
Inductive failure :=
| ConnectionError
| Timeout
| HTTPError (status : Z)
| RequestsJSONDecodeError.

(** The exceptions of this part: the family the helpers catch, and
    [AttributeError], which they do not. *)
Inductive error :=
| RequestException (kind : failure)
| AttributeError.

(** A [requests.Response]: its status code, and what [response.json()]
    decodes, [None] for a body that is not JSON. *)
Record response := {
  status_code : Z;
  decoded : option json
}.

Inductive reply :=
| Answers (r : response)
| Fails (kind : failure).

(** [requests.post] as a function of the request, and [str(e)] for the
    messages that are printed. *)
Record requests_lib := {
  requests_post : string -> json -> reply;
  str_of_failure : failure -> string
}.

(** What these functions do, in the order they do it. *)
Inductive action :=
| Deferred
| Posted (url : string) (data : json)
| Printed (line : string)
| Sent (content : json).

Inductive ends (A : Type) :=
| Returns (a : A)
| Raises (e : error).
Arguments Returns {A} a.
Arguments Raises {A} e.

Definition T (A : Type) := list action -> ends A * list action.

Definition returns {A} (a : A) : T A := fun log => (Returns a, log).

Definition raises {A} (e : error) : T A := fun log => (Raises e, log).

Definition then_ {A B} (m : T A) (k : A -> T B) : T B :=
  fun log =>
    match m log with
    | (Returns a, log') => k a log'
    | (Raises e, log') => (Raises e, log')
    end.

Definition act (a : action) : T unit := fun log => (Returns tt, log ++ [a])%list.

(** [try: m except requests.exceptions.RequestException as e: handler e]. *)
Definition except_RequestException {A} (m : T A) (handler : failure -> T A)
  : T A :=
  fun log =>
    match m log with
    | (Raises (RequestException kind), log') => handler kind log'
    | other => other
    end.

Declare Scope t_scope.
Delimit Scope t_scope with T.
Notation "x <- m ;; k" := (then_ m (fun x => k))
  (at level 100, m at next level, right associativity) : t_scope.
Notation "m ;; k" := (then_ m (fun _ => k))
  (at level 100, right associativity) : t_scope.

Section Helpers.

Variable requests : requests_lib.

Definition post (url : string) (data : json) : T response :=
  fun log =>
    match requests_post requests url data with
    | Answers r => (Returns r, log ++ [Posted url data])%list
    | Fails kind => (Raises (RequestException kind), log ++ [Posted url data])%list
    end.

(** [response.raise_for_status()]: an [HTTPError] for the 4xx and 5xx
    codes. *)
Definition raise_for_status (r : response) : T unit :=
  if (400 <=? status_code r) && (status_code r <? 600)
  then raises (RequestException (HTTPError (status_code r)))
  else returns tt.

(** [response.json()]. *)
Definition response_json (r : response) : T json :=
  match decoded r with
  | Some v => returns v
  | None => raises (RequestException RequestsJSONDecodeError)
  end.

(** [v.get(key, default)]: only a [dict] has the method. *)
Definition method_get (v : json) (key : string) (default : json) : T json :=
  match v with
  | JObj d =>
      returns (match dict_get d key with
               | Some x => x
               | None => default
               end)
  | _ => raises AttributeError
  end.

Definition sorry : json := JStr "Sorry, I could not process your request.".

Definition chat_url : string := "http://192.168.8.220:11434/api/chat".

Definition generate_url : string := "http://192.168.8.220:11434/api/generate".

Definition chat_data (query : string) : json :=
  JObj [("model", JStr "gemma2:27b");
        ("messages",
         JArr [JObj [("role", JStr "user"); ("content", JStr query)]]);
        ("stream", JBool false)].

Definition get_ollama_response (query : string) : T json :=
  let url := chat_url in
  let data := chat_data query in
  except_RequestException
    (response <- post url data ;;
     raise_for_status response ;;
     body <- response_json response ;;
     message <- method_get body "message" (JObj []) ;;
     method_get message "content" sorry)%T
    (fun e =>
       act (Printed ("Error querying Ollama API: "
                     ++ str_of_failure requests e)) ;;
       returns sorry)%T.

Definition initialize_ollama : T unit :=
  let url := generate_url in
  let data := JObj [("model", JStr "gemma2:27b")] in
  except_RequestException
    (response <- post url data ;;
     raise_for_status response ;;
     act (Printed "Ollama initialization successful."))%T
    (fun e =>
       act (Printed ("Error initializing Ollama API: "
                     ++ str_of_failure requests e))).

(** [on_ready]; [me] is what [bot.me] prints as. *)
Definition on_ready (me : string) : T unit :=
  (act (Printed ("We have logged in as " ++ me)) ;;
   initialize_ollama)%T.

Definition gem (query : string) : T unit :=
  (act Deferred ;;
   response <- get_ollama_response query ;;
   act (Sent response))%T.

End Helpers.

(** The replies [get_ollama_response] cannot read: a body that is JSON
    but no mapping, or a mapping whose ["message"] is no mapping. *)
Definition unreadable (body : json) : Prop :=
  match body with
  | JObj d =>
      match dict_get d "message" with
      | Some (JObj _) | None => False
      | Some _ => True
      end
  | _ => True
  end.

(** The text the reply holds, the apology standing for a missing
    ["message"] or ["content"]. *)
Definition content_of (body : json) : json :=
  match body with
  | JObj d =>
      match dict_get d "message" with
      | Some (JObj m) =>
          match dict_get m "content" with
          | Some text => text
          | None => sorry
          end
      | _ => sorry
      end
  | _ => sorry
  end.

(** A status [raise_for_status] lets through. *)
Definition passes (r : response) : Prop :=
  status_code r < 400 \/ 600 <= status_code r.

End Ollama.

(* ================================================================= *)
(** ** Vocabulary of the properties *)

Section Frames.

Variable py : pylib.
Variable prompt_id : json.

(** The frames the loop is expected to skip: binary previews, messages
    of another type, progress of a node, and the end of another job. *)
Inductive decoy : frame -> Prop :=
| decoy_binary b :
    decoy (BinaryFrame b)
| decoy_other_type s message ty :
    json_loads py s = Some message ->
    getitem message "type" = Ok ty ->
    py_eq ty (JStr "executing") = false ->
    decoy (TextFrame s)
| decoy_node s message data node :
    json_loads py s = Some message ->
    getitem message "type" = Ok (JStr "executing") ->
    getitem message "data" = Ok data ->
    getitem data "node" = Ok node ->
    node <> JNull ->
    decoy (TextFrame s)
| decoy_other_job s message data pid :
    json_loads py s = Some message ->
    getitem message "type" = Ok (JStr "executing") ->
    getitem message "data" = Ok data ->
    getitem data "node" = Ok JNull ->
    getitem data "prompt_id" = Ok pid ->
    py_eq pid prompt_id = false ->
    decoy (TextFrame s).

(** The frame that ends the loop:
    [{type: "executing", data: {node: null, prompt_id: <job id>}}]. *)
Inductive terminating : frame -> Prop :=
| terminating_intro s message data pid :
    json_loads py s = Some message ->
    getitem message "type" = Ok (JStr "executing") ->
    getitem message "data" = Ok data ->
    getitem data "node" = Ok JNull ->
    getitem data "prompt_id" = Ok pid ->
    py_eq pid prompt_id = true ->
    terminating (TextFrame s).

End Frames.

(** The world after [consumed] was received and [rest] is still to come. *)
Definition received (w : world) (consumed rest : list frame) : world :=
  {| inbox := {| ws_frames := rest; ws_end := ws_end (inbox w) |};
     trace := trace w ++ map WsRecv consumed |}.

(** The world in which [frames] is all the server has sent so far on a
    connection that stays open. *)
Definition arrived (w : world) (frames : list frame) : world :=
  {| inbox := {| ws_frames := frames; ws_end := None |}; trace := trace w |}.

(** The body [queue_prompt] posts for a job graph. *)
Definition submission_body (py : pylib) (identifier : string) (prompt : json)
  : bytes :=
  str_encode py
    (json_dumps py (JObj [("prompt", prompt); ("client_id", JStr identifier)])).

(** The steps of a generation command, numbered in the order the code
    takes them. *)
Definition stage (ev : event) : nat :=
  match ev with
  | Defer | Download _ | OpenFile _ => 0
  | WsConnect _ => 1
  | WsSend _ => 2
  | HttpPost _ _ => 3
  | WsRecv _ => 4
  | HttpGet _ => 5
  | CtxSendFile _ _ => 6
  | WsClose => 7
  | LogInfo _ | LogError _ | CtxSend _ => 8
  end.

Definition in_order (tr : list event) : Prop :=
  StronglySorted (fun a b => (stage a <= stage b)%nat) tr.



Definition is_ws_send (ev : event) : bool :=
  match ev with WsSend _ => true | _ => false end.

Definition is_image_fetch (ev : event) : bool :=
  match ev with HttpGet _ => true | _ => false end.




(** [prompt[node]["inputs"][field]]. *)
Definition get_input (prompt : json) (node field : string) : result json :=
  let? n := getitem prompt node in
  let? inputs := getitem n "inputs" in
  getitem inputs field.

(** The part of a result the caller sees. *)
Definition outcome_map {A B} (f : A -> B) (o : outcome A) : outcome B :=
  match o with
  | Ret a => Ret (f a)
  | Raise e => Raise e
  | Hang => Hang
  end.

(* ================================================================= *)
(** ** Notions the proofs use *)

Ltac forall_in :=
  match goal with
  | H : Forall ?P ?l, Hk : In ?k ?l |- ?P ?k =>
      exact (proj1 (Forall_forall P l) H k Hk)
  end.

Section Runs.

Variables (K V : Type) (keq : K -> K -> bool).

(** A run of assignments [d[k] = v], and the value it leaves under a
    key. *)
Fixpoint assign (a : list (K * V)) (m : list (K * V)) : list (K * V) :=
  match a with
  | [] => m
  | (k, v) :: a' => assign a' (assoc_set keq m k v)
  end.

Fixpoint last_assigned (a : list (K * V)) (k : K) (before : option V)
  : option V :=
  match a with
  | [] => before
  | (k', v) :: a' => last_assigned a' k (if keq k' k then Some v else before)
  end.

End Runs.

(** A computation whose result is the same in every world: it may add to
    the trace, it reads neither the trace nor the inbox. *)
Definition oblivious {A} (m : M A) : Prop :=
  forall w1 w2, fst (m w1) = fst (m w2).

Section WalkNotions.

Variable py : pylib.
Variable net : outside.

(** What the visit of a node finds: the images it fetched, or nothing
    when the node has no ['images'] entry. *)
Definition scan (history node_id : json) : M (option (list bytes)) :=
  (outputs <- lift (getitem history "outputs") ;;
   node_output <- lift (py_getitem outputs node_id) ;;
   has_images <- lift (py_contains "images" node_output) ;;
   if has_images : bool
   then (fetched <- fetch_images py net node_output ;; ret (Some fetched))
   else ret None)%M.

Definition kept (found before : option (list bytes)) : option (list bytes) :=
  match found with
  | Some fetched => Some fetched
  | None => before
  end.

Definition look (history node_id : json) : outcome (option (list bytes)) :=
  fst (scan history node_id idle).

(** The value [images_output] ends with and the assignments to
    [output_images] a pass makes, from the value [images_output] starts
    with.  Neither depends on [output_images]. *)
Fixpoint assignments (f : json -> outcome (option (list bytes)))
  (node_ids : list json) (before : option (list bytes))
  : outcome (option (list bytes) * list (json * list bytes)) :=
  match node_ids with
  | [] => Ret (before, [])
  | node_id :: rest =>
      match f node_id with
      | Ret found =>
          match kept found before with
          | None => Raise (UnboundLocalError "images_output")
          | Some fetched =>
              if hashable node_id then
                outcome_map
                  (fun r => (fst r, (node_id, fetched) :: snd r))
                  (assignments f rest (Some fetched))
              else Raise TypeError
          end
      | Raise e => Raise e
      | Hang => Hang
      end
  end.

Definition after (st : locals)
  (r : option (list bytes) * list (json * list bytes)) : locals :=
  {| images_output := fst r;
     output_images := assign py_eq (snd r) (output_images st) |}.

Definition is_str (v : json) : Prop := exists s, v = JStr s.

(** The backend serves [data] for the image descriptor [image]. *)
Definition served (image : json) (data : bytes) : Prop :=
  exists filename subfolder folder_type,
    getitem image "filename" = Ok filename /\
    getitem image "subfolder" = Ok subfolder /\
    getitem image "type" = Ok folder_type /\
    urlopen_get net (view_url py filename subfolder folder_type) = Ok data.

(** Every node of [nodes] has an ['images'] list, and [images] holds,
    node by node and in listed order, what the backend serves for it. *)
Definition all_with_images (nodes : list (string * json))
  (images : list (list bytes)) : Prop :=
  Forall2
    (fun node datas =>
       exists descs,
         getitem (snd node) "images" = Ok (JArr descs) /\
         Forall2 served descs datas)
    nodes images.

End WalkNotions.

(** Events in stage order, all between two stages. *)
Definition within (lo hi : nat) (evs : list event) : Prop :=
  in_order evs /\ Forall (fun ev => (lo <= stage ev <= hi)%nat) evs.

(** A computation that only adds such events to the trace. *)
Definition staged {A} (lo hi : nat) (m : M A) : Prop :=
  forall w, exists evs,
    trace (snd (m w)) = (trace w ++ evs)%list /\ within lo hi evs.

(** Events that neither open the WebSocket, nor send on it, nor submit. *)
Definition quiet (ev : event) : Prop :=
  match ev with
  | WsConnect _ | WsSend _ | HttpPost _ _ => False
  | _ => True
  end.

Definition only {A} (P : event -> Prop) (m : M A) : Prop :=
  forall w, exists evs,
    trace (snd (m w)) = (trace w ++ evs)%list /\ Forall P evs.


Section TraceShapes.

Variable py : pylib.
Variable net : outside.
Variable client_id : string.

(** What [run_prompt] adds to the trace: the connection attempt alone
    when it fails; otherwise the frame with the graph, the submission,
    and then receives, fetches, deliveries and the close, in that
    order. *)
Definition generation (prompt : json) (evs : list event) : Prop :=
  (evs = [WsConnect (ws_uri server_address client_id)] /\ exists e, ws_server net (ws_uri server_address client_id) = Err e)
  \/ (exists tail,
        evs = WsConnect (ws_uri server_address client_id) :: WsSend (json_dumps py prompt)
              :: HttpPost prompt_url (submission_body py client_id prompt) :: tail
        /\ within 4 7 tail
        /\ exists session, ws_server net (ws_uri server_address client_id) = Ok session).

(** The trace of a generation command: [Defer], the preparation of the
    graph, the generation if the graph was built, and the report of the
    handler if something was raised. *)
Definition generation_trace (prelude : M json) (tr : list event) : Prop :=
  exists pre gen rep,
    tr = (Defer :: pre ++ gen ++ rep)%list
    /\ within 0 0 pre
    /\ (gen = [] \/
        exists prompt w0 w1,
          prelude w0 = (Ret prompt, w1) /\ generation prompt gen)
    /\ within 8 8 rep.

(** What every command's trace looks like from the WebSocket's side:
    quiet events, then possibly the connection, the one frame, and for
    the generation commands the submission, with quiet events after. *)
Definition dialogue (tr : list event) : Prop :=
  exists pre rest,
    tr = (pre ++ rest)%list /\ Forall quiet pre /\
    (rest = []
     \/ (exists tail,
           rest = WsConnect (ws_uri server_address client_id) :: tail /\ Forall quiet tail
           /\ exists e, ws_server net (ws_uri server_address client_id) = Err e)
     \/ exists prompt tail,
          rest = WsConnect (ws_uri server_address client_id) :: WsSend (json_dumps py prompt) :: tail
          /\ (exists session, ws_server net (ws_uri server_address client_id) = Ok session)
          /\ (Forall quiet tail
              \/ exists tail',
                   tail = HttpPost prompt_url (submission_body py client_id prompt) :: tail'
                   /\ Forall quiet tail')).

(** One frame at most goes out, the serialized job graph; a submission
    in the same trace posts that same graph; and the frame does go out
    when the connection opened. *)
Definition one_frame (tr : list event) : Prop :=
  (filter is_ws_send tr = [] \/
   exists prompt,
     filter is_ws_send tr = [WsSend (json_dumps py prompt)] /\
     forall url body,
       In (HttpPost url body) tr ->
       url = prompt_url /\ body = submission_body py client_id prompt)
  /\ (forall u session,
        In (WsConnect u) tr -> ws_server net u = Ok session ->
        exists prompt, filter is_ws_send tr = [WsSend (json_dumps py prompt)]).

End TraceShapes.

(** The unit roundoff of binary64. *)
Definition unit_roundoff : Q := Binary64.pow2 (-53).

(** The size that scales the longer side to 1920 and keeps the aspect
    ratio up to integer truncation: the other side is the integer part
    of its exact proportional value. *)
Definition truncated_size (w h : Z) : Z * Z :=
  if h <? w then (1920, 1920 * h / w) else (1920 * w / h, 1920).

(** [x] is the integer part of [n / d], or one below it when [n / d] is
    itself an integer. *)
Definition truncation_or_below (x n d : Z) : Prop :=
  x = n / d \/ (n mod d = 0 /\ x = n / d - 1).

(* ----------------------------------------------------------------- *)
(** *** Notions for the walk, the deliveries and the handlers *)

Section MoreNotions.

Variable py : pylib.
Variable net : outside.

(** What the walk finds at a node of the outputs: images the backend
    serves, or a mapping without an ['images'] entry. *)
Definition node_found (node : string * json) (found : option (list bytes))
  : Prop :=
  match found with
  | Some datas =>
      exists descs,
        getitem (snd node) "images" = Ok (JArr descs) /\
        Forall2 (served py net) descs datas
  | None =>
      exists fields, snd node = JObj fields /\ dict_get fields "images" = None
  end.

(** What the walk leaves under each node, node by node: the images of
    the node itself when it lists some, else those of the nearest node
    before it that does.  [None] when a node without images comes before
    every node with images. *)
Fixpoint carried_forward (found : list (option (list bytes)))
  (before : option (list bytes)) : option (list (list bytes)) :=
  match found with
  | [] => Some []
  | f :: rest =>
      match kept f before with
      | None => None
      | Some datas =>
          option_map (cons datas) (carried_forward rest (Some datas))
      end
  end.

(** The backend answers the request for the image [image] with [e]. *)
Definition unserved (image : json) (e : exn) : Prop :=
  exists filename subfolder folder_type,
    getitem image "filename" = Ok filename /\
    getitem image "subfolder" = Ok subfolder /\
    getitem image "type" = Ok folder_type /\
    urlopen_get net (view_url py filename subfolder folder_type) = Err e.

(** PIL opens [data] and saves it as the PNG [png]. *)
Definition reencoded (data png : bytes) : Prop :=
  exists image, Image_open py data = Ok image /\ im_png image = Ok png.

(** The attachments sent for the images of one node, and for a whole
    result. *)
Definition node_files (node_id : json) (pngs : list bytes) : list event :=
  map (CtxSendFile (py_str py node_id ++ ".png")) pngs.

Definition files (node_ids : list json) (pngs : list (list bytes))
  : list event :=
  flat_map (fun it => node_files (fst it) (snd it)) (combine node_ids pngs).

(** Text frames the receive loop cannot read, with what it raises on
    them: a text that is not JSON, a JSON array, a mapping without
    ['type'], an ['executing'] message without ['data']. *)
Inductive malformed : frame -> exn -> Prop :=
| malformed_text s :
    json_loads py s = None ->
    malformed (TextFrame s) JSONDecodeError
| malformed_array s items :
    json_loads py s = Some (JArr items) ->
    malformed (TextFrame s) TypeError
| malformed_no_type s fields :
    json_loads py s = Some (JObj fields) ->
    dict_get fields "type" = None ->
    malformed (TextFrame s) (KeyError (JStr "type"))
| malformed_no_data s fields :
    json_loads py s = Some (JObj fields) ->
    dict_get fields "type" = Some (JStr "executing") ->
    dict_get fields "data" = None ->
    malformed (TextFrame s) (KeyError (JStr "data")).

End MoreNotions.

(** The apology each handler sends for an exception. *)
Definition apology (e : exn) : json :=
  match e with
  | ConnectionResetError => sorry_try_later
  | _ => sorry_unexpected
  end.

Definition apology_i2i (e : exn) : json :=
  match e with
  | ClientResponseError | ConnectionResetError => sorry_try_later
  | _ => sorry_unexpected
  end.

(** The graph a command builds before it opens the WebSocket, and the
    apology its handler sends. *)
Definition graph_of (py : pylib) (net : outside) (c : invocation) : M json :=
  match c with
  | Img text width height =>
      img_prompt py net text (bind_int 1024 width) (bind_int 1024 height)
  | I2i text image_url denoise =>
      i2i_prompt py net text image_url (option_or default_denoise denoise)
  | Des image_url => des_prompt py net image_url
  end.

(** The [async with] block a command runs on the graph it built. *)
Definition block_of (py : pylib) (net : outside) (p : process)
  (c : invocation) (prompt : json) : M unit :=
  match c with
  | Des _ => describe py net (proc_client_id p) prompt
  | _ => run_prompt py net (proc_client_id p) prompt
  end.

Definition apology_of (c : invocation) (e : exn) : json :=
  match c with
  | I2i _ _ _ => apology_i2i e
  | _ => apology e
  end.

(** The world after more effects. *)
Definition extended (w : world) (evs : list event) : world :=
  {| inbox := inbox w; trace := trace w ++ evs |}.

(** What [des] answers for the decoded frame [v]. *)
Definition des_answer (py : pylib) (v : json) : json :=
  match v with
  | JObj _ => JStr (json_dumps py v)
  | _ => v
  end.

(** [prompt[node][key]]. *)
Definition node_attr (prompt : json) (node key : string) : result json :=
  let? n := getitem prompt node in
  getitem n key.

(** A mapping with an ["inputs"] mapping: what the commands need at a
    node they patch. *)
Definition patchable (prompt : json) (node : string) : Prop :=
  exists dp dn di,
    prompt = JObj dp /\ dict_get dp node = Some (JObj dn) /\
    dict_get dn "inputs" = Some (JObj di).

(** Events [des] can cause: no HTTP request to the backend and no
    attachment. *)
Definition spoken (ev : event) : Prop :=
  match ev with
  | HttpPost _ _ | HttpGet _ | CtxSendFile _ _ => False
  | _ => True
  end.

Definition is_ws_recv (ev : event) : bool :=
  match ev with WsRecv _ => true | _ => false end.

(** Events that are neither a message nor an attachment on the Discord
    context, nor the close of the socket. *)
Definition silent (ev : event) : Prop :=
  match ev with
  | CtxSend _ | CtxSendFile _ _ | WsClose => False
  | _ => True
  end.

(* ================================================================= *)
(** ** Scenarios

    A small runtime and backend to run the model on: a serializer in
    Python's default layout for values whose strings need no escaping
    (a finite float is written as its exact fraction, where Python
    writes a decimal; the documents below hold none), a decoder that
    knows the documents of the scenarios, and a backend that answers as
    the specification's end-to-end scenario describes. *)

Module Scenario.

Definition dq : string := String (ascii_of_nat 34) EmptyString.

Definition quoted (s : string) : string := dq ++ s ++ dq.

Fixpoint join (sep : string) (parts : list string) : string :=
  match parts with
  | [] => ""
  | [x] => x
  | x :: rest => x ++ sep ++ join sep rest
  end.

Definition digits (n : Z) : string :=
  NilZero.string_of_int (Z.to_int n).

Fixpoint dumps (v : json) : string :=
  match v with
  | JNull => "null"
  | JBool true => "true"
  | JBool false => "false"
  | JInt n => digits n
  | JFloat (FFinite q) => digits (Qnum q) ++ "/" ++ digits (Z.pos (Qden q))
  | JFloat (FInf false) => "Infinity"
  | JFloat (FInf true) => "-Infinity"
  | JFloat FNaN => "NaN"
  | JStr s => quoted s
  | JArr l => "[" ++ join ", " (map dumps l) ++ "]"
  | JObj d =>
      "{" ++ join ", "
               (map (fun kv => quoted (fst kv) ++ ": " ++ dumps (snd kv)) d)
          ++ "}"
  end.

Definition loads_table (docs : list json) (s : string) : option json :=
  find (fun v => String.eqb (dumps v) s) docs.

Definition query (data : list (string * json)) : string :=
  join "&"
    (map (fun kv =>
            fst kv ++ "=" ++
            match snd kv with JStr s => s | v => dumps v end) data).

Definition executing (node prompt_id : json) : json :=
  JObj [("type", JStr "executing");
        ("data", JObj [("node", node); ("prompt_id", prompt_id)])].

Definition status_message : json :=
  JObj [("type", JStr "status"); ("data", JObj [])].

Definition image_ref (filename : string) : json :=
  JObj [("filename", JStr filename); ("subfolder", JStr "");
        ("type", JStr "output")].

(** History of job ["abc"]: node ["9"] with one image. *)
Definition history_one : json :=
  JObj [("abc", JObj [("outputs",
           JObj [("9", JObj [("images", JArr [image_ref "out.png"])])])])].

(** History of job ["abc"]: node ["9"] with two images, node ["12"] with
    no ['images'] entry. *)
Definition history_two : json :=
  JObj [("abc", JObj [("outputs",
           JObj [("9", JObj [("images", JArr [image_ref "a.png";
                                              image_ref "b.png"])]);
                 ("12", JObj [("text", JArr [JStr "done"])])])])].

(** The same two nodes, the one without images first. *)
Definition history_two_swapped : json :=
  JObj [("abc", JObj [("outputs",
           JObj [("12", JObj [("text", JArr [JStr "done"])]);
                 ("9", JObj [("images", JArr [image_ref "a.png";
                                              image_ref "b.png"])])])])].

(** A history that does not know job ["abc"]. *)
Definition history_none : json := JObj [].

Definition flux_template : json :=
  JObj [("6", JObj [("class_type", JStr "CLIPTextEncode");
                    ("inputs", JObj [("text", JStr "")])]);
        ("27", JObj [("class_type", JStr "EmptySD3LatentImage");
                     ("inputs", JObj [("width", JInt 512);
                                      ("height", JInt 512)])])].

Definition i2i_template : json :=
  JObj [("6", JObj [("inputs", JObj [("text", JStr "")])]);
        ("17", JObj [("inputs", JObj [("denoise", JInt 1)])]);
        ("51", JObj [("inputs", JObj [("width", JInt 512);
                                      ("height", JInt 512)])]);
        ("53", JObj [("inputs", JObj [("image", JStr "")])])].

Definition submitted : json := JObj [("prompt_id", JStr "abc")].

Definition documents : list json :=
  [ submitted; status_message;
    executing JNull (JStr "abc"); executing JNull (JStr "xyz");
    executing (JStr "9") (JStr "abc");
    history_one; history_two; history_two_swapped; history_none;
    flux_template; i2i_template ].

Definition py : pylib :=
  {| json_dumps := dumps;
     json_loads := loads_table documents;
     json_loads_bytes := fun b => loads_table documents (string_of_list_byte b);
     str_encode := list_byte_of_string;
     str_of := dumps;
     urlencode := query;
     b64encode := string_of_list_byte;
     bytes_repr := string_of_list_byte;
     Image_open := fun data =>
       if String.eqb (string_of_list_byte data) "wide" then
         Ok {| im_width := 7200; im_height := 6345; im_png := Ok data |}
       else
         Ok {| im_width := 1024; im_height := 1024; im_png := Ok data |} |}.

Definition encode (v : json) : bytes := list_byte_of_string (dumps v).

Definition data (s : string) : bytes := list_byte_of_string s.

Definition view (filename : string) : string :=
  view_url py (JStr filename) (JStr "") (JStr "output").

(** The frames of the end-to-end scenario: the end of another job, a
    binary preview, the end of job ["abc"]. *)
Definition frames : list frame :=
  [ TextFrame (dumps (executing JNull (JStr "xyz")));
    BinaryFrame (data "preview");
    TextFrame (dumps (executing JNull (JStr "abc"))) ].

(** The backend, with the history document it serves. *)
Definition net (history : json) : outside :=
  {| urlopen_post := fun url _ =>
       if String.eqb url prompt_url then Ok (encode submitted)
       else Err URLError;
     urlopen_get := fun url =>
       if String.eqb url (history_url py (JStr "abc")) then Ok (encode history)
       else if String.eqb url (view "out.png") then Ok (data "PNGDATA")
       else if String.eqb url (view "a.png") then Ok (data "A")
       else if String.eqb url (view "b.png") then Ok (data "B")
       else Err URLError;
     open_file := fun filename =>
       if String.eqb filename "flux-api.json" then Ok (dumps flux_template)
       else if String.eqb filename "i2iflux-base64.json"
       then Ok (dumps i2i_template)
       else Err FileNotFoundError;
     ws_server := fun _ => Ok {| ws_frames := frames; ws_end := None |};
     http_download := fun url =>
       if String.eqb url "https://cdn.example/wide.png" then Ok (data "wide")
       else Err ClientResponseError |}.

Definition identifier : string := "7f9c24e8-3b12-4fef-91e0-5d1c3a2b6f40".

(** The graph [/img a cat] builds from [flux_template]. *)
Definition a_cat : json :=
  JObj [("6", JObj [("class_type", JStr "CLIPTextEncode");
                    ("inputs", JObj [("text", JStr "a cat")])]);
        ("27", JObj [("class_type", JStr "EmptySD3LatentImage");
                     ("inputs", JObj [("width", JInt 1024);
                                      ("height", JInt 1024)])])].

(** The world once that graph is built. *)
Definition ready : world :=
  {| inbox := {| ws_frames := []; ws_end := None |};
     trace := [Defer; OpenFile "flux-api.json"] |}.

(** The graph [/i2i a cat] builds from [i2i_template] for the
    attachment [wide.png], of 7200 by 6345 pixels. *)
Definition wide_graph : json :=
  JObj [("6", JObj [("inputs", JObj [("text", JStr "a cat")])]);
        ("17", JObj [("inputs", JObj [("denoise", default_denoise)])]);
        ("51", JObj [("inputs", JObj [("width", JInt 1920);
                                      ("height", JInt 1691)])]);
        ("53", JObj [("inputs", JObj [("image", JStr "wide")])])].

End Scenario.

(** A backend that serves each image once: a second request for the
    same URL fails. *)
Module Once.

Definition requested (url : string) (tr : list event) : bool :=
  existsb (fun ev => match ev with
                     | HttpGet u => String.eqb u url
                     | _ => false
                     end) tr.

Definition answers (tr : list event) (url : string) : result bytes :=
  if requested url tr then Err URLError
  else urlopen_get (Scenario.net Scenario.history_one) url.

(** A history record of two nodes with one image each. *)
Definition history : json :=
  JObj [("outputs",
         JObj [("9", JObj [("images", JArr [Scenario.image_ref "a.png"])]);
               ("12", JObj [("images", JArr [Scenario.image_ref "b.png"])])])].

(** The backend of the scenarios, which has no memory. *)
Definition always (tr : list event) (url : string) : result bytes :=
  urlopen_get (Scenario.net Scenario.history_one) url.

End Once.

(** A runtime and a backend for [des]. *)
Module Florence.

Definition template : json :=
  JObj [("62", JObj [("class_type", JStr "LoadImageBase64");
                     ("inputs", JObj [("image", JStr "")])])].

(** The graph [des] builds for the attachment [wide.png]. *)
Definition graph : json :=
  JObj [("62", JObj [("class_type", JStr "LoadImageBase64");
                     ("inputs", JObj [("image", JStr "wide")])])].

Definition py : pylib :=
  {| json_dumps := Scenario.dumps;
     json_loads :=
       Scenario.loads_table (template :: Scenario.documents);
     json_loads_bytes := json_loads_bytes Scenario.py;
     str_encode := str_encode Scenario.py;
     str_of := str_of Scenario.py;
     urlencode := urlencode Scenario.py;
     b64encode := b64encode Scenario.py;
     bytes_repr := bytes_repr Scenario.py;
     Image_open := Image_open Scenario.py |}.

Definition net : outside :=
  {| urlopen_post := urlopen_post (Scenario.net Scenario.history_one);
     urlopen_get := urlopen_get (Scenario.net Scenario.history_one);
     open_file := fun filename =>
       if String.eqb filename "florance_api.json"
       then Ok (Scenario.dumps template)
       else Err FileNotFoundError;
     ws_server := ws_server (Scenario.net Scenario.history_one);
     http_download := http_download (Scenario.net Scenario.history_one) |}.

(** The world once the graph is built. *)
Definition ready : world :=
  {| inbox := {| ws_frames := []; ws_end := None |};
     trace := [Defer; Download "https://cdn.example/wide.png";
               OpenFile "florance_api.json";
               LogInfo ("Sending prompt to server: " ++ Scenario.dumps graph)] |}.

End Florence.

(** Backends that fail in one place. *)
Module Faults.

(** The submission is refused. *)
Definition refusing (net : outside) : outside :=
  {| urlopen_post := fun _ _ => Err URLError;
     urlopen_get := urlopen_get net;
     open_file := open_file net;
     ws_server := ws_server net;
     http_download := http_download net |}.

(** The image [filename] cannot be fetched. *)
Definition without_image (filename : string) (net : outside) : outside :=
  {| urlopen_post := urlopen_post net;
     urlopen_get := fun url =>
       if String.eqb url (Scenario.view filename) then Err URLError
       else urlopen_get net url;
     open_file := open_file net;
     ws_server := ws_server net;
     http_download := http_download net |}.

(** The connection pushes [frames] and then ends as [ending] says. *)
Definition streaming (frames : list frame) (ending : option exn)
  (net : outside) : outside :=
  {| urlopen_post := urlopen_post net;
     urlopen_get := urlopen_get net;
     open_file := open_file net;
     ws_server := fun _ => Ok {| ws_frames := frames; ws_end := ending |};
     http_download := http_download net |}.

(** The WebSocket endpoint refuses the connection. *)
Definition unreachable (net : outside) : outside :=
  {| urlopen_post := urlopen_post net;
     urlopen_get := urlopen_get net;
     open_file := open_file net;
     ws_server := fun _ => Err ConnectionResetError;
     http_download := http_download net |}.

(** No template file can be opened. *)
Definition without_files (net : outside) : outside :=
  {| urlopen_post := urlopen_post net;
     urlopen_get := urlopen_get net;
     open_file := fun _ => Err FileNotFoundError;
     ws_server := ws_server net;
     http_download := http_download net |}.

(** PIL cannot identify the image whose bytes spell [bad]. *)
Definition picky (bad : string) (py : pylib) : pylib :=
  {| json_dumps := json_dumps py;
     json_loads := json_loads py;
     json_loads_bytes := json_loads_bytes py;
     str_encode := str_encode py;
     str_of := str_of py;
     urlencode := urlencode py;
     b64encode := b64encode py;
     bytes_repr := bytes_repr py;
     Image_open := fun data =>
       if String.eqb (string_of_list_byte data) bad
       then Err UnidentifiedImageError
       else Image_open py data |}.

End Faults.

(** A text service that gives one reply to every request. *)
Module Chat.

Definition describe (kind : Ollama.failure) : string :=
  match kind with
  | Ollama.ConnectionError => "connection refused"
  | Ollama.Timeout => "timed out"
  | Ollama.HTTPError _ => "bad status"
  | Ollama.RequestsJSONDecodeError => "not JSON"
  end.

Definition requests (r : Ollama.reply) : Ollama.requests_lib :=
  {| Ollama.requests_post := fun _ _ => r;
     Ollama.str_of_failure := describe |}.

Definition said (text : string) : json :=
  JObj [("model", JStr "gemma2:27b");
        ("message", JObj [("role", JStr "assistant");
                          ("content", JStr text)]);
        ("done", JBool true)].

Definition ok (body : json) : Ollama.reply :=
  Ollama.Answers {| Ollama.status_code := 200; Ollama.decoded := Some body |}.

End Chat.

(* ================================================================= *)
(** ** Theorems: the receive loop *)

Section ReceiveLoop.

Variable py : pylib.
Variable prompt_id : json.

Local Abbreviation decoy := (decoy py prompt_id).
Local Abbreviation terminating := (terminating py prompt_id).

Lemma py_eq_str_true v s : py_eq v (JStr s) = true -> v = JStr s.
Proof.
  destruct v as [| b | n | x | t | l | d]; simpl; try discriminate.
  intros H. apply String.eqb_eq in H. now subst.
Qed.

Lemma py_eq_str_refl s : py_eq (JStr s) (JStr s) = true.
Proof. simpl. apply String.eqb_refl. Qed.

Lemma is_None_false v : v <> JNull -> is_None v = false.
Proof. destruct v; simpl; congruence. Qed.

Lemma is_None_true v : is_None v = true -> v = JNull.
Proof. destruct v; simpl; congruence. Qed.

Lemma on_frame_decoy f : decoy f -> on_frame py prompt_id f = Ok Continue.
Proof.
  intros H. destruct H as [b | s m ty Hl Ht Hne | s m d n Hl Ht Hd Hn Hnn
                           | s m d p Hl Ht Hd Hn Hp Hne]; simpl; trivial;
    unfold loads; rewrite Hl; simpl; rewrite Ht; simpl.
  - now rewrite Hne.
  - rewrite Hd. simpl. rewrite Hn. simpl.
    now rewrite (is_None_false Hnn).
  - rewrite Hd. simpl. rewrite Hn. simpl. rewrite Hp. simpl.
    now rewrite Hne.
Qed.

Lemma on_frame_terminating f :
  terminating f -> on_frame py prompt_id f = Ok Break.
Proof.
  intros [s m d p Hl Ht Hd Hn Hp He]. simpl.
  unfold loads. rewrite Hl. simpl. rewrite Ht. simpl.
  rewrite Hd. simpl. rewrite Hn. simpl. rewrite Hp. simpl.
  now rewrite He.
Qed.

(** Conversely, whatever the loop skips is a decoy and whatever stops it
    is the terminating frame. *)
Lemma on_frame_inv f ctl :
  on_frame py prompt_id f = Ok ctl ->
  match ctl with
  | Continue => decoy f
  | Break => terminating f
  end.
Proof.
  destruct f as [s | b]; simpl.
  2:{ intros H. injection H as <-. constructor. }
  unfold loads. destruct (json_loads py s) as [m |] eqn:Hl; simpl; [| discriminate].
  destruct (getitem m "type") as [ty | e] eqn:Ht; simpl; [| discriminate].
  destruct (py_eq ty (JStr "executing")) eqn:Hty.
  2:{ intros H. injection H as <-. eapply decoy_other_type; eauto. }
  apply py_eq_str_true in Hty. subst ty.
  destruct (getitem m "data") as [d | e] eqn:Hd; simpl; [| discriminate].
  destruct (getitem d "node") as [n | e] eqn:Hn; simpl; [| discriminate].
  destruct (is_None n) eqn:Hnone.
  2:{ intros H. injection H as <-. eapply decoy_node; eauto.
      intros ->. discriminate. }
  apply is_None_true in Hnone. subst n.
  destruct (getitem d "prompt_id") as [p | e] eqn:Hp; simpl; [| discriminate].
  destruct (py_eq p prompt_id) eqn:Hpid; intros H; injection H as <-.
  - eapply terminating_intro; eauto.
  - eapply decoy_other_job; eauto.
Qed.

(** The loop over an inbox that starts with decoys. *)
Lemma while_recv_decoys decoys : forall fuel w rest,
  Forall decoy decoys ->
  ws_frames (inbox w) = (decoys ++ rest)%list ->
  while_recv py (List.length decoys + fuel) prompt_id w =
  while_recv py fuel prompt_id (received w decoys rest).
Proof.
  induction decoys as [| f decoys IH]; intros fuel w rest Hall Hw.
  - simpl in *. unfold received. simpl. rewrite app_nil_r.
    destruct w as [[fs e] tr]. simpl in *. now subst.
  - inversion Hall as [| ? ? Hf Hrest]; subst.
    simpl. unfold bind at 1. unfold ws_recv at 1. rewrite Hw. simpl.
    unfold bind at 1. rewrite (on_frame_decoy Hf). simpl.
    rewrite IH with (rest := rest); trivial.
    unfold received. simpl. now rewrite <- app_assoc.
Qed.

Lemma while_recv_terminating fuel w t rest :
  terminating t ->
  ws_frames (inbox w) = t :: rest ->
  while_recv py (S fuel) prompt_id w = (Ret tt, received w [t] rest).
Proof.
  intros Ht Hw. simpl. unfold bind at 1. unfold ws_recv at 1. rewrite Hw.
  unfold bind at 1. now rewrite (on_frame_terminating Ht).
Qed.

Lemma while_recv_silent fuel w :
  ws_frames (inbox w) = [] ->
  while_recv py fuel prompt_id w =
  (match fuel, ws_end (inbox w) with
   | S _, Some e => Raise e
   | _, _ => Hang
   end, w).
Proof.
  intros Hw. destruct fuel; simpl; trivial.
  unfold bind, ws_recv. rewrite Hw. now destruct (ws_end (inbox w)).
Qed.

(** A normal return of the loop: the inbox started with decoys and the
    terminating frame. *)
Lemma while_recv_Ret fuel : forall w w',
  while_recv py fuel prompt_id w = (Ret tt, w') ->
  exists decoys t,
    Forall decoy decoys /\ terminating t /\
    ws_frames (inbox w) = (decoys ++ t :: ws_frames (inbox w'))%list /\
    w' = received w (decoys ++ [t]) (ws_frames (inbox w')).
Proof.
  induction fuel as [| fuel IH]; intros w w' H; simpl in H; [discriminate |].
  unfold bind at 1 in H. unfold ws_recv at 1 in H.
  destruct (ws_frames (inbox w)) as [| f fs] eqn:Hw.
  { destruct (ws_end (inbox w)); discriminate. }
  unfold bind at 1 in H.
  destruct (on_frame py prompt_id f) as [ctl | e] eqn:Hf; simpl in H;
    [| discriminate].
  apply on_frame_inv in Hf. destruct ctl.
  - injection H as <-. exists [], f. simpl. repeat split; trivial.
  - apply IH in H. destruct H as (decoys & t & Hall & Ht & Hfs & Hw').
    simpl in Hfs. exists (f :: decoys), t. repeat split; trivial.
    + now constructor.
    + simpl. now rewrite Hfs.
    + rewrite Hw'. unfold received. simpl. now rewrite <- app_assoc.
Qed.


Lemma await_completion_fuel w fuel :
  (List.length (ws_frames (inbox w)) < fuel)%nat ->
  while_recv py fuel prompt_id w = await_completion py prompt_id w.
Proof.
  unfold await_completion.
  remember (ws_frames (inbox w)) as fs eqn:Hfs.
  revert w fuel Hfs. induction fs as [| f fs IH]; intros w fuel Hfs Hlt.
  - rewrite !while_recv_silent by now symmetry.
    destruct fuel; [simpl in Hlt; lia | reflexivity].
  - destruct fuel as [| fuel]; [simpl in Hlt; lia |].
    cbn [List.length while_recv]. unfold bind at 1 3. unfold ws_recv at 1 2.
    rewrite <- Hfs. unfold bind at 1 2.
    destruct (on_frame py prompt_id f) as [[|] | e]; simpl; trivial.
    set (w1 := {| inbox := _; trace := _ |}).
    now rewrite (IH w1 fuel) by (trivial; simpl in Hlt; lia).
Qed.

(** C2. The receive loop of [get_images] ends exactly at the frame
    [{type: "executing", data: {node: null, prompt_id: <job id>}}]:
    with N decoys (binary frames, other types, a non-null node, another
    prompt_id) before it, it returns after consuming those N frames and
    the terminating one, leaving the rest unread; while only decoys have
    arrived it is still waiting, and no decoy, binary ones included,
    raises; and whenever it returns, the last frame it consumed was a
    terminating one and all before it were decoys. *)
Theorem await_completion_exact (w : world) (decoys rest : list frame)
  (t : frame) :
  ws_frames (inbox w) = (decoys ++ t :: rest)%list ->
  Forall decoy decoys ->
  terminating t ->
  await_completion py prompt_id w = (Ret tt, received w (decoys ++ [t]) rest)
  /\ (forall k, (k <= List.length decoys)%nat ->
       await_completion py prompt_id (arrived w (firstn k decoys)) =
       (Hang, received (arrived w (firstn k decoys)) (firstn k decoys) []))
  /\ (forall w0 w',
       await_completion py prompt_id w0 = (Ret tt, w') ->
       exists consumed last,
         Forall decoy consumed /\ terminating last /\
         ws_frames (inbox w0) = (consumed ++ last :: ws_frames (inbox w'))%list /\
         w' = received w0 (consumed ++ [last]) (ws_frames (inbox w'))).
Proof.
  intros Hw Hall Ht. split; [| split].
  - rewrite <- (await_completion_fuel w (fuel := List.length decoys + S (S (List.length rest)))).
    2:{ rewrite Hw, length_app. simpl. lia. }
    rewrite while_recv_decoys with (rest := t :: rest); trivial.
    rewrite while_recv_terminating with (t := t) (rest := rest); trivial.
    unfold received. simpl. now rewrite <- app_assoc, map_app.
  - intros k Hk.
    assert (Hpre : Forall decoy (firstn k decoys)).
    { rewrite <- (firstn_skipn k decoys) in Hall.
      now apply Forall_app in Hall. }
    set (w1 := arrived w (firstn k decoys)).
    rewrite <- (await_completion_fuel w1 (fuel := List.length (firstn k decoys) + 1)).
    2:{ simpl. lia. }
    rewrite while_recv_decoys with (rest := @nil frame); trivial.
    simpl. now rewrite app_nil_r.
  - intros w0 w' H. now apply while_recv_Ret in H.
Qed.

(** When the connection is lost after frames that are all decoys, the
    loop raises the connection's error once it has consumed them. *)
Theorem await_completion_connection_lost (w : world) (decoys : list frame)
  (e : exn) :
  ws_frames (inbox w) = decoys ->
  Forall decoy decoys ->
  ws_end (inbox w) = Some e ->
  await_completion py prompt_id w = (Raise e, received w decoys []).
Proof.
  intros Hw Hall He.
  rewrite <- (await_completion_fuel w (fuel := List.length decoys + 1)).
  2:{ rewrite Hw. lia. }
  rewrite while_recv_decoys with (rest := @nil frame); trivial.
  2:{ now rewrite app_nil_r. }
  rewrite while_recv_silent by reflexivity.
  simpl. now rewrite He.
Qed.

Lemma await_completion_returns (w : world) (decoys rest : list frame)
  (t : frame) :
  ws_frames (inbox w) = (decoys ++ t :: rest)%list ->
  Forall decoy decoys ->
  terminating t ->
  await_completion py prompt_id w = (Ret tt, received w (decoys ++ [t]) rest).
Proof.
  intros Hw Hall Ht.
  rewrite <- (await_completion_fuel w
                (fuel := List.length decoys + S (S (List.length rest)))).
  2:{ rewrite Hw, length_app. simpl. lia. }
  rewrite while_recv_decoys with (rest := t :: rest); trivial.
  rewrite while_recv_terminating with (t := t) (rest := rest); trivial.
  unfold received. simpl. now rewrite <- app_assoc, map_app.
Qed.

Lemma await_completion_no_end (w : world) (decoys : list frame) :
  ws_frames (inbox w) = decoys ->
  Forall decoy decoys ->
  await_completion py prompt_id w =
  (match ws_end (inbox w) with
   | Some e => Raise e
   | None => Hang
   end, received w decoys []).
Proof.
  intros Hw Hall.
  rewrite <- (await_completion_fuel w (fuel := List.length decoys + 1)).
  2:{ rewrite Hw. lia. }
  rewrite while_recv_decoys with (rest := @nil frame); trivial.
  2:{ now rewrite app_nil_r. }
  rewrite while_recv_silent by reflexivity. reflexivity.
Qed.

Lemma on_frame_malformed f e :
  malformed py f e -> on_frame py prompt_id f = Err e.
Proof.
  intros [s Hl | s items Hl | s fields Hl Ht | s fields Hl Ht Hd]; simpl;
    unfold loads; rewrite Hl; simpl; trivial.
  - unfold getitem. simpl. now rewrite Ht.
  - unfold getitem at 1. simpl. rewrite Ht. simpl.
    unfold getitem. simpl. now rewrite Hd.
Qed.

(** A text frame the loop cannot read ends the wait with an exception,
    once the decoys before it are consumed: text that is not JSON, a
    JSON array, a message without ['type'], an ['executing'] message
    without ['data'].  The frames after it stay unread. *)
Theorem await_completion_bad_frame (w : world) (decoys rest : list frame)
  (bad : frame) (e : exn) :
  ws_frames (inbox w) = (decoys ++ bad :: rest)%list ->
  Forall decoy decoys ->
  malformed py bad e ->
  await_completion py prompt_id w =
  (Raise e, received w (decoys ++ [bad]) rest).
Proof.
  intros Hw Hall Hbad.
  rewrite <- (await_completion_fuel w
                (fuel := List.length decoys + S (S (List.length rest)))).
  2:{ rewrite Hw, length_app. simpl. lia. }
  rewrite while_recv_decoys with (rest := bad :: rest); trivial.
  simpl. unfold bind at 1. unfold ws_recv at 1. simpl.
  unfold bind at 1. rewrite (on_frame_malformed Hbad). simpl.
  unfold received. simpl. now rewrite <- app_assoc, map_app.
Qed.

End ReceiveLoop.

Lemma await_completion_bad_frame_witness :
  let w := arrived idle [BinaryFrame (Scenario.data "preview");
                         TextFrame "not json";
                         TextFrame (Scenario.dumps
                                      (Scenario.executing JNull (JStr "abc")))] in
  await_completion Scenario.py (JStr "abc") w =
  (Raise JSONDecodeError,
   received w [BinaryFrame (Scenario.data "preview"); TextFrame "not json"]
     [TextFrame (Scenario.dumps (Scenario.executing JNull (JStr "abc")))]).
Proof.
  apply (@await_completion_bad_frame Scenario.py (JStr "abc")
           (arrived idle [BinaryFrame (Scenario.data "preview");
                          TextFrame "not json";
                          TextFrame (Scenario.dumps
                                       (Scenario.executing JNull (JStr "abc")))])
           [BinaryFrame (Scenario.data "preview")]
           [TextFrame (Scenario.dumps (Scenario.executing JNull (JStr "abc")))]
           (TextFrame "not json") JSONDecodeError).
  - reflexivity.
  - repeat constructor.
  - apply malformed_text. reflexivity.
Defined.

Lemma await_completion_connection_lost_witness :
  let w := {| inbox := {| ws_frames := firstn 2 Scenario.frames;
                          ws_end := Some ConnectionResetError |};
              trace := [] |} in
  await_completion Scenario.py (JStr "abc") w =
  (Raise ConnectionResetError, received w (firstn 2 Scenario.frames) []).
Proof.
  apply (@await_completion_connection_lost Scenario.py (JStr "abc")
           {| inbox := {| ws_frames := firstn 2 Scenario.frames;
                          ws_end := Some ConnectionResetError |};
              trace := [] |}
           (firstn 2 Scenario.frames) ConnectionResetError).
  - reflexivity.
  - repeat constructor.
    eapply decoy_other_job; reflexivity.
  - reflexivity.
Defined.

(** The end-to-end scenario's stream: the end of job ["xyz"] and a binary
    preview are decoys, the end of job ["abc"] terminates. *)
Lemma await_completion_exact_witness :
  let w := arrived idle Scenario.frames in
  await_completion Scenario.py (JStr "abc") w =
    (Ret tt, received w Scenario.frames [])
  /\ (forall k, (k <= 2)%nat ->
       await_completion Scenario.py (JStr "abc")
         (arrived w (firstn k (firstn 2 Scenario.frames))) =
       (Hang, received (arrived w (firstn k (firstn 2 Scenario.frames)))
                (firstn k (firstn 2 Scenario.frames)) []))
  /\ (forall w0 w',
       await_completion Scenario.py (JStr "abc") w0 = (Ret tt, w') ->
       exists consumed last,
         Forall (decoy Scenario.py (JStr "abc")) consumed /\
         terminating Scenario.py (JStr "abc") last /\
         ws_frames (inbox w0) = (consumed ++ last :: ws_frames (inbox w'))%list /\
         w' = received w0 (consumed ++ [last]) (ws_frames (inbox w'))).
Proof.
  apply (@await_completion_exact Scenario.py (JStr "abc")
           (arrived idle Scenario.frames) (firstn 2 Scenario.frames) []
           (TextFrame (Scenario.dumps (Scenario.executing JNull (JStr "abc"))))).
  - reflexivity.
  - repeat constructor.
    eapply decoy_other_job; reflexivity.
  - eapply terminating_intro; reflexivity.
Defined.

(* ================================================================= *)
(** ** Theorems: submission and the history lookup *)

Section Requests.

Variable py : pylib.
Variable net : outside.
Variable client_id : string.

Lemma bind_ret_l {A B} (m : M A) (k : A -> M B) w a w' :
  m w = (Ret a, w') -> bind m k w = k a w'.
Proof. intros H. unfold bind. now rewrite H. Qed.

Lemma bind_raise_l {A B} (m : M A) (k : A -> M B) w e w' :
  m w = (Raise e, w') -> bind m k w = (Raise e, w').
Proof. intros H. unfold bind. now rewrite H. Qed.

Lemma bind_hang_l {A B} (m : M A) (k : A -> M B) w w' :
  m w = (Hang, w') -> bind m k w = (Hang, w').
Proof. intros H. unfold bind. now rewrite H. Qed.

Lemma queue_prompt_trace prompt w :
  trace (snd (queue_prompt py net client_id prompt w)) =
  (trace w ++ [HttpPost prompt_url (submission_body py client_id prompt)])%list.
Proof.
  unfold queue_prompt, bind, http_post, effect, submission_body.
  destruct (urlopen_post net _ _) as [body | e]; simpl; trivial.
  now destruct (loads_bytes py body).
Qed.

Lemma submit_trace prompt w :
  trace (snd (submit py net client_id prompt w)) =
  (trace w ++ [HttpPost prompt_url (submission_body py client_id prompt)])%list.
Proof.
  unfold submit, bind.
  pose proof (queue_prompt_trace prompt w) as H.
  destruct (queue_prompt py net client_id prompt w) as [[response | e |] w1];
    simpl in *; trivial.
  now destruct (getitem response "prompt_id").
Qed.

(** C6. When the endpoint answers the submission of a job graph with a
    document whose [prompt_id] is [pid], [submit] returns exactly [pid];
    and in every case its one request is a POST to [/prompt] whose body
    is the serialization of [{prompt: graph, client_id: identifier}]. *)
Theorem submit_returns_prompt_id (prompt : json) (w : world) (body : bytes)
  (response pid : json) :
  urlopen_post net prompt_url (submission_body py client_id prompt) = Ok body ->
  json_loads_bytes py body = Some response ->
  getitem response "prompt_id" = Ok pid ->
  submit py net client_id prompt w =
    (Ret pid,
     emit (HttpPost prompt_url
             (str_encode py
                (json_dumps py
                   (JObj [("prompt", prompt); ("client_id", JStr client_id)]))))
          w)
  /\ forall prompt' w',
       trace (snd (submit py net client_id prompt' w')) =
       (trace w' ++
        [HttpPost prompt_url
           (str_encode py
              (json_dumps py
                 (JObj [("prompt", prompt');
                        ("client_id", JStr client_id)])))])%list.
Proof.
  intros Hpost Hloads Hpid. split.
  - unfold submit, queue_prompt, bind, http_post, effect.
    fold (submission_body py client_id prompt). rewrite Hpost. simpl.
    unfold loads_bytes. rewrite Hloads. simpl. now rewrite Hpid.
  - intros prompt' w'. apply submit_trace.
Qed.

(** C5, as the code has it.  When the history document is a mapping
    without the job id, the lookup [get_history(prompt_id)[prompt_id]]
    raises the built-in [KeyError] for that id; the only request made is
    the history one, so no image is fetched; and the command handlers
    answer a [KeyError] as they answer any other unexpected exception. *)
Theorem fetch_results_missing_job (job : string) (w : world) (body : bytes)
  (history : list (string * json)) :
  urlopen_get net (history_url py (JStr job)) = Ok body ->
  json_loads_bytes py body = Some (JObj history) ->
  dict_get history job = None ->
  fetch_results py net (JStr job) w =
    (Raise (KeyError (JStr job)),
     emit (HttpGet (history_url py (JStr job))) w)
  /\ forall w',
       report (KeyError (JStr job)) w' =
       (Ret tt,
        emit (CtxSend sorry_unexpected)
          (emit (LogError (KeyError (JStr job))) w')).
Proof.
  intros Hget Hloads Hmiss. split.
  - unfold fetch_results, get_history, bind, http_get, effect.
    rewrite Hget. simpl. unfold loads_bytes. rewrite Hloads. simpl.
    now rewrite Hmiss.
  - reflexivity.
Qed.

End Requests.

Lemma submit_returns_prompt_id_witness :
  submit Scenario.py (Scenario.net Scenario.history_one) Scenario.identifier
    Scenario.flux_template idle =
    (Ret (JStr "abc"),
     emit (HttpPost prompt_url
             (str_encode Scenario.py
                (json_dumps Scenario.py
                   (JObj [("prompt", Scenario.flux_template);
                          ("client_id", JStr Scenario.identifier)]))))
          idle)
  /\ forall prompt' w',
       trace (snd (submit Scenario.py (Scenario.net Scenario.history_one)
                     Scenario.identifier prompt' w')) =
       (trace w' ++
        [HttpPost prompt_url
           (str_encode Scenario.py
              (json_dumps Scenario.py
                 (JObj [("prompt", prompt');
                        ("client_id", JStr Scenario.identifier)])))])%list.
Proof.
  apply (@submit_returns_prompt_id Scenario.py
           (Scenario.net Scenario.history_one) Scenario.identifier
           Scenario.flux_template idle (Scenario.encode Scenario.submitted)
           Scenario.submitted (JStr "abc")); reflexivity.
Defined.

Lemma fetch_results_missing_job_witness :
  fetch_results Scenario.py (Scenario.net Scenario.history_none) (JStr "abc")
    idle =
    (Raise (KeyError (JStr "abc")),
     emit (HttpGet (history_url Scenario.py (JStr "abc"))) idle)
  /\ forall w',
       report (KeyError (JStr "abc")) w' =
       (Ret tt,
        emit (CtxSend sorry_unexpected)
          (emit (LogError (KeyError (JStr "abc"))) w')).
Proof.
  apply (@fetch_results_missing_job Scenario.py
           (Scenario.net Scenario.history_none) "abc" idle
           (Scenario.encode Scenario.history_none) []); reflexivity.
Defined.

(** C5 as stated fails: for a history without the job, the step does not
    fail with [HistoryNotFoundError]. *)
Lemma fetch_results_not_HistoryNotFoundError :
  fst (run (fetch_results Scenario.py (Scenario.net Scenario.history_none)
              (JStr "abc")))
  <> Raise HistoryNotFoundError.
Proof. vm_compute. discriminate. Qed.

(** C1 at its failing inputs.  With node ["9"] holding two images and
    node ["12"] no ['images'] entry, the result has both keys, node
    ["12"] mapped to the images of node ["9"]; with the two nodes in the
    other order the walk raises [UnboundLocalError]. *)
Lemma fetch_results_node_without_images :
  fst (run (fetch_results Scenario.py (Scenario.net Scenario.history_two)
              (JStr "abc")))
  = Ret [(JStr "9", [Scenario.data "A"; Scenario.data "B"]);
         (JStr "12", [Scenario.data "A"; Scenario.data "B"])]
  /\ fst (run (fetch_results Scenario.py
                 (Scenario.net Scenario.history_two_swapped) (JStr "abc")))
     = Raise (UnboundLocalError "images_output").
Proof. split; reflexivity. Qed.

(* ================================================================= *)
(** ** Theorems: the walk over the history record *)

(** *** Dictionaries whose keys compare by identity *)

Section AssocFacts.

Variables (K V : Type) (keq : K -> K -> bool) (good : K -> Prop).
Hypothesis keq_spec :
  forall a b, good a -> good b -> (keq a b = true <-> a = b).

Local Abbreviation get := (assoc_get (V := V) keq).
Local Abbreviation set := (assoc_set (V := V) keq).
Local Abbreviation keys := (assoc_keys (K := K) (V := V)).
Local Abbreviation assign := (assign (V := V) keq).
Local Abbreviation last_assigned := (last_assigned (V := V) keq).

Lemma keq_refl a : good a -> keq a a = true.
Proof. intros Ha. now apply keq_spec. Qed.

Lemma get_set m k v k' :
  Forall good (keys m) -> good k -> good k' ->
  get (set m k v) k' = if keq k k' then Some v else get m k'.
Proof.
  intros Hm Hk Hk'. induction m as [| [k0 v0] m IH]; simpl.
  - reflexivity.
  - inversion Hm as [| ? ? Hk0 Hm']; subst.
    destruct (keq k0 k) eqn:E0; simpl.
    + apply keq_spec in E0; trivial. subst k0.
      now destruct (keq k k').
    + destruct (keq k0 k') eqn:E1.
      * apply keq_spec in E1; trivial. subst k0.
        destruct (keq k k') eqn:E2; trivial.
        apply keq_spec in E2; trivial. subst k.
        rewrite keq_refl in E0; trivial. discriminate.
      * now apply IH.
Qed.

Lemma get_None_not_In m k :
  Forall good (keys m) -> good k -> get m k = None -> ~ In k (keys m).
Proof.
  intros Hm Hk. induction m as [| [k0 v0] m IH]; simpl; [tauto |].
  inversion Hm as [| ? ? Hk0 Hm']; subst.
  destruct (keq k0 k) eqn:E; [discriminate |].
  intros Hget [-> | Hin].
  - rewrite keq_refl in E; trivial. discriminate.
  - now apply IH.
Qed.

Lemma keys_set m k v :
  keys (set m k v) =
  match get m k with
  | Some _ => keys m
  | None => (keys m ++ [k])%list
  end.
Proof.
  unfold assoc_keys. induction m as [| [k0 v0] m IH]; simpl; trivial.
  destruct (keq k0 k); simpl; trivial.
  rewrite IH. now destruct (get m k).
Qed.

Lemma good_keys_set m k v :
  Forall good (keys m) -> good k -> Forall good (keys (set m k v)).
Proof.
  intros Hm Hk. rewrite keys_set. destruct (get m k); trivial.
  apply Forall_app. split; trivial. now constructor.
Qed.

Lemma NoDup_keys_set m k v :
  Forall good (keys m) -> good k ->
  NoDup (keys m) -> NoDup (keys (set m k v)).
Proof.
  intros Hm Hk Hnd. rewrite keys_set.
  destruct (get m k) eqn:E; trivial.
  apply NoDup_app; trivial.
  - repeat constructor. simpl. tauto.
  - intros x Hx [<- | []]. revert Hx. now apply get_None_not_In.
Qed.

(** Two dictionaries with the same keys in the same order and the same
    values are equal. *)
Lemma assoc_ext m : forall m',
  Forall good (keys m) -> NoDup (keys m) ->
  keys m = keys m' ->
  (forall k, In k (keys m) -> get m k = get m' k) ->
  m = m'.
Proof.
  induction m as [| [k0 v0] m IH]; intros [| [k1 v1] m'] Hg Hnd Hkeys Hget;
    simpl in *; try discriminate; trivial.
  injection Hkeys as -> Hkeys.
  inversion Hg as [| ? ? Hk1 Hg']; subst.
  inversion Hnd as [| ? ? Hnotin Hnd']; subst.
  pose proof (Hget k1 (or_introl eq_refl)) as H1.
  rewrite keq_refl in H1; trivial. injection H1 as ->.
  f_equal. apply IH; trivial.
  intros k Hk. pose proof (Hget k (or_intror Hk)) as H2.
  destruct (keq k1 k) eqn:E; trivial.
  apply keq_spec in E; trivial.
  - subst k. contradiction.
  - forall_in.
Qed.

Lemma get_assign a : forall m k,
  Forall good (keys m) -> Forall good (keys a) -> good k ->
  get (assign a m) k = last_assigned a k (get m k).
Proof.
  induction a as [| [k0 v0] a IH]; intros m k Hm Ha Hk; simpl; trivial.
  inversion Ha as [| ? ? Hk0 Ha']; subst.
  rewrite IH; trivial.
  - now rewrite get_set.
  - now apply good_keys_set.
Qed.

Lemma last_assigned_cases a k :
  (forall before, last_assigned a k before = before) \/
  (exists v, forall before, last_assigned a k before = Some v).
Proof.
  induction a as [| [k0 v0] a IH]; simpl.
  - now left.
  - destruct (keq k0 k).
    + right. destruct IH as [IH | [v IH]].
      * exists v0. intros _. apply IH.
      * exists v. intros _. apply IH.
    + destruct IH as [IH | [v IH]]; [left | right; exists v];
        intros before; apply IH.
Qed.

Lemma last_assigned_In a k :
  Forall good (keys a) -> good k -> In k (keys a) ->
  exists v, forall before, last_assigned a k before = Some v.
Proof.
  intros Ha Hk. induction a as [| [k0 v0] a IH]; simpl; [tauto |].
  inversion Ha as [| ? ? Hk0 Ha']; subst. intros Hin.
  destruct (keq k0 k) eqn:E.
  - destruct (last_assigned_cases a k) as [H | [v H]].
    + exists v0. intros _. apply H.
    + exists v. intros _. apply H.
  - destruct Hin as [-> | Hin].
    + rewrite keq_refl in E; trivial. discriminate.
    + destruct (IH Ha' Hin) as [v H]. exists v. intros before. apply H.
Qed.

Lemma good_keys_assign a : forall m,
  Forall good (keys a) -> Forall good (keys m) ->
  Forall good (keys (assign a m)).
Proof.
  induction a as [| [k0 v0] a IH]; intros m Ha Hm; simpl; trivial.
  inversion Ha; subst. apply IH; trivial. now apply good_keys_set.
Qed.

Lemma NoDup_keys_assign a : forall m,
  Forall good (keys a) -> Forall good (keys m) ->
  NoDup (keys m) -> NoDup (keys (assign a m)).
Proof.
  induction a as [| [k0 v0] a IH]; intros m Ha Hm Hnd; simpl; trivial.
  inversion Ha; subst. apply IH; trivial.
  - now apply good_keys_set.
  - now apply NoDup_keys_set.
Qed.

Lemma keys_assign_present a : forall m,
  Forall good (keys a) -> Forall good (keys m) ->
  (forall k, In k (keys a) -> get m k <> None) ->
  keys (assign a m) = keys m.
Proof.
  induction a as [| [k0 v0] a IH]; intros m Ha Hm Hpres; simpl; trivial.
  inversion Ha as [| ? ? Hk0 Ha']; subst.
  rewrite IH; trivial.
  - rewrite keys_set. destruct (get m k0) eqn:E; trivial.
    exfalso. apply (Hpres k0); simpl; auto.
  - now apply good_keys_set.
  - intros k Hk. rewrite get_set; trivial.
    + destruct (keq k0 k); [discriminate |]. apply Hpres. simpl. auto.
    + forall_in.
Qed.

(** Running the same assignments a second time changes nothing. *)
Lemma assign_idem a m :
  Forall good (keys a) -> Forall good (keys m) -> NoDup (keys m) ->
  assign a (assign a m) = assign a m.
Proof.
  intros Ha Hm Hnd.
  assert (Hg1 : Forall good (keys (assign a m))) by now apply good_keys_assign.
  assert (Hkeys : keys (assign a (assign a m)) = keys (assign a m)).
  { apply keys_assign_present; trivial.
    intros k Hk. rewrite get_assign; trivial.
    - destruct (@last_assigned_In a k) as [v Hv]; trivial.
      + forall_in.
      + rewrite Hv. discriminate.
    - forall_in. }
  apply assoc_ext; trivial.
  - now apply good_keys_assign.
  - apply NoDup_keys_assign; trivial. now apply NoDup_keys_assign.
  - intros k Hk. rewrite Hkeys in Hk.
    assert (Hgk : good k) by forall_in.
    rewrite !get_assign; trivial.
    destruct (last_assigned_cases a k) as [H | [v H]]; now rewrite !H.
Qed.

Lemma not_In_get_None m k :
  Forall good (keys m) -> good k -> ~ In k (keys m) -> get m k = None.
Proof.
  intros Hm Hk. induction m as [| [k0 v0] m IH]; simpl; intros Hn; trivial.
  inversion Hm as [| ? ? Hg0 Hm']; subst.
  destruct (keq k0 k) eqn:E.
  - exfalso. apply Hn. left. now apply keq_spec.
  - apply IH; trivial. intros Hin. apply Hn. now right.
Qed.

Lemma set_fresh m k v : get m k = None -> set m k v = (m ++ [(k, v)])%list.
Proof.
  induction m as [| [k0 v0] m IH]; simpl; trivial.
  destruct (keq k0 k); [discriminate |]. intros H. now rewrite IH.
Qed.

(** Assignments under new, distinct keys append, in their order. *)
Lemma assign_fresh a : forall m,
  Forall good (keys m) -> Forall good (keys a) ->
  NoDup (keys m ++ keys a) -> assign a m = (m ++ a)%list.
Proof.
  induction a as [| [k v] a IH]; intros m Hm Ha Hnd; simpl.
  - now rewrite app_nil_r.
  - inversion Ha as [| ? ? Hk Ha']; subst. simpl in Hnd.
    assert (Hfresh : get m k = None).
    { apply not_In_get_None; trivial. intros Hin.
      apply NoDup_remove_2 in Hnd. apply Hnd. apply in_or_app. now left. }
    rewrite set_fresh by trivial.
    rewrite IH; trivial.
    + now rewrite <- app_assoc.
    + unfold assoc_keys. rewrite map_app. apply Forall_app. split; trivial.
      simpl. now constructor.
    + unfold assoc_keys in *. rewrite map_app. simpl.
      rewrite <- app_assoc. exact Hnd.
Qed.

End AssocFacts.

(** *** Results that do not depend on the world *)

Section Walk.

Variable py : pylib.
Variable net : outside.

Lemma oblivious_ret {A} (a : A) : oblivious (ret a).
Proof. intros w1 w2. reflexivity. Qed.

Lemma oblivious_lift {A} (r : result A) : oblivious (lift r).
Proof. intros w1 w2. now destruct r. Qed.

Lemma oblivious_effect {A} ev (r : result A) : oblivious (effect ev r).
Proof. intros w1 w2. unfold effect. now destruct r. Qed.

Lemma oblivious_bind {A B} (m : M A) (k : A -> M B) :
  oblivious m -> (forall a, oblivious (k a)) -> oblivious (bind m k).
Proof.
  intros Hm Hk w1 w2. unfold bind. specialize (Hm w1 w2).
  destruct (m w1) as [[a1 | e1 |] w1'], (m w2) as [[a2 | e2 |] w2'];
    simpl in Hm; try discriminate; try (injection Hm as ->); simpl; trivial.
  apply Hk.
Qed.

Lemma oblivious_for_each {A S} (body : A -> S -> M S) xs :
  (forall x st, oblivious (body x st)) ->
  forall st, oblivious (for_each xs body st).
Proof.
  intros Hbody. induction xs as [| x xs IH]; intros st; simpl.
  - apply oblivious_ret.
  - apply oblivious_bind; auto.
Qed.

(** The result of a sequence whose parts are oblivious. *)
Lemma fst_bind {A B} (m : M A) (k : A -> M B) w :
  (forall a, oblivious (k a)) ->
  fst (bind m k w) =
  match fst (m w) with
  | Ret a => fst (k a idle)
  | Raise e => Raise e
  | Hang => Hang
  end.
Proof.
  intros Hk. unfold bind. destruct (m w) as [[a | e |] w']; simpl; trivial.
  apply Hk.
Qed.

(** *** One visit, split in what it reads and what it assigns *)

Lemma visit_node_scan history node_id st w :
  visit_node py net history node_id st w =
  bind (scan py net history node_id)
    (fun found =>
       match kept found (images_output st) with
       | None => raise (UnboundLocalError "images_output")
       | Some fetched =>
           if hashable node_id then
             ret {| images_output := Some fetched;
                    output_images :=
                      assoc_set py_eq (output_images st) node_id fetched |}
           else raise TypeError
       end) w.
Proof.
  unfold visit_node, scan, bind, lift.
  destruct (getitem history "outputs") as [outputs | e]; simpl; trivial.
  destruct (py_getitem outputs node_id) as [node_output | e]; simpl; trivial.
  destruct (py_contains "images" node_output) as [[|] | e]; simpl; trivial.
  - destruct (fetch_images py net node_output w) as [[fetched | e |] w'];
      simpl; trivial.
  - now destruct (images_output st).
Qed.

Lemma oblivious_fetch_images node_output :
  oblivious (fetch_images py net node_output).
Proof.
  unfold fetch_images.
  apply oblivious_bind; [apply oblivious_lift | intros images].
  apply oblivious_bind; [apply oblivious_lift | intros items].
  apply oblivious_for_each. intros image acc.
  repeat (apply oblivious_bind; [apply oblivious_lift | intros ?]).
  apply oblivious_bind; [apply oblivious_effect | intros ?].
  apply oblivious_ret.
Qed.

Lemma oblivious_scan history node_id : oblivious (scan py net history node_id).
Proof.
  unfold scan.
  apply oblivious_bind; [apply oblivious_lift | intros outputs].
  apply oblivious_bind; [apply oblivious_lift | intros node_output].
  apply oblivious_bind; [apply oblivious_lift | intros has_images].
  destruct has_images.
  - apply oblivious_bind; [apply oblivious_fetch_images | intros fetched].
    apply oblivious_ret.
  - apply oblivious_ret.
Qed.

(** *** One pass as a run of assignments *)

Lemma for_each_visit history node_ids : forall st w,
  fst (for_each node_ids (visit_node py net history) st w) =
  outcome_map (after st)
    (assignments (look py net history) node_ids (images_output st)).
Proof.
  induction node_ids as [| n rest IH]; intros st w; simpl.
  - destruct st. reflexivity.
  - unfold bind at 1. rewrite visit_node_scan. unfold bind at 1.
    unfold look at 1. rewrite (oblivious_scan history n idle w).
    destruct (scan py net history n w) as [[found | e |] w1]; simpl; trivial.
    destruct (kept found (images_output st)) as [fetched |]; simpl; trivial.
    destruct (hashable n); simpl; trivial.
    rewrite IH. simpl.
    now destruct (assignments (look py net history) rest (Some fetched))
      as [[io2 a] | e |].
Qed.

Lemma assignments_restart f n rest r :
  assignments f (n :: rest) None = Ret r ->
  forall before, assignments f (n :: rest) before = Ret r.
Proof.
  simpl. destruct (f n) as [[fetched |] | e |]; simpl; try discriminate.
  auto.
Qed.

Lemma assignments_keys f node_ids : forall before r,
  assignments f node_ids before = Ret r ->
  assoc_keys (snd r) = node_ids.
Proof.
  induction node_ids as [| n rest IH]; intros before r; simpl.
  - intros H. now injection H as <-.
  - destruct (f n) as [found | e |]; try discriminate.
    destruct (kept found before) as [fetched |]; try discriminate.
    destruct (hashable n); try discriminate.
    destruct (assignments f rest (Some fetched)) as [r' | e |] eqn:E;
      simpl; try discriminate.
    intros H. injection H as <-. simpl. f_equal. now apply IH with (1 := E).
Qed.

Lemma assignments_scanned f node_ids : forall before r,
  assignments f node_ids before = Ret r ->
  forall n, In n node_ids -> exists found, f n = Ret found.
Proof.
  induction node_ids as [| n0 rest IH]; intros before r; simpl; [tauto |].
  destruct (f n0) as [found | e |] eqn:Ef; try discriminate.
  destruct (kept found before) as [fetched |]; try discriminate.
  destruct (hashable n0); try discriminate.
  destruct (assignments f rest (Some fetched)) as [r' | e |] eqn:E;
    simpl; try discriminate.
  intros _ n [<- | Hin]; eauto.
Qed.

Lemma py_eq_is_str a b :
  is_str a -> is_str b -> (py_eq a b = true <-> a = b).
Proof.
  intros [s ->] [t ->]. simpl. rewrite String.eqb_eq.
  split; [now intros -> | now intros [= ->]].
Qed.

(** A pass that succeeds from the initial locals succeeds again from the
    locals it produced, and produces them again. *)
Lemma pass_again f node_ids r :
  Forall is_str node_ids ->
  assignments f node_ids None = Ret r ->
  outcome_map (after (after no_locals r))
    (assignments f node_ids (images_output (after no_locals r))) =
  Ret (after no_locals r).
Proof.
  intros Hstr Hr. destruct node_ids as [| n rest].
  - simpl in Hr. injection Hr as <-. reflexivity.
  - rewrite (assignments_restart _ _ _ Hr). simpl.
    unfold after. simpl. f_equal. f_equal.
    apply assign_idem with (good := is_str).
    + apply py_eq_is_str.
    + fold (assoc_keys (snd r)). now rewrite (assignments_keys _ _ _ Hr).
    + constructor.
    + constructor.
Qed.

(** *** The shapes [history['outputs']] can have *)

Lemma look_Ret history n found :
  look py net history n = Ret found ->
  exists outputs node_output has_images,
    getitem history "outputs" = Ok outputs /\
    py_getitem outputs n = Ok node_output /\
    py_contains "images" node_output = Ok has_images.
Proof.
  unfold look, scan, bind, lift.
  destruct (getitem history "outputs") as [outputs | e] eqn:Ho; simpl;
    [| discriminate].
  destruct (py_getitem outputs n) as [node_output | e] eqn:Hn; simpl;
    [| discriminate].
  destruct (py_contains "images" node_output) as [has_images | e] eqn:Hc;
    simpl; [| discriminate].
  intros _. now exists outputs, node_output, has_images.
Qed.

Lemma getitem_array_index l k v :
  py_getitem (JArr l) k = Ok v -> (exists i, index_of k = Some i) /\ In v l.
Proof.
  simpl. destruct (index_of k) as [i |]; [| discriminate].
  destruct (seq_index _ i) as [n |]; [| discriminate].
  destruct (nth_error l n) as [x |] eqn:E; [| discriminate].
  intros H. injection H as <-. split; eauto using nth_error_In.
Qed.

Lemma contains_not_index name v b :
  py_contains name v = Ok b -> index_of v = None.
Proof. destruct v; simpl; trivial; discriminate. Qed.

(** No pass over a non-empty list succeeds: an element that can be used
    as an index leads to an element that cannot. *)
Lemma no_pass_over_array history l before r :
  getitem history "outputs" = Ok (JArr l) ->
  l <> [] ->
  assignments (look py net history) l before <> Ret r.
Proof.
  intros Hout Hne Hr.
  pose proof (assignments_scanned _ _ _ Hr) as Hall.
  destruct l as [| x l']; [congruence |].
  destruct (Hall x (or_introl eq_refl)) as [found Hx].
  apply look_Ret in Hx.
  destruct Hx as (outputs & y & b & Ho & Hy & Hb).
  rewrite Hout in Ho. injection Ho as <-.
  apply getitem_array_index in Hy. destruct Hy as [_ Hin].
  apply contains_not_index in Hb.
  destruct (Hall y Hin) as [found' Hy'].
  apply look_Ret in Hy'.
  destruct Hy' as (outputs' & z & b' & Ho' & Hz & _).
  rewrite Hout in Ho'. injection Ho' as <-.
  apply getitem_array_index in Hz. destruct Hz as [[i Hi] _].
  congruence.
Qed.

Lemma no_pass_over_str history s before r :
  getitem history "outputs" = Ok (JStr s) ->
  s <> "" ->
  assignments (look py net history) (chars s) before <> Ret r.
Proof.
  intros Hout Hne Hr.
  pose proof (assignments_scanned _ _ _ Hr) as Hall.
  destruct s as [| c s']; [congruence |].
  destruct (Hall (JStr (String c "")) (or_introl eq_refl)) as [found Hx].
  apply look_Ret in Hx.
  destruct Hx as (outputs & y & b & Ho & Hy & _).
  rewrite Hout in Ho. injection Ho as <-.
  simpl in Hy. discriminate.
Qed.

Lemma inner_loop_fst history outputs node_ids st w :
  getitem history "outputs" = Ok outputs ->
  py_iter outputs = Ok node_ids ->
  fst (inner_loop py net history st w) =
  outcome_map (after st)
    (assignments (look py net history) node_ids (images_output st)).
Proof.
  intros Ho Hi. unfold inner_loop, bind, lift. rewrite Ho. simpl.
  rewrite Hi. simpl. apply for_each_visit.
Qed.

Lemma repeat_inner history st (os : list json) :
  (forall w, fst (inner_loop py net history st w) = Ret st) ->
  forall w,
    fst (for_each os (fun _ st' => inner_loop py net history st') st w) =
    Ret st.
Proof.
  intros Hfix. induction os as [| o os IH]; intros w; simpl; trivial.
  unfold bind. specialize (Hfix w).
  destruct (inner_loop py net history st w) as [[st' | e |] w'];
    simpl in Hfix; try discriminate.
  injection Hfix as ->. apply IH.
Qed.

(** The nested loops end as one pass of the inner loop. *)
Lemma nested_as_inner (history : json) (w : world) :
  fst (nested_loop py net history no_locals w) =
  fst (inner_loop py net history no_locals w).
Proof.
  unfold nested_loop. unfold bind at 1. unfold lift at 1.
  destruct (getitem history "outputs") as [outputs | e] eqn:Ho.
  2:{ unfold inner_loop, bind, lift. now rewrite Ho. }
  simpl. unfold bind at 1. unfold lift at 1.
  destruct (py_iter outputs) as [node_ids | e] eqn:Hi.
  2:{ unfold inner_loop, bind, lift. rewrite Ho. simpl. now rewrite Hi. }
  simpl. destruct node_ids as [| n rest] eqn:Hids.
  { simpl. now rewrite (@inner_loop_fst history outputs _ no_locals w Ho Hi). }
  rewrite <- Hids in *. rewrite Hids at 1. simpl. unfold bind at 1.
  pose proof (@inner_loop_fst history outputs _ no_locals w Ho Hi) as Hinner.
  destruct (inner_loop py net history no_locals w) as [[st1 | e |] w1];
    simpl in *; trivial.
  destruct (assignments (look py net history) node_ids None) as [r | e |] eqn:Hr;
    simpl in Hinner; try discriminate.
  injection Hinner as ->.
  apply repeat_inner. intros w'.
  rewrite (@inner_loop_fst history outputs _ _ w' Ho Hi).
  apply pass_again; trivial.
  destruct outputs as [| | | | s | l | d]; simpl in Hi; try discriminate;
    injection Hi as Hi.
  - exfalso. apply (@no_pass_over_str history s None r); trivial.
    + intros ->. simpl in Hi. congruence.
    + now rewrite Hi.
  - exfalso. apply (@no_pass_over_array history l None r); trivial.
    + intros ->. congruence.
    + now rewrite Hi.
  - rewrite <- Hi. apply Forall_forall. intros x Hx.
    apply in_map_iff in Hx. destruct Hx as [kv [<- _]]. now eexists.
Qed.

(** *** When every node lists images *)

Lemma for_each_served descs datas :
  Forall2 (served py net) descs datas ->
  forall acc w,
    fst (for_each descs
           (fun image acc =>
              filename <- lift (getitem image "filename") ;;
              subfolder <- lift (getitem image "subfolder") ;;
              folder_type <- lift (getitem image "type") ;;
              image_data <- get_image py net filename subfolder folder_type ;;
              ret (acc ++ [image_data])%list)%M
           acc w) =
    Ret (acc ++ datas)%list.
Proof.
  induction 1 as [| desc data descs datas Hs _ IH]; intros acc w; simpl.
  - now rewrite app_nil_r.
  - destruct Hs as (f & sf & t & Hf & Hsf & Ht & Hget).
    unfold bind at 1. unfold bind at 1. rewrite Hf. simpl.
    unfold bind at 1. rewrite Hsf. simpl.
    unfold bind at 1. rewrite Ht. simpl.
    unfold bind at 1. unfold get_image, http_get, effect. rewrite Hget. simpl.
    rewrite IH. now rewrite <- app_assoc.
Qed.

Lemma fetch_images_served node_output descs datas :
  getitem node_output "images" = Ok (JArr descs) ->
  Forall2 (served py net) descs datas ->
  forall w, fst (fetch_images py net node_output w) = Ret datas.
Proof.
  intros Hi Hs w. unfold fetch_images. unfold bind at 1. rewrite Hi. simpl.
  unfold bind at 1. simpl.
  now rewrite (for_each_served Hs).
Qed.

Lemma look_served history nodes k out descs datas :
  getitem history "outputs" = Ok (JObj nodes) ->
  dict_get nodes k = Some out ->
  getitem out "images" = Ok (JArr descs) ->
  Forall2 (served py net) descs datas ->
  look py net history (JStr k) = Ret (Some datas).
Proof.
  intros Ho Hk Hi Hs. unfold look, scan.
  unfold bind at 1. rewrite Ho. simpl.
  unfold bind at 1. rewrite Hk. simpl.
  assert (Hc : py_contains "images" out = Ok true).
  { destruct out; try discriminate. unfold getitem in Hi. simpl in Hi.
    simpl. now destruct (dict_get fields "images"). }
  unfold bind at 1. rewrite Hc. simpl.
  unfold bind.
  pose proof (@fetch_images_served out descs datas Hi Hs idle) as Hf.
  destruct (fetch_images py net out idle) as [[fetched | e |] w']; simpl in Hf;
    try discriminate.
  now injection Hf as ->.
Qed.

Lemma dict_get_listed {V} (d : list (string * V)) k v :
  NoDup (map fst d) -> In (k, v) d -> dict_get d k = Some v.
Proof.
  unfold dict_get. induction d as [| [k0 v0] d IH]; simpl; intros Hnd Hin;
    [contradiction |].
  inversion Hnd as [| ? ? Hn Hnd']; subst.
  destruct Hin as [E | Hin].
  - injection E as -> ->. now rewrite String.eqb_refl.
  - destruct (String.eqb_spec k0 k) as [-> | _].
    + exfalso. apply Hn. apply in_map_iff. now exists (k, v).
    + now apply IH.
Qed.

Lemma assignments_served history nodes :
  getitem history "outputs" = Ok (JObj nodes) ->
  forall l images,
    all_with_images py net l images ->
    (forall node, In node l -> dict_get nodes (fst node) = Some (snd node)) ->
    forall before, exists last,
      assignments (look py net history) (map (fun kv => JStr (fst kv)) l)
        before =
      Ret (last, combine (map (fun kv => JStr (fst kv)) l) images).
Proof.
  intros Ho l images Hall.
  induction Hall as [| node datas l images (descs & Hi & Hs) _ IH];
    intros Hin before; simpl.
  - now exists before.
  - rewrite (@look_served history nodes (fst node) (snd node) descs datas);
      trivial.
    2:{ apply Hin. now left. }
    simpl.
    destruct (IH (fun n H => Hin n (or_intror H)) (Some datas)) as [last ->].
    simpl. now exists last.
Qed.

(** For a history record in which every node has an ['images'] list,
    the result-fetching step returns, for each node in the record's
    order, the bytes of its images in listed order. *)
Theorem fetch_results_all_images (job : string) (w : world) (body : bytes)
  (response history : json) (nodes : list (string * json))
  (images : list (list bytes)) :
  urlopen_get net (history_url py (JStr job)) = Ok body ->
  json_loads_bytes py body = Some response ->
  getitem response job = Ok history ->
  getitem history "outputs" = Ok (JObj nodes) ->
  NoDup (map fst nodes) ->
  all_with_images py net nodes images ->
  fst (fetch_results py net (JStr job) w) =
  Ret (combine (map (fun node => JStr (fst node)) nodes) images).
Proof.
  intros Hget Hloads Hjob Ho Hnd Hall.
  unfold fetch_results, get_history. unfold bind at 1. unfold bind at 1.
  unfold http_get, effect. rewrite Hget. simpl.
  unfold loads_bytes. rewrite Hloads. simpl.
  unfold bind at 1. unfold getitem in Hjob. rewrite Hjob. simpl.
  set (w1 := emit _ w).
  pose proof (nested_as_inner history w1) as Hn.
  rewrite (@inner_loop_fst history (JObj nodes) _ no_locals w1 Ho eq_refl)
    in Hn.
  assert (Hlisted : forall node,
            In node nodes -> dict_get nodes (fst node) = Some (snd node)).
  { intros [k v] H. now apply dict_get_listed. }
  destruct (@assignments_served history nodes Ho nodes images Hall Hlisted
              None) as [last Ha].
  simpl in Hn. rewrite Ha in Hn. simpl in Hn.
  unfold bind.
  destruct (nested_loop py net history no_locals w1) as [[st | e |] w2];
    simpl in Hn; try discriminate.
  injection Hn as ->. simpl.
  apply f_equal.
  rewrite assign_fresh with (good := is_str); simpl; trivial.
  - intros a b. apply py_eq_is_str.
  - apply Forall_forall. intros x Hx. unfold assoc_keys in Hx.
    apply in_map_iff in Hx. destruct Hx as [[k v] [<- Hx]].
    apply in_combine_l in Hx. apply in_map_iff in Hx.
    destruct Hx as [node [<- _]]. now eexists.
  - assert (E : map fst (combine (map (fun node => JStr (fst node)) nodes)
                           images) =
                map (fun node => JStr (fst node)) nodes).
    { clear - Hall. induction Hall; simpl; congruence. }
    unfold assoc_keys. rewrite E.
    rewrite <- (map_map fst JStr).
    apply NoDup_map_NoDup_ForallPairs; trivial.
    intros a b _ _ H. now injection H.
Qed.

(** *** The walk at every history *)

Lemma look_absent history nodes k fields :
  getitem history "outputs" = Ok (JObj nodes) ->
  dict_get nodes k = Some (JObj fields) ->
  dict_get fields "images" = None ->
  look py net history (JStr k) = Ret None.
Proof.
  intros Ho Hk Hi. unfold look, scan.
  unfold bind at 1. rewrite Ho. simpl.
  unfold bind at 1. rewrite Hk. simpl.
  unfold bind at 1. simpl. now rewrite Hi.
Qed.

Lemma look_found history nodes node found :
  getitem history "outputs" = Ok (JObj nodes) ->
  dict_get nodes (fst node) = Some (snd node) ->
  node_found py net node found ->
  look py net history (JStr (fst node)) = Ret found.
Proof.
  intros Ho Hk Hf. destruct found as [datas |]; simpl in Hf.
  - destruct Hf as (descs & Hi & Hs). now apply look_served with nodes (snd node) descs.
  - destruct Hf as (fields & E & Hi). rewrite E in Hk.
    now apply look_absent with nodes fields.
Qed.

Lemma assignments_found history nodes :
  getitem history "outputs" = Ok (JObj nodes) ->
  forall l found,
    Forall2 (node_found py net) l found ->
    (forall node, In node l -> dict_get nodes (fst node) = Some (snd node)) ->
    forall before,
      outcome_map snd
        (assignments (look py net history) (map (fun kv => JStr (fst kv)) l)
           before) =
      match carried_forward found before with
      | Some images => Ret (combine (map (fun kv => JStr (fst kv)) l) images)
      | None => Raise (UnboundLocalError "images_output")
      end.
Proof.
  intros Ho l found Hall.
  induction Hall as [| node f l found Hf _ IH]; intros Hin before; simpl;
    trivial.
  rewrite (@look_found history nodes node f Ho (Hin node (or_introl eq_refl)) Hf).
  destruct (kept f before) as [datas |]; simpl; trivial.
  specialize (IH (fun n H => Hin n (or_intror H)) (Some datas)).
  destruct (assignments (look py net history)
              (map (fun kv => JStr (fst kv)) l) (Some datas)) as [r | e |];
    simpl in *; destruct (carried_forward found (Some datas)); simpl;
    try discriminate; trivial.
  now injection IH as ->.
Qed.

Lemma assign_to_empty (r : list (json * list bytes)) :
  Forall is_str (assoc_keys r) -> NoDup (assoc_keys r) ->
  assign py_eq r [] = r.
Proof.
  intros Hs Hnd.
  rewrite assign_fresh with (good := is_str); simpl; trivial.
  intros a b. apply py_eq_is_str.
Qed.

(** The result-fetching step is one run of the assignments. *)
Lemma fetch_results_walk job w body response history nodes :
  urlopen_get net (history_url py (JStr job)) = Ok body ->
  json_loads_bytes py body = Some response ->
  getitem response job = Ok history ->
  getitem history "outputs" = Ok (JObj nodes) ->
  NoDup (map fst nodes) ->
  fst (fetch_results py net (JStr job) w) =
  outcome_map snd
    (assignments (look py net history) (map (fun kv => JStr (fst kv)) nodes)
       None).
Proof.
  intros Hget Hloads Hjob Ho Hnd.
  unfold fetch_results, get_history. unfold bind at 1. unfold bind at 1.
  unfold http_get, effect. rewrite Hget. simpl.
  unfold loads_bytes. rewrite Hloads. simpl.
  unfold bind at 1. unfold getitem in Hjob. rewrite Hjob. simpl.
  set (w1 := emit _ w).
  pose proof (nested_as_inner history w1) as Hn.
  rewrite (@inner_loop_fst history (JObj nodes) _ no_locals w1 Ho eq_refl)
    in Hn.
  simpl in Hn. unfold bind.
  destruct (assignments (look py net history)
              (map (fun kv => JStr (fst kv)) nodes) None) as [r | e |] eqn:Ha;
    simpl in Hn;
    destruct (nested_loop py net history no_locals w1) as [[st | e' |] w2];
    simpl in Hn; try discriminate; trivial.
  2:{ now injection Hn as ->. }
  injection Hn as ->. simpl. apply f_equal.
  pose proof (assignments_keys _ _ _ Ha) as Hk.
  apply assign_to_empty; rewrite Hk.
  - apply Forall_forall. intros x Hx. apply in_map_iff in Hx.
    destruct Hx as [kv [<- _]]. now eexists.
  - rewrite <- (map_map fst JStr).
    apply NoDup_map_NoDup_ForallPairs; trivial.
    intros a b _ _ H. now injection H.
Qed.

Lemma listed_nodes (nodes : list (string * json)) :
  NoDup (map fst nodes) ->
  forall node, In node nodes -> dict_get nodes (fst node) = Some (snd node).
Proof. intros Hnd [k v] H. now apply dict_get_listed. Qed.

(** What the result-fetching step returns at every history whose nodes
    either list images the backend serves or have no ['images'] entry:
    every node is a key of the result, mapped to its own images when it
    lists some and to the images of the nearest node before it
    otherwise; and when a node without images comes first, the step
    raises [UnboundLocalError]. *)
Theorem fetch_results_carries_forward (job : string) (w : world)
  (body : bytes) (response history : json) (nodes : list (string * json))
  (found : list (option (list bytes))) :
  urlopen_get net (history_url py (JStr job)) = Ok body ->
  json_loads_bytes py body = Some response ->
  getitem response job = Ok history ->
  getitem history "outputs" = Ok (JObj nodes) ->
  NoDup (map fst nodes) ->
  Forall2 (node_found py net) nodes found ->
  fst (fetch_results py net (JStr job) w) =
  match carried_forward found None with
  | Some images => Ret (combine (map (fun node => JStr (fst node)) nodes) images)
  | None => Raise (UnboundLocalError "images_output")
  end.
Proof.
  intros Hget Hloads Hjob Ho Hnd Hall.
  rewrite (@fetch_results_walk job w body response history nodes); trivial.
  apply assignments_found with nodes; trivial.
  now apply listed_nodes.
Qed.

Lemma fetch_results_listed job w body response history nodes images :
  urlopen_get net (history_url py (JStr job)) = Ok body ->
  json_loads_bytes py body = Some response ->
  getitem response job = Ok history ->
  getitem history "outputs" = Ok (JObj nodes) ->
  NoDup (map fst nodes) ->
  all_with_images py net nodes images ->
  fst (fetch_results py net (JStr job) w) =
  Ret (combine (map (fun node => JStr (fst node)) nodes) images).
Proof.
  intros Hget Hloads Hjob Ho Hnd Hall.
  rewrite (@fetch_results_walk job w body response history nodes); trivial.
  destruct (@assignments_served history nodes Ho nodes images Hall
              (@listed_nodes nodes Hnd) None) as [last ->].
  reflexivity.
Qed.

(** *** A fetch that fails *)

Lemma for_each_unserved ok datas bad e rest :
  Forall2 (served py net) ok datas ->
  unserved py net bad e ->
  forall acc w,
    fst (for_each (ok ++ bad :: rest)
           (fun image acc =>
              filename <- lift (getitem image "filename") ;;
              subfolder <- lift (getitem image "subfolder") ;;
              folder_type <- lift (getitem image "type") ;;
              image_data <- get_image py net filename subfolder folder_type ;;
              ret (acc ++ [image_data])%list)%M
           acc w) =
    Raise e.
Proof.
  intros Hok (f & sf & t & Hf & Hsf & Ht & Hget).
  induction Hok as [| desc data ok datas Hs _ IH]; intros acc w; simpl.
  - unfold bind at 1. unfold bind at 1. rewrite Hf. simpl.
    unfold bind at 1. rewrite Hsf. simpl.
    unfold bind at 1. rewrite Ht. simpl.
    unfold bind at 1. unfold get_image, http_get, effect.
    now rewrite Hget.
  - destruct Hs as (f' & sf' & t' & Hf' & Hsf' & Ht' & Hget').
    unfold bind at 1. unfold bind at 1. rewrite Hf'. simpl.
    unfold bind at 1. rewrite Hsf'. simpl.
    unfold bind at 1. rewrite Ht'. simpl.
    unfold bind at 1. unfold get_image, http_get, effect. rewrite Hget'.
    simpl. apply IH.
Qed.

Lemma look_unserved history nodes k out ok datas bad e rest :
  getitem history "outputs" = Ok (JObj nodes) ->
  dict_get nodes k = Some out ->
  getitem out "images" = Ok (JArr (ok ++ bad :: rest)) ->
  Forall2 (served py net) ok datas ->
  unserved py net bad e ->
  look py net history (JStr k) = Raise e.
Proof.
  intros Ho Hk Hi Hok Hbad. unfold look, scan.
  unfold bind at 1. rewrite Ho. simpl.
  unfold bind at 1. rewrite Hk. simpl.
  assert (Hc : py_contains "images" out = Ok true).
  { destruct out; try discriminate. unfold getitem in Hi. simpl in Hi.
    simpl. now destruct (dict_get fields "images"). }
  unfold bind at 1. rewrite Hc. simpl.
  unfold bind. unfold fetch_images. unfold bind at 1. rewrite Hi. simpl.
  unfold bind at 1. simpl.
  pose proof (@for_each_unserved ok datas bad e rest Hok Hbad [] idle) as Hf.
  match goal with
  | |- context [for_each ?l ?b ?a ?w] =>
      change (fst (for_each l b a w) = Raise e) in Hf;
      destruct (for_each l b a w) as [[fetched | e' |] w']
  end; simpl in Hf; try discriminate.
  now injection Hf as ->.
Qed.

Lemma assignments_raise f k e post : forall pre before r,
  assignments f pre before = Ret r ->
  f k = Raise e ->
  assignments f (pre ++ k :: post) before = Raise e.
Proof.
  induction pre as [| n pre IH]; intros before r Hr Hk; simpl.
  - now rewrite Hk.
  - simpl in Hr. destruct (f n) as [found | e' |]; try discriminate.
    destruct (kept found before) as [fetched |]; try discriminate.
    destruct (hashable n); try discriminate.
    destruct (assignments f pre (Some fetched)) as [r' | e' |] eqn:E;
      try discriminate.
    now rewrite (IH (Some fetched) r').
Qed.

(** No partial result: when the backend fails to serve one image of a
    node, the result-fetching step raises that failure, whatever was
    fetched for the nodes and the images before it. *)
Theorem fetch_results_image_fetch_fails (job : string) (w : world)
  (body : bytes) (response history : json)
  (pre post : list (string * json)) (node : string * json)
  (found : list (option (list bytes))) (images : list (list bytes))
  (ok rest : list json) (datas : list bytes) (bad : json) (e : exn) :
  urlopen_get net (history_url py (JStr job)) = Ok body ->
  json_loads_bytes py body = Some response ->
  getitem response job = Ok history ->
  getitem history "outputs" = Ok (JObj (pre ++ node :: post)) ->
  NoDup (map fst (pre ++ node :: post)) ->
  Forall2 (node_found py net) pre found ->
  carried_forward found None = Some images ->
  getitem (snd node) "images" = Ok (JArr (ok ++ bad :: rest)) ->
  Forall2 (served py net) ok datas ->
  unserved py net bad e ->
  fst (fetch_results py net (JStr job) w) = Raise e.
Proof.
  intros Hget Hloads Hjob Ho Hnd Hpre Hcarried Hi Hok Hbad.
  rewrite (@fetch_results_walk job w body response history
             (pre ++ node :: post)); trivial.
  pose proof (@listed_nodes (pre ++ node :: post) Hnd) as Hlisted.
  pose proof (@assignments_found history (pre ++ node :: post) Ho pre found
                Hpre
                (fun n H => Hlisted n (in_or_app pre (node :: post) n
                                         (or_introl H)))
                None) as Hp.
  rewrite Hcarried in Hp.
  destruct (assignments (look py net history)
              (map (fun kv => JStr (fst kv)) pre) None) as [r | e' |] eqn:Ha;
    simpl in Hp; try discriminate.
  rewrite map_app. simpl.
  erewrite assignments_raise; [reflexivity | exact Ha |].
  apply look_unserved
    with (nodes := (pre ++ node :: post)%list) (out := snd node) (ok := ok)
         (datas := datas) (bad := bad) (rest := rest); trivial.
  apply Hlisted. apply in_or_app. right. now left.
Qed.

End Walk.

(** *** The nested loops against a backend with memory *)

Lemma bind_ext {A B} (m1 m2 : M A) (k1 k2 : A -> M B) (w : world) :
  m1 w = m2 w ->
  (forall a w', k1 a w' = k2 a w') ->
  bind m1 k1 w = bind m2 k2 w.
Proof.
  intros Hm Hk. unfold bind. rewrite Hm.
  destruct (m2 w) as [[a | e |] w']; trivial.
Qed.

Lemma for_each_ext {A S} (body1 body2 : A -> S -> M S) (xs : list A) :
  (forall x st w, body1 x st w = body2 x st w) ->
  forall st w, for_each xs body1 st w = for_each xs body2 st w.
Proof.
  intros Hb. induction xs as [| x xs IH]; intros st w; simpl; trivial.
  apply bind_ext; [apply Hb | intros a w'; apply IH].
Qed.

Section SameGet.

Variable py : pylib.
Variables get1 get2 : string -> M bytes.
Hypothesis same : forall url w, get1 url w = get2 url w.

Lemma fetch_images_with_ext node_output w :
  fetch_images_with py get1 node_output w =
  fetch_images_with py get2 node_output w.
Proof.
  unfold fetch_images_with.
  apply bind_ext; trivial. intros images w1.
  apply bind_ext; trivial. intros items w2.
  apply for_each_ext. intros image acc w3.
  apply bind_ext; trivial. intros filename w4.
  apply bind_ext; trivial. intros subfolder w5.
  apply bind_ext; trivial. intros folder_type w6.
  apply bind_ext; trivial.
Qed.

Lemma visit_node_with_ext history node_id st w :
  visit_node_with py get1 history node_id st w =
  visit_node_with py get2 history node_id st w.
Proof.
  unfold visit_node_with.
  apply bind_ext; trivial. intros outputs w1.
  apply bind_ext; trivial. intros node_output w2.
  apply bind_ext; trivial. intros has_images w3.
  apply bind_ext; trivial.
  destruct has_images; trivial.
  apply bind_ext; trivial. apply fetch_images_with_ext.
Qed.

Lemma inner_loop_with_ext history st w :
  inner_loop_with py get1 history st w =
  inner_loop_with py get2 history st w.
Proof.
  unfold inner_loop_with.
  apply bind_ext; trivial. intros outputs w1.
  apply bind_ext; trivial. intros node_ids w2.
  apply for_each_ext. intros node_id st' w3. apply visit_node_with_ext.
Qed.

Lemma nested_loop_with_ext history st w :
  nested_loop_with py get1 history st w =
  nested_loop_with py get2 history st w.
Proof.
  unfold nested_loop_with.
  apply bind_ext; trivial. intros outputs w1.
  apply bind_ext; trivial. intros os w2.
  apply for_each_ext. intros o st' w3. apply inner_loop_with_ext.
Qed.

End SameGet.

(** Over the [GET] of a backend without memory the walk is the walk of
    the first part. *)
Lemma walk_with_http_get (py : pylib) (net : outside) (history : json)
  (st : locals) (w : world) :
  nested_loop_with py (http_get net) history st w =
    nested_loop py net history st w
  /\ inner_loop_with py (http_get net) history st w =
     inner_loop py net history st w.
Proof. split; reflexivity. Qed.

Lemma http_get_after_stable (answers : list event -> string -> result bytes) :
  stable answers ->
  forall url w, http_get_after answers url w = http_get (at_start answers) url w.
Proof.
  intros Hs url w. unfold http_get_after, http_get, effect. simpl.
  now rewrite (Hs (trace w) [] url).
Qed.

(** C7, as the code has it.  The nested loops of [get_images] run the
    inner loop once for every node, and every pass fetches every image
    again.  Against a backend that answers equal requests equally,
    whenever they are made, they end as a single pass of the inner loop
    does, for every history record: with the same [output_images] and
    [images_output], or with the same exception. *)
Theorem nested_loop_redundant_when_stable (py : pylib)
  (answers : list event -> string -> result bytes) (history : json)
  (w : world) :
  stable answers ->
  fst (nested_loop_with py (http_get_after answers) history no_locals w) =
  fst (inner_loop_with py (http_get_after answers) history no_locals w)
  /\ outcome_map output_images
       (fst (nested_loop_with py (http_get_after answers) history no_locals w))
     = outcome_map output_images
         (fst (inner_loop_with py (http_get_after answers) history no_locals w)).
Proof.
  intros Hs.
  assert (H : fst (nested_loop_with py (http_get_after answers) history
                     no_locals w) =
              fst (inner_loop_with py (http_get_after answers) history
                     no_locals w)).
  { rewrite (@nested_loop_with_ext py (http_get_after answers)
               (http_get (at_start answers)) (http_get_after_stable Hs)
               history no_locals w).
    rewrite (@inner_loop_with_ext py (http_get_after answers)
               (http_get (at_start answers)) (http_get_after_stable Hs)
               history no_locals w).
    destruct (walk_with_http_get py (at_start answers) history no_locals w)
      as [-> ->].
    apply nested_as_inner. }
  split; [exact H | now rewrite H].
Qed.

(** The two nodes of [Once.history], against the backend of the
    scenarios. *)
Lemma nested_loop_redundant_when_stable_witness :
  fst (nested_loop_with Scenario.py (http_get_after Once.always) Once.history
         no_locals idle) =
  fst (inner_loop_with Scenario.py (http_get_after Once.always) Once.history
         no_locals idle)
  /\ outcome_map output_images
       (fst (nested_loop_with Scenario.py (http_get_after Once.always)
               Once.history no_locals idle))
     = outcome_map output_images
         (fst (inner_loop_with Scenario.py (http_get_after Once.always)
                 Once.history no_locals idle)).
Proof.
  apply (@nested_loop_redundant_when_stable Scenario.py Once.always
           Once.history idle).
  intros tr tr' url. reflexivity.
Defined.

(** C7 as stated fails: against a backend that serves each image once,
    a single pass of the inner loop over the two nodes of [Once.history]
    returns both images, and the nested loops, whose second pass asks
    for the first image again, raise. *)
Lemma nested_loop_raises_where_one_pass_returns :
  fst (inner_loop_with Scenario.py (http_get_after Once.answers) Once.history
         no_locals idle) =
    Ret {| images_output := Some [Scenario.data "B"];
           output_images := [(JStr "9", [Scenario.data "A"]);
                             (JStr "12", [Scenario.data "B"])] |}
  /\ fst (nested_loop_with Scenario.py (http_get_after Once.answers)
            Once.history no_locals idle) = Raise URLError
  /\ outcome_map output_images
       (fst (nested_loop_with Scenario.py (http_get_after Once.answers)
               Once.history no_locals idle))
     <> outcome_map output_images
          (fst (inner_loop_with Scenario.py (http_get_after Once.answers)
                  Once.history no_locals idle)).
Proof.
  assert (Hi : fst (inner_loop_with Scenario.py (http_get_after Once.answers)
                      Once.history no_locals idle) =
               Ret {| images_output := Some [Scenario.data "B"];
                      output_images := [(JStr "9", [Scenario.data "A"]);
                                        (JStr "12", [Scenario.data "B"])] |})
    by (vm_compute; reflexivity).
  assert (Hn : fst (nested_loop_with Scenario.py (http_get_after Once.answers)
                      Once.history no_locals idle) = Raise URLError)
    by (vm_compute; reflexivity).
  split; [exact Hi |]. split; [exact Hn |].
  rewrite Hi, Hn. simpl. discriminate.
Qed.

(** The history of the end-to-end scenario: node ["9"] with [out.png]. *)
Lemma fetch_results_all_images_witness :
  fst (fetch_results Scenario.py (Scenario.net Scenario.history_one)
         (JStr "abc") idle) =
  Ret (combine
         (map (fun node => JStr (fst node))
            [("9", JObj [("images", JArr [Scenario.image_ref "out.png"])])])
         [[Scenario.data "PNGDATA"]]).
Proof.
  apply (@fetch_results_all_images Scenario.py
           (Scenario.net Scenario.history_one) "abc" idle
           (Scenario.encode Scenario.history_one) Scenario.history_one
           (JObj [("outputs",
                   JObj [("9", JObj [("images",
                                      JArr [Scenario.image_ref "out.png"])])])])
           [("9", JObj [("images", JArr [Scenario.image_ref "out.png"])])]
           [[Scenario.data "PNGDATA"]]).
  - reflexivity.
  - reflexivity.
  - reflexivity.
  - reflexivity.
  - repeat constructor. simpl. tauto.
  - repeat constructor. exists [Scenario.image_ref "out.png"].
    split; [reflexivity |]. repeat constructor.
    exists (JStr "out.png"), (JStr ""), (JStr "output").
    repeat split; reflexivity.
Defined.

(** The history of two nodes, the second without images: both are keys
    of the result. *)
Lemma fetch_results_carries_forward_witness :
  fst (fetch_results Scenario.py (Scenario.net Scenario.history_two)
         (JStr "abc") idle) =
  match carried_forward [Some [Scenario.data "A"; Scenario.data "B"]; None]
          None with
  | Some images =>
      Ret (combine
             (map (fun node => JStr (fst node))
                [("9", JObj [("images", JArr [Scenario.image_ref "a.png";
                                              Scenario.image_ref "b.png"])]);
                 ("12", JObj [("text", JArr [JStr "done"])])])
             images)
  | None => Raise (UnboundLocalError "images_output")
  end.
Proof.
  apply (@fetch_results_carries_forward Scenario.py
           (Scenario.net Scenario.history_two) "abc" idle
           (Scenario.encode Scenario.history_two) Scenario.history_two
           (JObj [("outputs",
                   JObj [("9", JObj [("images",
                                      JArr [Scenario.image_ref "a.png";
                                            Scenario.image_ref "b.png"])]);
                         ("12", JObj [("text", JArr [JStr "done"])])])])).
  - reflexivity.
  - reflexivity.
  - reflexivity.
  - reflexivity.
  - repeat constructor; simpl; intuition discriminate.
  - constructor; [| constructor; [| constructor]].
    + exists [Scenario.image_ref "a.png"; Scenario.image_ref "b.png"].
      split; [reflexivity |].
      constructor; [| constructor; [| constructor]].
      * exists (JStr "a.png"), (JStr ""), (JStr "output").
        repeat split; reflexivity.
      * exists (JStr "b.png"), (JStr ""), (JStr "output").
        repeat split; reflexivity.
    + exists [("text", JArr [JStr "done"])]. split; reflexivity.
Defined.

(** The second image of node ["9"] cannot be fetched. *)
Lemma fetch_results_image_fetch_fails_witness :
  fst (fetch_results Scenario.py
         (Faults.without_image "b.png" (Scenario.net Scenario.history_two))
         (JStr "abc") idle) =
  Raise URLError.
Proof.
  apply (@fetch_results_image_fetch_fails Scenario.py
           (Faults.without_image "b.png" (Scenario.net Scenario.history_two))
           "abc" idle
           (Scenario.encode Scenario.history_two) Scenario.history_two
           (JObj [("outputs",
                   JObj [("9", JObj [("images",
                                      JArr [Scenario.image_ref "a.png";
                                            Scenario.image_ref "b.png"])]);
                         ("12", JObj [("text", JArr [JStr "done"])])])])
           []
           [("12", JObj [("text", JArr [JStr "done"])])]
           ("9", JObj [("images", JArr [Scenario.image_ref "a.png";
                                        Scenario.image_ref "b.png"])])
           [] []
           [Scenario.image_ref "a.png"] [] [Scenario.data "A"]
           (Scenario.image_ref "b.png") URLError).
  - reflexivity.
  - reflexivity.
  - reflexivity.
  - reflexivity.
  - repeat constructor; simpl; intuition discriminate.
  - constructor.
  - reflexivity.
  - reflexivity.
  - constructor; [| constructor].
    exists (JStr "a.png"), (JStr ""), (JStr "output").
    repeat split; reflexivity.
  - exists (JStr "b.png"), (JStr ""), (JStr "output").
    repeat split; reflexivity.
Defined.

(* ================================================================= *)
(** ** Theorems: the order and the content of the effects *)

Section Stages.

Lemma within_nil lo hi : within lo hi [].
Proof. split; constructor. Qed.

Lemma within_one lo hi ev :
  (lo <= stage ev <= hi)%nat -> within lo hi [ev].
Proof. intros H. split; repeat constructor; lia. Qed.

Lemma in_order_app e1 e2 :
  in_order e1 -> in_order e2 ->
  (forall x y, In x e1 -> In y e2 -> (stage x <= stage y)%nat) ->
  in_order (e1 ++ e2).
Proof.
  unfold in_order. intros H1 H2 H12.
  induction e1 as [| x e1 IH]; simpl; trivial.
  inversion H1 as [| ? ? Hs Hx]; subst. constructor.
  - apply IH; trivial. intros; apply H12; simpl; auto.
  - apply Forall_app. split; trivial.
    apply Forall_forall. intros y Hy. apply H12; simpl; auto.
Qed.

Lemma within_app a b c e1 e2 :
  (a <= b)%nat -> (b <= c)%nat ->
  within a b e1 -> within b c e2 -> within a c (e1 ++ e2).
Proof.
  intros Hab Hbc [Ho1 Hb1] [Ho2 Hb2]. split.
  - apply in_order_app; trivial. intros x y Hx Hy.
    pose proof (proj1 (Forall_forall _ _) Hb1 x Hx).
    pose proof (proj1 (Forall_forall _ _) Hb2 y Hy). simpl in *. lia.
  - apply Forall_app. split.
    + eapply Forall_impl; [| exact Hb1]. simpl. intros; lia.
    + eapply Forall_impl; [| exact Hb2]. simpl. intros; lia.
Qed.

Lemma within_weaken a b a' b' evs :
  (a' <= a)%nat -> (b <= b')%nat -> within a b evs -> within a' b' evs.
Proof.
  intros Ha Hb [Ho Hbd]. split; trivial.
  eapply Forall_impl; [| exact Hbd]. simpl. intros; lia.
Qed.

Lemma staged_weaken {A} a b a' b' (m : M A) :
  (a' <= a)%nat -> (b <= b')%nat -> staged a b m -> staged a' b' m.
Proof.
  intros Ha Hb Hm w. destruct (Hm w) as (evs & Ht & Hw).
  exists evs. split; trivial. now apply within_weaken with a b.
Qed.

Lemma staged_ret {A} lo hi (a : A) : staged lo hi (ret a).
Proof.
  intros w. exists []. simpl. rewrite app_nil_r. auto using within_nil.
Qed.

Lemma staged_raise {A} lo hi e : staged lo hi (raise e : M A).
Proof.
  intros w. exists []. simpl. rewrite app_nil_r. auto using within_nil.
Qed.

Lemma staged_lift {A} lo hi (r : result A) : staged lo hi (lift r).
Proof. destruct r; [apply staged_ret | apply staged_raise]. Qed.

Lemma effect_trace {A} ev (r : result A) w :
  trace (snd (effect ev r w)) = (trace w ++ [ev])%list.
Proof. unfold effect. now destruct r. Qed.

Lemma staged_effect {A} lo hi ev (r : result A) :
  (lo <= stage ev <= hi)%nat -> staged lo hi (effect ev r).
Proof.
  intros H w. exists [ev]. rewrite effect_trace. auto using within_one.
Qed.

Lemma staged_bind {A B} a b c (m : M A) (k : A -> M B) :
  (a <= b)%nat -> (b <= c)%nat ->
  staged a b m -> (forall x, staged b c (k x)) -> staged a c (bind m k).
Proof.
  intros Hab Hbc Hm Hk w. unfold bind.
  destruct (Hm w) as (e1 & Ht1 & Hw1).
  destruct (m w) as [[x | e |] w1]; simpl in *.
  - destruct (Hk x w1) as (e2 & Ht2 & Hw2).
    exists (e1 ++ e2)%list. rewrite Ht2, Ht1, app_assoc.
    split; trivial. now apply within_app with b.
  - exists e1. split; trivial. now apply within_weaken with a b.
  - exists e1. split; trivial. now apply within_weaken with a b.
Qed.

Lemma staged_for_each {A S} n (body : A -> S -> M S) xs :
  (forall x st, staged n n (body x st)) ->
  forall st, staged n n (for_each xs body st).
Proof.
  intros Hbody. induction xs as [| x xs IH]; intros st; simpl.
  - apply staged_ret.
  - apply staged_bind with n; auto.
Qed.

Lemma staged_scoped {A} a b (m : M A) exit :
  (a <= b)%nat -> (b <= stage exit)%nat ->
  staged a b m -> staged a (stage exit) (scoped m exit).
Proof.
  intros Hab Hb Hm w. unfold scoped.
  destruct (Hm w) as (e1 & Ht1 & Hw1).
  destruct (m w) as [[x | e |] w1]; simpl in *.
  - exists (e1 ++ [exit])%list. rewrite Ht1, app_assoc. split; trivial.
    apply within_app with b; trivial. apply within_one. lia.
  - exists (e1 ++ [exit])%list. rewrite Ht1, app_assoc. split; trivial.
    apply within_app with b; trivial. apply within_one. lia.
  - exists e1. split; trivial. now apply within_weaken with a b.
Qed.

Lemma staged_try_except {A} a b c (m : M A) (handler : exn -> M A) :
  (a <= b)%nat -> (b <= c)%nat ->
  staged a b m -> (forall e, staged b c (handler e)) ->
  staged a c (try_except m handler).
Proof.
  intros Hab Hbc Hm Hh w. unfold try_except.
  destruct (Hm w) as (e1 & Ht1 & Hw1).
  destruct (m w) as [[x | e |] w1]; simpl in *.
  - exists e1. split; trivial. now apply within_weaken with a b.
  - destruct (Hh e w1) as (e2 & Ht2 & Hw2).
    exists (e1 ++ e2)%list. rewrite Ht2, Ht1, app_assoc.
    split; trivial. now apply within_app with b.
  - exists e1. split; trivial. now apply within_weaken with a b.
Qed.

End Stages.

Section Commands.

Variable py : pylib.
Variable net : outside.
Variable client_id : string.

Lemma staged_ws_recv : staged 4 4 ws_recv.
Proof.
  intros w. unfold ws_recv.
  destruct (ws_frames (inbox w)) as [| f rest].
  - exists []. rewrite app_nil_r.
    destruct (ws_end (inbox w)); auto using within_nil.
  - exists [WsRecv f]. simpl. split; trivial. apply within_one. simpl. lia.
Qed.

Lemma staged_while_recv fuel prompt_id :
  staged 4 4 (while_recv py fuel prompt_id).
Proof.
  induction fuel as [| fuel IH]; simpl.
  - intros w. exists []. simpl. rewrite app_nil_r. auto using within_nil.
  - apply staged_bind with 4%nat; trivial. { apply staged_ws_recv. }
    intros out. apply staged_bind with 4%nat; trivial. { apply staged_lift. }
    intros [|]; [apply staged_ret | apply IH].
Qed.

Lemma staged_await_completion prompt_id :
  staged 4 4 (await_completion py prompt_id).
Proof. intros w. apply staged_while_recv. Qed.

Lemma staged_fetch_images node_output :
  staged 5 5 (fetch_images py net node_output).
Proof.
  unfold fetch_images.
  apply staged_bind with 5%nat; trivial. { apply staged_lift. } intros images.
  apply staged_bind with 5%nat; trivial. { apply staged_lift. } intros items.
  apply staged_for_each. intros image acc.
  apply staged_bind with 5%nat; trivial. { apply staged_lift. } intros f.
  apply staged_bind with 5%nat; trivial. { apply staged_lift. } intros s.
  apply staged_bind with 5%nat; trivial. { apply staged_lift. } intros t.
  apply staged_bind with 5%nat; trivial.
  { apply staged_effect. simpl. lia. }
  intros data. apply staged_ret.
Qed.

Lemma staged_visit_node history node_id st :
  staged 5 5 (visit_node py net history node_id st).
Proof.
  unfold visit_node.
  apply staged_bind with 5%nat; trivial. { apply staged_lift. } intros outputs.
  apply staged_bind with 5%nat; trivial. { apply staged_lift. } intros no.
  apply staged_bind with 5%nat; trivial. { apply staged_lift. } intros has.
  apply staged_bind with 5%nat; trivial.
  { destruct has.
    - apply staged_bind with 5%nat; trivial. { apply staged_fetch_images. }
      intros fetched. apply staged_ret.
    - apply staged_ret. }
  intros [fetched |]; [| apply staged_raise].
  destruct (hashable node_id); [apply staged_ret | apply staged_raise].
Qed.

Lemma staged_inner_loop history st : staged 5 5 (inner_loop py net history st).
Proof.
  unfold inner_loop.
  apply staged_bind with 5%nat; trivial. { apply staged_lift. } intros outputs.
  apply staged_bind with 5%nat; trivial. { apply staged_lift. } intros ids.
  apply staged_for_each. intros. apply staged_visit_node.
Qed.

Lemma staged_fetch_results prompt_id :
  staged 5 5 (fetch_results py net prompt_id).
Proof.
  unfold fetch_results, get_history, nested_loop.
  apply staged_bind with 5%nat; trivial.
  { apply staged_bind with 5%nat; trivial.
    - apply staged_effect. simpl. lia.
    - intros body. apply staged_lift. }
  intros response.
  apply staged_bind with 5%nat; trivial. { apply staged_lift. } intros history.
  apply staged_bind with 5%nat; trivial.
  { apply staged_bind with 5%nat; trivial. { apply staged_lift. }
    intros outputs.
    apply staged_bind with 5%nat; trivial. { apply staged_lift. } intros os.
    apply staged_for_each. intros. apply staged_inner_loop. }
  intros st. apply staged_ret.
Qed.

Lemma staged_send_images images : staged 6 6 (send_images py images).
Proof.
  unfold send_images. apply staged_for_each. intros node_id [].
  destruct (assoc_get py_eq images node_id) as [datas |];
    [| apply staged_raise].
  apply staged_for_each. intros image_data [].
  apply staged_bind with 6%nat; trivial. { apply staged_lift. } intros image.
  apply staged_bind with 6%nat; trivial. { apply staged_lift. } intros png.
  apply staged_effect. simpl. lia.
Qed.

Local Abbreviation uri := (ws_uri server_address client_id).
Local Abbreviation body_of := (submission_body py client_id).

Lemma get_images_trace prompt w :
  exists tail,
    trace (snd (get_images py net client_id prompt w)) =
    (trace w ++ HttpPost prompt_url (body_of prompt) :: tail)%list
    /\ within 4 5 tail.
Proof.
  unfold get_images. unfold bind at 1.
  pose proof (submit_trace py net client_id prompt w) as Hs.
  destruct (submit py net client_id prompt w) as [[pid | e |] w1];
    simpl in Hs.
  2,3: exists []; simpl; split; [exact Hs | apply within_nil].
  assert (Hrest : staged 4 5
            (bind (await_completion py pid)
               (fun _ => fetch_results py net pid))).
  { apply staged_bind with 4%nat; try lia.
    - apply staged_await_completion.
    - intros _. apply staged_weaken with 5%nat 5%nat; try lia.
      apply staged_fetch_results. }
  destruct (Hrest w1) as (tail & Ht & Hw). exists tail.
  rewrite Ht, Hs, <- app_assoc. now split.
Qed.

Lemma run_prompt_trace prompt w :
  exists evs,
    trace (snd (run_prompt py net client_id prompt w)) = (trace w ++ evs)%list
    /\ generation py net client_id prompt evs.
Proof.
  unfold run_prompt. unfold bind at 1. unfold ws_connect.
  destruct (ws_server net uri) as [session | e] eqn:Hc.
  2:{ exists [WsConnect uri]. simpl. split; trivial. left. eauto. }
  set (w1 := {| inbox := session; trace := _ |}).
  unfold scoped. unfold bind at 1. unfold ws_send, effect at 1. simpl.
  set (w2 := emit _ w1).
  assert (Hbody : exists tail,
            trace (snd (bind (get_images py net client_id prompt)
                          (fun images => send_images py images) w2)) =
            (trace w2 ++ HttpPost prompt_url (body_of prompt) :: tail)%list
            /\ within 4 6 tail).
  { unfold bind.
    destruct (get_images_trace prompt w2) as (t1 & Ht1 & Hw1).
    destruct (get_images py net client_id prompt w2) as [[images | e |] w3];
      simpl in Ht1.
    2,3: exists t1; simpl; split; trivial;
         apply within_weaken with 4%nat 5%nat; trivial; lia.
    destruct (staged_send_images images w3) as (t2 & Ht2 & Hw2).
    exists (t1 ++ t2)%list. rewrite Ht2, Ht1, <- app_assoc. split; trivial.
    apply within_app with 5%nat; try lia; trivial.
    apply within_weaken with 6%nat 6%nat; trivial; lia. }
  destruct Hbody as (tail & Ht & Hw).
  destruct (bind _ _ w2) as [[[] | e |] w4]; simpl in Ht |- *.
  - exists (WsConnect uri :: WsSend (json_dumps py prompt)
            :: HttpPost prompt_url (body_of prompt) :: tail ++ [WsClose])%list.
    split.
    + rewrite Ht. unfold w2, w1. simpl. rewrite <- !app_assoc. reflexivity.
    + right. exists (tail ++ [WsClose])%list.
      split; [reflexivity | split; [| eauto]].
      apply within_app with 6%nat; try lia; trivial.
      apply within_one. simpl. lia.
  - exists (WsConnect uri :: WsSend (json_dumps py prompt)
            :: HttpPost prompt_url (body_of prompt) :: tail ++ [WsClose])%list.
    split.
    + rewrite Ht. unfold w2, w1. simpl. rewrite <- !app_assoc. reflexivity.
    + right. exists (tail ++ [WsClose])%list.
      split; [reflexivity | split; [| eauto]].
      apply within_app with 6%nat; try lia; trivial.
      apply within_one. simpl. lia.
  - exists (WsConnect uri :: WsSend (json_dumps py prompt)
            :: HttpPost prompt_url (body_of prompt) :: tail)%list.
    split.
    + rewrite Ht. unfold w2, w1. simpl. rewrite <- !app_assoc. reflexivity.
    + right. exists tail. split; [reflexivity | split; [| eauto]].
      apply within_weaken with 4%nat 6%nat; trivial; lia.
Qed.

Lemma command_trace (prelude : M json) (handler : exn -> M unit) :
  staged 0 0 prelude ->
  (forall e, staged 8 8 (handler e)) ->
  generation_trace py net client_id prelude
    (trace (snd (run (bind (effect Defer (Ok tt))
                        (fun _ =>
                           try_except
                             (bind prelude
                                (fun prompt =>
                                   run_prompt py net client_id prompt))
                             handler))))).
Proof.
  intros Hpre Hh. unfold run, bind at 1, effect at 1. simpl.
  set (w0 := emit Defer idle). unfold try_except, bind.
  destruct (Hpre w0) as (pre & Hp & Hwp).
  destruct (prelude w0) as [[prompt | e |] w1] eqn:E; simpl in Hp.
  - destruct (run_prompt_trace prompt w1) as (gen & Hg & Hgen).
    assert (Hgen' : gen = [] \/
              exists prompt w0 w1,
                prelude w0 = (Ret prompt, w1) /\ generation py net client_id prompt gen)
      by (right; eauto).
    destruct (run_prompt py net client_id prompt w1) as [[[] | e |] w2];
      simpl in Hg.
    + exists pre, gen, []. rewrite app_nil_r. simpl. rewrite Hg, Hp.
      split; [simpl; now rewrite <- ?app_assoc |].
      split; [trivial | split; [trivial | apply within_nil]].
    + destruct (Hh e w2) as (rep & Hr & Hwr).
      exists pre, gen, rep. simpl. rewrite Hr, Hg, Hp.
      split; [simpl; now rewrite <- ?app_assoc |].
      split; [trivial | split; trivial].
    + exists pre, gen, []. rewrite app_nil_r. simpl. rewrite Hg, Hp.
      split; [simpl; now rewrite <- ?app_assoc |].
      split; [trivial | split; [trivial | apply within_nil]].
  - destruct (Hh e w1) as (rep & Hr & Hwr).
    exists pre, [], rep. simpl. rewrite Hr, Hp.
    split; [simpl; now rewrite <- ?app_assoc |].
    split; [trivial | split; [now left | trivial]].
  - exists pre, [], []. simpl. rewrite Hp, app_nil_r.
    split; [reflexivity |].
    split; [trivial | split; [now left | apply within_nil]].
Qed.

Lemma staged_load_prompt filename : staged 0 0 (load_prompt py net filename).
Proof.
  unfold load_prompt. apply staged_bind with 0%nat; trivial.
  - apply staged_effect. simpl. lia.
  - intros text. apply staged_lift.
Qed.

Lemma staged_img_prompt text width height :
  staged 0 0 (img_prompt py net text width height).
Proof.
  unfold img_prompt.
  apply staged_bind with 0%nat; trivial. { apply staged_load_prompt. }
  intros p0.
  apply staged_bind with 0%nat; trivial. { apply staged_lift. } intros p1.
  apply staged_bind with 0%nat; trivial. { apply staged_lift. } intros p2.
  apply staged_lift.
Qed.

Lemma staged_i2i_prompt text image_url denoise :
  staged 0 0 (i2i_prompt py net text image_url denoise).
Proof.
  unfold i2i_prompt.
  apply staged_bind with 0%nat; trivial.
  { apply staged_effect. simpl. lia. } intros image_data.
  apply staged_bind with 0%nat; trivial. { apply staged_lift. } intros image.
  apply staged_bind with 0%nat; trivial. { apply staged_lift. } intros buf.
  apply staged_bind with 0%nat; trivial. { apply staged_lift. } intros size.
  apply staged_bind with 0%nat; trivial. { apply staged_load_prompt. }
  intros p0.
  apply staged_bind with 0%nat; trivial. { apply staged_lift. } intros p1.
  apply staged_bind with 0%nat; trivial. { apply staged_lift. } intros p2.
  apply staged_bind with 0%nat; trivial. { apply staged_lift. } intros p3.
  apply staged_bind with 0%nat; trivial. { apply staged_lift. } intros p4.
  apply staged_lift.
Qed.

Lemma staged_report e : staged 8 8 (report e).
Proof.
  destruct e; unfold report;
    (apply staged_bind with 8%nat; trivial;
     [apply staged_effect; simpl; lia
     | intros _; apply staged_effect; simpl; lia]).
Qed.

Lemma staged_report_i2i e : staged 8 8 (report_i2i e).
Proof.
  destruct e; unfold report_i2i;
    (apply staged_bind with 8%nat; trivial;
     [apply staged_effect; simpl; lia
     | intros _; apply staged_effect; simpl; lia]).
Qed.

Lemma img_trace text width height :
  generation_trace py net client_id (img_prompt py net text width height)
    (trace (snd (run (img py net client_id text width height)))).
Proof.
  apply command_trace; [apply staged_img_prompt | apply staged_report].
Qed.

Lemma i2i_trace text image_url denoise :
  generation_trace py net client_id (i2i_prompt py net text image_url denoise)
    (trace (snd (run (i2i py net client_id text image_url denoise)))).
Proof.
  apply command_trace; [apply staged_i2i_prompt | apply staged_report_i2i].
Qed.

(** *** Consequences of the shape *)

Lemma within_quiet lo hi evs :
  within lo hi evs -> hi = 0%nat \/ (4 <= lo)%nat -> Forall quiet evs.
Proof.
  intros [_ Hb] Hr. eapply Forall_impl; [| exact Hb].
  intros ev Hs. destruct ev; simpl in *; trivial; lia.
Qed.

Lemma quiet_no_send {evs} : Forall quiet evs -> filter is_ws_send evs = [].
Proof.
  induction 1 as [| ev evs Hq _ IH]; simpl; trivial.
  destruct ev; simpl in *; trivial; contradiction.
Qed.

Lemma quiet_In {evs ev} : Forall quiet evs -> In ev evs -> quiet ev.
Proof. intros H Hin. exact (proj1 (Forall_forall _ _) H ev Hin). Qed.



Lemma generation_trace_dialogue prelude tr :
  generation_trace py net client_id prelude tr -> dialogue py net client_id tr.
Proof.
  intros (pre & gen & rep & -> & Hpre & Hgen & Hrep).
  assert (Hqp : Forall quiet (Defer :: pre)).
  { constructor; [exact I |]. apply (within_quiet Hpre). now left. }
  assert (Hqr : Forall quiet rep).
  { apply (within_quiet Hrep). right. lia. }
  destruct Hgen as [-> | (prompt & w0 & w1 & _ & Hg)].
  - exists (Defer :: pre ++ rep)%list, []. rewrite app_nil_r. simpl.
    split; [reflexivity | split; [| now left]].
    inversion Hqp; subst. constructor; trivial. now apply Forall_app.
  - exists (Defer :: pre), (gen ++ rep)%list.
    split; [reflexivity | split; [trivial |]].
    destruct Hg as [[-> He] | (tail & -> & Hw & Hs)].
    + right. left. exists rep. now repeat split.
    + right. right. exists prompt, (HttpPost prompt_url (body_of prompt)
                                      :: tail ++ rep)%list.
      split; [reflexivity | split; [trivial |]].
      right. exists (tail ++ rep)%list. split; trivial.
      apply Forall_app. split; trivial.
      apply (within_quiet Hw). right. lia.
Qed.

Lemma dialogue_connects tr u :
  dialogue py net client_id tr -> In (WsConnect u) tr -> u = uri.
Proof.
  intros (pre & rest & -> & Hq & Hrest) Hin.
  apply in_app_or in Hin. destruct Hin as [Hin | Hin].
  { destruct (quiet_In Hq Hin). }
  destruct Hrest as [-> | [(tail & -> & Hqt & _)
                           | (prompt & tail & -> & _ & Ht)]].
  - destruct Hin.
  - destruct Hin as [[= <-] | Hin]; trivial.
    destruct (quiet_In Hqt Hin).
  - destruct Hin as [[= <-] | [[=] | Hin]]; trivial.
    destruct Ht as [Hqt | (tail' & -> & Hqt)].
    + destruct (quiet_In Hqt Hin).
    + destruct Hin as [[=] | Hin]. destruct (quiet_In Hqt Hin).
Qed.



Lemma dialogue_one_frame tr : dialogue py net client_id tr -> one_frame py net client_id tr.
Proof.
  intros Hd. pose proof (dialogue_connects (tr := tr)) as Hconn.
  specialize (fun u => Hconn u Hd).
  destruct Hd as (pre & rest & -> & Hq & Hrest).
  unfold one_frame. rewrite filter_app, (quiet_no_send Hq). simpl.
  destruct Hrest as [-> | [(tail & -> & Hqt & [e He])
                           | (prompt & tail & -> & _ & Ht)]].
  - split; [now left |]. intros u session Hin _.
    rewrite app_nil_r in Hin. destruct (quiet_In Hq Hin).
  - simpl. rewrite (quiet_no_send Hqt). split; [now left |].
    intros u session Hin Hok. rewrite (Hconn u Hin) in Hok. congruence.
  - assert (Hf : filter is_ws_send tail = []).
    { destruct Ht as [Hqt | (tail' & -> & Hqt)]; simpl;
        now apply quiet_no_send. }
    simpl. rewrite Hf. split; [| eauto].
    right. exists prompt. split; trivial.
    intros url body Hin. apply in_app_or in Hin.
    destruct Hin as [Hin | Hin]; [destruct (quiet_In Hq Hin) |].
    destruct Hin as [[=] | [[=] | Hin]].
    destruct Ht as [Hqt | (tail' & -> & Hqt)].
    + destruct (quiet_In Hqt Hin).
    + destruct Hin as [[= <- <-] | Hin]; auto.
      destruct (quiet_In Hqt Hin).
Qed.

(** *** The description command *)

Lemma only_lift {A} P (r : result A) : only P (lift r).
Proof.
  intros w. exists []. rewrite app_nil_r. destruct r; simpl; auto.
Qed.

Lemma only_ret {A} P (a : A) : only P (ret a).
Proof. intros w. exists []. rewrite app_nil_r. simpl. auto. Qed.

Lemma only_effect {A} (P : event -> Prop) ev (r : result A) :
  P ev -> only P (effect ev r).
Proof. intros H w. exists [ev]. rewrite effect_trace. auto. Qed.

Lemma only_bind {A B} P (m : M A) (k : A -> M B) :
  only P m -> (forall x, only P (k x)) -> only P (bind m k).
Proof.
  intros Hm Hk w. unfold bind.
  destruct (Hm w) as (e1 & Ht1 & Hp1).
  destruct (m w) as [[x | e |] w1]; simpl in *; eauto.
  destruct (Hk x w1) as (e2 & Ht2 & Hp2).
  exists (e1 ++ e2)%list. rewrite Ht2, Ht1, app_assoc. split; trivial.
  now apply Forall_app.
Qed.

Lemma only_staged {A} lo hi (m : M A) :
  staged lo hi m -> hi = 0%nat \/ (4 <= lo)%nat -> only quiet m.
Proof.
  intros Hm Hr w. destruct (Hm w) as (evs & Ht & Hw).
  exists evs. split; trivial. now apply within_quiet with lo hi.
Qed.

Lemma only_des_prompt image_url :
  only quiet (des_prompt py net image_url).
Proof.
  unfold des_prompt.
  apply only_bind; [now apply only_effect | intros image_data].
  apply only_bind; [apply only_lift | intros image].
  apply only_bind; [apply only_lift | intros buffered].
  apply only_bind.
  { apply only_staged with 0%nat 0%nat; [apply staged_load_prompt | now left]. }
  intros p0.
  apply only_bind; [apply only_lift | intros p1].
  apply only_bind; [now apply only_effect | intros _].
  apply only_ret.
Qed.

Lemma describe_trace prompt w :
  exists tail,
    trace (snd (describe py net client_id prompt w)) =
    (trace w ++ WsConnect uri :: tail)%list
    /\ ((Forall quiet tail /\ exists e, ws_server net uri = Err e)
        \/ exists tail',
             tail = WsSend (json_dumps py prompt) :: tail'
             /\ Forall quiet tail'
             /\ exists session, ws_server net uri = Ok session).
Proof.
  unfold describe. unfold bind at 1. unfold ws_connect.
  destruct (ws_server net uri) as [session | e] eqn:Hc.
  2:{ exists []. simpl. split; trivial. left. split; eauto. }
  set (w1 := {| inbox := session; trace := _ |}).
  unfold scoped. unfold bind at 1. unfold ws_send, effect at 1. simpl.
  set (w2 := emit _ w1).
  match goal with
  | |- context [bind ws_recv ?k w2] =>
      assert (Hrest : only quiet (bind ws_recv k))
  end.
  { apply only_bind.
    { apply only_staged with 4%nat 4%nat; [apply staged_ws_recv | right; lia]. }
    intros response.
    apply only_bind; [now apply only_effect | intros _].
    apply only_bind; [apply only_lift | intros response_data].
    now apply only_effect. }
  destruct (Hrest w2) as (evs & Ht & Hq).
  destruct (bind ws_recv _ w2) as [[[] | e |] w3]; simpl in Ht |- *.
  - exists (WsSend (json_dumps py prompt) :: evs ++ [WsClose])%list. split.
    + rewrite Ht. unfold w2, w1. simpl. now rewrite <- !app_assoc.
    + right. exists (evs ++ [WsClose])%list.
      split; [reflexivity | split; [| eauto]].
      apply Forall_app. split; trivial. now repeat constructor.
  - exists (WsSend (json_dumps py prompt) :: evs ++ [WsClose])%list. split.
    + rewrite Ht. unfold w2, w1. simpl. now rewrite <- !app_assoc.
    + right. exists (evs ++ [WsClose])%list.
      split; [reflexivity | split; [| eauto]].
      apply Forall_app. split; trivial. now repeat constructor.
  - exists (WsSend (json_dumps py prompt) :: evs)%list. split.
    + rewrite Ht. unfold w2, w1. simpl. now rewrite <- !app_assoc.
    + right. exists evs. split; [reflexivity | split; [| eauto]]. trivial.
Qed.

Lemma only_report e : only quiet (report e).
Proof.
  apply only_staged with 8%nat 8%nat; [apply staged_report | right; lia].
Qed.

Lemma des_dialogue image_url :
  dialogue py net client_id (trace (snd (run (des py net client_id image_url)))).
Proof.
  unfold des, run, bind at 1, effect at 1. simpl.
  set (w0 := emit Defer idle). unfold try_except, bind.
  destruct (only_des_prompt image_url w0) as (pre & Hp & Hqp).
  assert (Hq0 : Forall quiet (Defer :: pre)) by now constructor.
  destruct (des_prompt py net image_url w0) as [[prompt | e |] w1];
    simpl in Hp.
  - destruct (describe_trace prompt w1) as (tail & Ht & Hs).
    assert (Hrep : forall w2 rep,
              trace w2 = (trace w1 ++ WsConnect uri :: tail ++ rep)%list ->
              Forall quiet rep -> dialogue py net client_id (trace w2)).
    { intros w2 rep Hw2 Hqr. exists (Defer :: pre),
        (WsConnect uri :: tail ++ rep)%list.
      rewrite Hw2, Hp. split; [reflexivity | split; [trivial |]].
      destruct Hs as [[Hqt He] | (tail' & -> & Hqt & Hok)].
      - right. left. exists (tail ++ rep)%list.
        split; [reflexivity | split; [| trivial]]. now apply Forall_app.
      - right. right. exists prompt, (tail' ++ rep)%list.
        split; [reflexivity | split; [trivial |]].
        left. now apply Forall_app. }
    destruct (describe py net client_id prompt w1) as [[[] | e |] w2];
      simpl in Ht |- *.
    + apply Hrep with []; [now rewrite app_nil_r | constructor].
    + destruct (only_report e w2) as (rep & Hr & Hqr).
      apply Hrep with rep; trivial.
      rewrite Hr, Ht, <- app_assoc. reflexivity.
    + apply Hrep with []; [now rewrite app_nil_r | constructor].
  - destruct (only_report e w1) as (rep & Hr & Hqr). simpl.
    exists (Defer :: pre ++ rep)%list, []. rewrite Hr, Hp, app_nil_r.
    split; [reflexivity | split; [| now left]].
    constructor; [exact I |]. now apply Forall_app.
  - simpl. exists (Defer :: pre), []. rewrite Hp, app_nil_r.
    split; [reflexivity | split; [trivial | now left]].
Qed.

(** *** The graph [img] submits *)

Lemma dict_get_set (V : Type) (d : list (string * V)) k v k' :
  dict_get (dict_set d k v) k' =
  if String.eqb k k' then Some v else dict_get d k'.
Proof.
  unfold dict_get, dict_set.
  apply get_set with (good := fun _ => True); trivial.
  - intros a b _ _. apply String.eqb_eq.
  - apply Forall_forall. trivial.
Qed.

Lemma getitem_obj d name :
  getitem (JObj d) name =
  match dict_get d name with
  | Some v => Ok v
  | None => Err (KeyError (JStr name))
  end.
Proof. reflexivity. Qed.

Lemma getitem_Ok c name v :
  getitem c name = Ok v -> exists d, c = JObj d /\ dict_get d name = Some v.
Proof.
  destruct c as [| | | | s | l | d]; simpl; try discriminate.
  intros H. exists d. split; trivial.
  destruct (dict_get d name); now inversion H.
Qed.

Lemma set_input_Ok prompt node field v prompt' :
  set_input prompt node field v = Ok prompt' ->
  exists dp dn di,
    prompt = JObj dp /\ dict_get dp node = Some (JObj dn) /\
    dict_get dn "inputs" = Some (JObj di) /\
    prompt' =
    JObj (dict_set dp node
            (JObj (dict_set dn "inputs" (JObj (dict_set di field v))))).
Proof.
  unfold set_input.
  destruct (getitem prompt node) as [n |] eqn:Hn; simpl; [| discriminate].
  destruct (getitem n "inputs") as [i |] eqn:Hi; simpl; [| discriminate].
  apply getitem_Ok in Hn. destruct Hn as (dp & -> & Hn).
  apply getitem_Ok in Hi. destruct Hi as (dn & -> & Hi).
  destruct i as [| | | | s | l | di]; simpl; try discriminate.
  intros H. injection H as <-. now exists dp, dn, di.
Qed.

Lemma get_input_set_input prompt node field v prompt' field' :
  set_input prompt node field v = Ok prompt' ->
  get_input prompt' node field' =
  if String.eqb field field' then Ok v else get_input prompt node field'.
Proof.
  intros H. apply set_input_Ok in H.
  destruct H as (dp & dn & di & -> & Hn & Hi & ->).
  unfold get_input. rewrite !getitem_obj, dict_get_set, String.eqb_refl, Hn.
  cbn [rbind]. rewrite !getitem_obj, dict_get_set, Hi. cbn [String.eqb Ascii.eqb Bool.eqb rbind].
  rewrite !getitem_obj, dict_get_set.
  now destruct (String.eqb field field').
Qed.

Lemma img_prompt_inputs text width height w0 prompt w1 :
  img_prompt py net text width height w0 = (Ret prompt, w1) ->
  get_input prompt "27" "width" = Ok (fst (img_size width height)) /\
  get_input prompt "27" "height" = Ok (snd (img_size width height)).
Proof.
  unfold img_prompt. unfold bind at 1.
  destruct (load_prompt py net "flux-api.json" w0) as [[p0 | e |] w];
    try discriminate.
  unfold bind at 1.
  destruct (set_input p0 "6" "text" (JStr text)) as [p1 | e]; simpl;
    [| discriminate].
  unfold bind at 1.
  destruct (set_input p1 "27" "width" _) as [p2 | e] eqn:H2; simpl;
    [| discriminate].
  destruct (set_input p2 "27" "height" _) as [p3 | e] eqn:H3; simpl;
    [| discriminate].
  intros H. injection H as <- _.
  rewrite !(get_input_set_input _ _ _ _ _ H3). simpl.
  rewrite (get_input_set_input _ _ _ _ _ H2). simpl. auto.
Qed.

Lemma get_input_other_node prompt node field v prompt' node' field' :
  set_input prompt node field v = Ok prompt' ->
  String.eqb node node' = false ->
  get_input prompt' node' field' = get_input prompt node' field'.
Proof.
  intros H Hne. apply set_input_Ok in H.
  destruct H as (dp & dn & di & -> & Hn & Hi & ->).
  unfold get_input. now rewrite !getitem_obj, dict_get_set, Hne.
Qed.

Lemma i2i_prompt_inputs text image_url denoise w0 prompt w1 :
  i2i_prompt py net text image_url denoise w0 = (Ret prompt, w1) ->
  exists data image size,
    http_download net image_url = Ok data /\
    Image_open py data = Ok image /\
    i2i_size (im_width image) (im_height image) = Ok size /\
    get_input prompt "51" "width" = Ok (JInt (fst size)) /\
    get_input prompt "51" "height" = Ok (JInt (snd size)).
Proof.
  unfold i2i_prompt. unfold bind at 1. unfold effect at 1.
  destruct (http_download net image_url) as [data | e] eqn:Hd; simpl;
    [| discriminate].
  unfold bind at 1.
  destruct (Image_open py data) as [image | e] eqn:Hi; simpl;
    [| discriminate].
  unfold bind at 1. destruct (im_png image) as [buffered | e]; simpl;
    [| discriminate].
  unfold bind at 1.
  destruct (i2i_size (im_width image) (im_height image)) as [size | e] eqn:Hs;
    simpl; [| discriminate].
  unfold bind at 1.
  destruct (load_prompt py net "i2iflux-base64.json" _) as [[p0 | e |] w];
    try discriminate.
  unfold bind at 1.
  destruct (set_input p0 "6" "text" _) as [p1 | e]; simpl; [| discriminate].
  unfold bind at 1.
  destruct (set_input p1 "53" "image" _) as [p2 | e]; simpl; [| discriminate].
  unfold bind at 1.
  destruct (set_input p2 "51" "width" _) as [p3 | e] eqn:H3; simpl;
    [| discriminate].
  unfold bind at 1.
  destruct (set_input p3 "51" "height" _) as [p4 | e] eqn:H4; simpl;
    [| discriminate].
  destruct (set_input p4 "17" "denoise" denoise) as [p5 | e] eqn:H5; simpl;
    [| discriminate].
  intros H. injection H as <- _. exists data, image, size.
  pose proof (fun f => @get_input_other_node _ _ _ _ _ "51" f H5 eq_refl)
    as E5.
  repeat (split; trivial); rewrite E5.
  - rewrite (get_input_set_input _ _ _ _ _ H4). simpl.
    now rewrite (get_input_set_input _ _ _ _ _ H3).
  - now rewrite (get_input_set_input _ _ _ _ _ H4).
Qed.

Lemma generation_trace_post prelude tr url body :
  generation_trace py net client_id prelude tr ->
  In (HttpPost url body) tr ->
  exists prompt w0 w1,
    prelude w0 = (Ret prompt, w1) /\
    url = prompt_url /\ body = body_of prompt.
Proof.
  intros (pre & gen & rep & -> & Hpre & Hgen & Hrep) Hin.
  assert (Hqp : Forall quiet pre) by (apply (within_quiet Hpre); now left).
  assert (Hqr : Forall quiet rep) by (apply (within_quiet Hrep); right; lia).
  destruct Hin as [[=] | Hin].
  apply in_app_or in Hin. destruct Hin as [Hin | Hin];
    [destruct (quiet_In Hqp Hin) |].
  apply in_app_or in Hin. destruct Hin as [Hin | Hin];
    [| destruct (quiet_In Hqr Hin)].
  destruct Hgen as [-> | (prompt & w0 & w1 & Hrun & Hg)]; [destruct Hin |].
  exists prompt, w0, w1. split; trivial.
  destruct Hg as [[-> _] | (tail & -> & Hw & _)].
  - destruct Hin as [[=] | []].
  - destruct Hin as [[=] | [[=] | [[= <- <-] | Hin]]]; auto.
    assert (Hqt : Forall quiet tail) by (apply (within_quiet Hw); right; lia).
    destruct (quiet_In Hqt Hin).
Qed.

End Commands.

(** *** The claims about the commands *)


(** C4, as the code has it.  In every run of a command the WebSocket
    URL is [ws://<backend>/ws?clientId=<identifier>]; at most one frame
    is sent, and it is sent whenever the connection opened; its content
    is the serialization of the job graph itself, the graph that the
    [{prompt, client_id}] body of the HTTP submission wraps. *)
Theorem one_frame_with_the_graph (py : pylib) (net : outside) (p : process)
  (c : invocation) :
  let tr := trace (snd (run (invoke py net p c))) in
  (forall u, In (WsConnect u) tr ->
     u = "ws://" ++ server_address ++ "/ws?clientId=" ++ proc_client_id p)
  /\ (filter is_ws_send tr = [] \/
      exists prompt,
        filter is_ws_send tr = [WsSend (json_dumps py prompt)] /\
        forall url body,
          In (HttpPost url body) tr ->
          url = prompt_url /\
          body = str_encode py
                   (json_dumps py
                      (JObj [("prompt", prompt);
                             ("client_id", JStr (proc_client_id p))])))
  /\ (forall u session,
        In (WsConnect u) tr -> ws_server net u = Ok session ->
        exists prompt, filter is_ws_send tr = [WsSend (json_dumps py prompt)]).
Proof.
  intros tr.
  assert (Hd : dialogue py net (proc_client_id p) tr).
  { destruct c as [text width height | text image_url denoise | image_url].
    - eapply generation_trace_dialogue. apply img_trace.
    - eapply generation_trace_dialogue. apply i2i_trace.
    - apply des_dialogue. }
  split.
  - intros u Hu. now apply dialogue_connects with py net tr.
  - apply dialogue_one_frame in Hd. exact Hd.
Qed.


(** C10. However [/img] is invoked, with or without the width and height
    options, [width is not None and height is not None] holds, so the
    [else] branch is never taken; and every job the command submits
    carries the given width and height, 1024 for an option not given. *)
Theorem img_else_branch_unreachable (py : pylib) (net : outside)
  (client_id text : string) (width height : option Z) :
  both_given (bind_int 1024 width) (bind_int 1024 height) = true
  /\ img_size (bind_int 1024 width) (bind_int 1024 height) =
     (JInt (option_or 1024 width), JInt (option_or 1024 height))
  /\ forall url body,
       In (HttpPost url body)
          (trace (snd (run (img_command py net client_id text width height)))) ->
       exists prompt,
         body = submission_body py client_id prompt /\
         get_input prompt "27" "width" = Ok (JInt (option_or 1024 width)) /\
         get_input prompt "27" "height" = Ok (JInt (option_or 1024 height)).
Proof.
  assert (Hsize : img_size (bind_int 1024 width) (bind_int 1024 height) =
                  (JInt (option_or 1024 width), JInt (option_or 1024 height)))
    by now destruct width, height.
  split; [now destruct width, height | split; [exact Hsize |]].
  intros url body Hin. unfold img_command in Hin.
  apply generation_trace_post
    with (1 := img_trace py net client_id text _ _) in Hin.
  destruct Hin as (prompt & w0 & w1 & Hrun & _ & ->).
  exists prompt. split; trivial.
  apply img_prompt_inputs in Hrun. now rewrite Hsize in Hrun.
Qed.



(** C4 as stated fails: the frame [/img] sends in the end-to-end
    scenario is not the serialization of any [{prompt, client_id}]
    object. *)
Lemma img_frame_is_not_the_submission_object :
  exists payload,
    In (WsSend payload)
       (trace (snd (run (invoke Scenario.py (Scenario.net Scenario.history_one)
                           (startup Scenario.identifier)
                           (Img "a cat" None None)))))
    /\ forall prompt,
         payload <>
         json_dumps Scenario.py
           (JObj [("prompt", prompt);
                  ("client_id", JStr Scenario.identifier)]).
Proof.
  eexists. split.
  - vm_compute. do 3 right. left. reflexivity.
  - intros prompt H. cbn in H. discriminate H.
Qed.

(* ================================================================= *)
(** ** Theorems: the size [i2i] submits *)

Section Rounding.

Import Binary64.
Local Open Scope Q_scope.

Lemma pow2_pos e : 0 < pow2 e.
Proof. apply Qpower_0_lt. reflexivity. Qed.

Lemma pow2_add a b : pow2 (a + b) == pow2 a * pow2 b.
Proof. apply Qpower_plus. discriminate. Qed.

Lemma pow2_le a b : (a <= b)%Z -> pow2 a <= pow2 b.
Proof. intros H. apply Qpower_le_compat_l; trivial. discriminate. Qed.

Lemma pow2_lt_inv a b : pow2 a < pow2 b -> (a < b)%Z.
Proof. intros H. apply Qpower_lt_compat_l_inv with 2; trivial. reflexivity. Qed.

Lemma pow2_Z n : (0 <= n)%Z -> pow2 n == inject_Z (2 ^ n).
Proof. intros H. unfold pow2. now rewrite Zpower_Qpower. Qed.

Lemma pow2_opp a : pow2 a * pow2 (- a) == 1.
Proof.
  rewrite <- pow2_add. now replace (a + - a)%Z with 0%Z by lia.
Qed.

(** [binade] brackets a positive number between two powers of two. *)
Lemma binade_spec x :
  0 < x -> pow2 (binade x) <= x /\ x < pow2 (binade x + 1).
Proof.
  intros Hx. destruct x as [n d].
  assert (Hn : (0 < n)%Z) by (unfold Qlt in Hx; simpl in Hx; lia).
  unfold binade. simpl Qnum. simpl Qden.
  set (a := Z.log2 n). set (b := Z.log2 (Z.pos d)).
  destruct (Z.log2_spec n Hn) as [Ha1 Ha2]. fold a in Ha1, Ha2.
  destruct (Z.log2_spec (Z.pos d) eq_refl) as [Hb1 Hb2]. fold b in Hb1, Hb2.
  assert (Ha0 : (0 <= a)%Z) by apply Z.log2_nonneg.
  assert (Hb0 : (0 <= b)%Z) by apply Z.log2_nonneg.
  assert (Hxd : (n # d) * inject_Z (Z.pos d) == inject_Z n).
  { rewrite Qmake_Qdiv. field. discriminate. }
  assert (Hd : 0 < inject_Z (Z.pos d)) by reflexivity.
  assert (HA1 : pow2 a <= inject_Z n).
  { rewrite pow2_Z by trivial. now rewrite <- Zle_Qle. }
  assert (HA2 : inject_Z n < pow2 (a + 1)).
  { rewrite pow2_Z by lia. now rewrite <- Zlt_Qlt. }
  assert (HB1 : pow2 b <= inject_Z (Z.pos d)).
  { rewrite pow2_Z by trivial. now rewrite <- Zle_Qle. }
  assert (HB2 : inject_Z (Z.pos d) < pow2 (b + 1)).
  { rewrite pow2_Z by lia. now rewrite <- Zlt_Qlt. }
  pose proof (pow2_pos (a - b)) as P0.
  pose proof (pow2_pos (a - b - 1)) as P1.
  pose proof (pow2_pos (a - b + 1)) as P2.
  pose proof (pow2_pos b) as P3.
  assert (Hlo : pow2 (a - b - 1) < n # d).
  { apply Qmult_lt_r with (inject_Z (Z.pos d)); trivial. rewrite Hxd.
    apply Qlt_le_trans with (pow2 (a - b - 1) * pow2 (b + 1)).
    - apply Qmult_lt_l; trivial.
    - rewrite <- pow2_add. now replace (a - b - 1 + (b + 1))%Z with a by lia. }
  assert (Hhi : n # d < pow2 (a - b + 1)).
  { apply Qmult_lt_r with (inject_Z (Z.pos d)); trivial. rewrite Hxd.
    apply Qlt_le_trans with (pow2 (a - b + 1) * pow2 b).
    - rewrite <- pow2_add. now replace (a - b + 1 + b)%Z with (a + 1)%Z by lia.
    - apply Qmult_le_l; trivial. }
  destruct (Qle_bool (pow2 (a - b)) (n # d)) eqn:E.
  - apply Qle_bool_iff in E. now split.
  - split; [now apply Qlt_le_weak |].
    replace (a - b - 1 + 1)%Z with (a - b)%Z by lia.
    apply Qnot_le_lt. intros H. apply Qle_bool_iff in H. congruence.
Qed.

Lemma binade_lt x k : 0 < x -> x < pow2 k -> (binade x < k)%Z.
Proof.
  intros Hx Hk. destruct (binade_spec Hx) as [Hlo _].
  apply pow2_lt_inv. now apply Qle_lt_trans with x.
Qed.

Lemma binade_ge x k : 0 < x -> pow2 k <= x -> (k <= binade x)%Z.
Proof.
  intros Hx Hk. destruct (binade_spec Hx) as [_ Hhi].
  assert (k < binade x + 1)%Z; [| lia].
  apply pow2_lt_inv. now apply Qle_lt_trans with x.
Qed.

(** Rounding to the nearest integer moves a number by at most a half and
    never across an integer. *)
Lemma rne_near y :
  inject_Z (rne y) - y <= 1 # 2 /\ y - inject_Z (rne y) <= 1 # 2.
Proof.
  unfold rne. pose proof (Qfloor_le y) as Hlo.
  pose proof (Qlt_floor y) as Hhi. rewrite inject_Z_plus in Hhi.
  change (inject_Z 1) with 1 in Hhi.
  destruct (Qcompare (y - inject_Z (Qfloor y)) (1 # 2)) eqn:E.
  - apply Qeq_alt in E. destruct (Z.even (Qfloor y));
      [| rewrite inject_Z_plus; change (inject_Z 1) with 1]; split; lra.
  - apply Qlt_alt in E. split; lra.
  - apply Qgt_alt in E. rewrite inject_Z_plus.
    change (inject_Z 1) with 1. split; lra.
Qed.

Lemma rne_le_int y n : y <= inject_Z n -> (rne y <= n)%Z.
Proof.
  intros H. destruct (rne_near y) as [H1 _].
  assert (Hlt : inject_Z (rne y) < inject_Z (n + 1)).
  { rewrite inject_Z_plus. change (inject_Z 1) with 1. lra. }
  rewrite <- Zlt_Qlt in Hlt. lia.
Qed.

Lemma rne_ge_int y n : inject_Z n <= y -> (n <= rne y)%Z.
Proof.
  intros H. destruct (rne_near y) as [_ H2].
  assert (Hlt : inject_Z (n - 1) < inject_Z (rne y)).
  { unfold Z.sub. rewrite inject_Z_plus. change (inject_Z (- (1))) with (- (1)).
    lra. }
  rewrite <- Zlt_Qlt in Hlt. lia.
Qed.

Lemma round64_pos x : 0 < x -> round64 x = round_pos x.
Proof.
  intros H. unfold round64. apply Qgt_alt in H. now rewrite H.
Qed.

Lemma round_pos_nonneg x : 0 < x -> 0 <= round_pos x.
Proof.
  intros Hx. unfold round_pos.
  pose proof (pow2_pos (ulp_exp x)) as Hp.
  assert (0 <= rne (x / pow2 (ulp_exp x)))%Z.
  { apply rne_ge_int. apply Qle_shift_div_l; trivial.
    change (inject_Z 0) with 0. lra. }
  rewrite Zle_Qle in H. change (inject_Z 0) with 0 in H. nra.
Qed.

(** The rounding error: half a unit in the last place. *)
Lemma round_pos_near x :
  0 < x ->
  round_pos x - x <= pow2 (ulp_exp x) * (1 # 2) /\
  x - round_pos x <= pow2 (ulp_exp x) * (1 # 2).
Proof.
  intros Hx. unfold round_pos. set (p := pow2 (ulp_exp x)).
  assert (Hp : 0 < p) by apply pow2_pos.
  destruct (rne_near (x / p)) as [H1 H2].
  assert (Hxp : x / p * p == x) by (field; lra).
  set (r := inject_Z (rne (x / p))) in *.
  split; nra.
Qed.

(** For a normal number the error is at most [2^-53] of the number. *)
Lemma round_pos_relative x :
  pow2 (-1022) <= x ->
  round_pos x - x <= x * pow2 (-53) /\ x - round_pos x <= x * pow2 (-53).
Proof.
  intros Hn.
  assert (Hx : 0 < x) by (pose proof (pow2_pos (-1022)); lra).
  destruct (round_pos_near Hx) as [H1 H2].
  assert (He : ulp_exp x = (binade x - 52)%Z).
  { unfold ulp_exp. pose proof (@binade_ge x (-1022) Hx Hn). lia. }
  rewrite He in H1, H2.
  destruct (binade_spec Hx) as [Hlo _].
  assert (Hu : pow2 (binade x - 52) * (1 # 2) == pow2 (binade x) * pow2 (-53)).
  { replace (binade x - 52)%Z with (binade x + -52)%Z by lia.
    rewrite pow2_add. assert (pow2 (-52) * (1 # 2) == pow2 (-53)) by reflexivity.
    rewrite <- H. ring. }
  rewrite Hu in H1, H2.
  assert (Hpp : 0 < pow2 (-53)) by apply pow2_pos.
  split; nra.
Qed.

(** Rounding does not cross an integer that is on the grid. *)
Lemma round_pos_le_int x n :
  0 < x -> x <= inject_Z n -> x < pow2 53 -> round_pos x <= inject_Z n.
Proof.
  intros Hx Hn H53. unfold round_pos.
  assert (Hc : (ulp_exp x <= 0)%Z).
  { unfold ulp_exp. pose proof (@binade_lt x 53 Hx H53). lia. }
  set (c := ulp_exp x) in *. pose proof (pow2_pos c) as Hp.
  assert (Hq : inject_Z n / pow2 c == inject_Z (n * 2 ^ (- c))).
  { rewrite inject_Z_mult, <- pow2_Z by lia.
    pose proof (pow2_opp c). field_simplify_eq; [| lra]. nra. }
  assert (Hr : (rne (x / pow2 c) <= n * 2 ^ (- c))%Z).
  { apply rne_le_int. rewrite <- Hq.
    apply Qmult_le_r with (pow2 c); trivial.
    assert (E1 : x / pow2 c * pow2 c == x) by (field; lra).
    assert (E2 : inject_Z n / pow2 c * pow2 c == inject_Z n) by (field; lra).
    now rewrite E1, E2. }
  rewrite Zle_Qle in Hr. rewrite <- Hq in Hr.
  assert (E2 : inject_Z n / pow2 c * pow2 c == inject_Z n) by (field; lra).
  rewrite <- E2. apply Qmult_le_compat_r; trivial. lra.
Qed.

(** A small positive result is finite, and stays below an integer bound
    it was below before rounding. *)
Lemma to_float_small x n :
  0 < x -> x <= inject_Z n -> (n < 2 ^ 53)%Z ->
  to_float x = FFinite (round_pos x) /\
  0 <= round_pos x /\ round_pos x <= inject_Z n.
Proof.
  intros Hx Hn Hb.
  assert (H53 : x < pow2 53).
  { rewrite pow2_Z by lia. rewrite Zlt_Qlt in Hb. lra. }
  pose proof (round_pos_nonneg Hx) as H0.
  pose proof (@round_pos_le_int x n Hx Hn H53) as H1.
  split; [| now split].
  unfold to_float. rewrite (round64_pos Hx).
  destruct (Qle_bool (pow2 1024) (Qabs (round_pos x))) eqn:E; trivial.
  apply Qle_bool_iff in E. rewrite Qabs_pos in E by trivial.
  assert (inject_Z n < pow2 1024).
  { rewrite pow2_Z by lia. rewrite <- Zlt_Qlt.
    apply Z.lt_trans with (2 ^ 53)%Z; trivial. reflexivity. }
  lra.
Qed.

Lemma unit_roundoff_small n :
  0 <= n -> n < inject_Z (1920 * 2 ^ 31) ->
  2 * n * unit_roundoff + unit_roundoff < 1.
Proof.
  intros H0 H1.
  assert (E : unit_roundoff == 1 # 9007199254740992) by reflexivity.
  rewrite E. assert (E2 : inject_Z (1920 * 2 ^ 31) == 4123168604160) by reflexivity.
  rewrite E2 in H1. lra.
Qed.

(** The exact quotient and its rounding, for image dimensions. *)
Lemma aspect_spec (w h : Z) :
  (0 < w < 2 ^ 31)%Z -> (0 < h < 2 ^ 31)%Z ->
  let x := inject_Z w / inject_Z h in
  let a := round_pos x in
  0 < x /\ x * inject_Z h == inject_Z w /\
  int_truediv w h = Ok a /\
  x * (1 - unit_roundoff) <= a /\ a <= x * (1 + unit_roundoff) /\
  a <= inject_Z w.
Proof.
  intros Hw Hh x a.
  assert (HW : 1 <= inject_Z w) by (change 1 with (inject_Z 1); rewrite <- Zle_Qle; lia).
  assert (HH : 1 <= inject_Z h) by (change 1 with (inject_Z 1); rewrite <- Zle_Qle; lia).
  assert (HH2 : inject_Z h < inject_Z (2 ^ 31)) by (rewrite <- Zlt_Qlt; lia).
  assert (Hx : 0 < x) by (apply Qlt_shift_div_l; lra).
  assert (Hxh : x * inject_Z h == inject_Z w) by (unfold x; field; lra).
  assert (Hxw : x <= inject_Z w).
  { apply Qle_shift_div_r; [lra |]. nra. }
  destruct (@to_float_small x w Hx Hxw) as (Hf & H0 & H1); [lia |].
  assert (Hnorm : pow2 (-1022) <= x).
  { apply Qle_trans with (pow2 (-31)); [now apply pow2_le |].
    apply Qle_shift_div_l; [lra |].
    assert (E : pow2 (-31) * inject_Z (2 ^ 31) == 1) by reflexivity.
    assert (0 < pow2 (-31)) by apply pow2_pos. nra. }
  destruct (round_pos_relative Hnorm) as [R1 R2].
  fold a in R1, R2, H0, H1, Hf. fold unit_roundoff in R1, R2.
  repeat split; trivial; try lra.
  unfold int_truediv. destruct (Z.eqb_spec h 0); [lia |].
  fold x. now rewrite Hf.
Qed.

Lemma wide_height (w h : Z) (a : Q) :
  (0 < w < 2 ^ 31)%Z -> (0 < h < 2 ^ 31)%Z ->
  a = round_pos (inject_Z w / inject_Z h) -> 1 < a ->
  exists q,
    float_div 1920 a = Ok (FFinite q) /\
    int_of_float (FFinite q) = Ok (Qfloor q) /\
    (1920 * h - w <= Qfloor q * w <= 1920 * h)%Z.
Proof.
  intros Hw Hh Ha Ha1.
  destruct (aspect_spec Hw Hh) as (Hx & Hxh & _ & A1 & A2 & A3).
  set (x := inject_Z w / inject_Z h) in *. rewrite <- Ha in A1, A2, A3.
  set (u := unit_roundoff) in *.
  assert (HW : 1 <= inject_Z w) by (change 1 with (inject_Z 1); rewrite <- Zle_Qle; lia).
  assert (HW2 : inject_Z w < inject_Z (2 ^ 31)) by (rewrite <- Zlt_Qlt; lia).
  assert (HH : 1 <= inject_Z h) by (change 1 with (inject_Z 1); rewrite <- Zle_Qle; lia).
  assert (HH2 : inject_Z h < inject_Z (2 ^ 31)) by (rewrite <- Zlt_Qlt; lia).
  assert (E31 : inject_Z (2 ^ 31) == 2147483648) by reflexivity.
  set (y := 1920 / a).
  assert (Hya : y * a == 1920) by (unfold y; field; lra).
  assert (Hy0 : 0 < y) by (apply Qlt_shift_div_l; lra).
  assert (Hy1 : y <= inject_Z 1920).
  { apply Qle_shift_div_r; [lra |]. change (inject_Z 1920) with 1920. nra. }
  destruct (@to_float_small y 1920 Hy0 Hy1) as (Hf & Q0 & Q1); [reflexivity |].
  assert (Hnorm : pow2 (-1022) <= y).
  { apply Qle_trans with (pow2 (-31)); [now apply pow2_le |].
    apply Qle_shift_div_l; [lra |].
    assert (E : pow2 (-31) == 1 # 2147483648) by reflexivity.
    rewrite E. lra. }
  destruct (round_pos_relative Hnorm) as [R1 R2].
  set (q := round_pos y) in *. fold unit_roundoff in R1, R2. fold u in R1, R2.
  exists q. split; [| split].
  - unfold float_div. destruct (Qeq_bool a 0) eqn:E.
    + apply Qeq_bool_iff in E. lra.
    + fold y. now rewrite Hf.
  - simpl. destruct (Qle_bool 0 q) eqn:E; trivial.
    assert (Qle_bool 0 q = true) by now apply Qle_bool_iff. congruence.
  - pose proof (Qfloor_le q) as F1. pose proof (Qlt_floor q) as F2.
    rewrite inject_Z_plus in F2. change (inject_Z 1) with 1 in F2.
    set (k := Qfloor q) in *.
    assert (Hk0 : 0 <= inject_Z k).
    { change 0 with (inject_Z 0). rewrite <- Zle_Qle.
      change 0%Z with (Qfloor 0). now apply Qfloor_resp_le. }
    assert (Hu : 2 * (1920 * inject_Z h) * u + u < 1).
    { apply unit_roundoff_small; [lra |].
      rewrite inject_Z_mult. change (inject_Z 1920) with 1920. lra. }
    assert (Hu0 : 0 < u) by apply pow2_pos.
    assert (K1 : inject_Z k * a <= 1920 * (1 + u)).
    { apply Qle_trans with (y * (1 + u) * a); [| rewrite <- Hya; lra].
      apply Qmult_le_compat_r; lra. }
    assert (K2 : inject_Z k * (x * (1 - u)) <= inject_Z k * a).
    { rewrite !(Qmult_comm (inject_Z k)). now apply Qmult_le_compat_r. }
    assert (K3 : inject_Z k * inject_Z w * (1 - u)
                 <= 1920 * inject_Z h * (1 + u)).
    { rewrite <- Hxh.
      apply Qle_trans with (inject_Z k * (x * (1 - u)) * inject_Z h);
        [lra |].
      apply Qle_trans with (1920 * (1 + u) * inject_Z h); [| lra].
      apply Qmult_le_compat_r; lra. }
    assert (L1 : 1920 * (1 - u) <= (inject_Z k + 1) * a).
    { apply Qle_trans with (y * (1 - u) * a); [rewrite <- Hya; lra |].
      apply Qmult_le_compat_r; lra. }
    assert (L2 : (inject_Z k + 1) * a <= (inject_Z k + 1) * (x * (1 + u))).
    { rewrite !(Qmult_comm (inject_Z k + 1)).
      apply Qmult_le_compat_r; lra. }
    assert (L3 : 1920 * inject_Z h * (1 - u)
                 <= (inject_Z k + 1) * inject_Z w * (1 + u)).
    { rewrite <- Hxh.
      apply Qle_trans with ((inject_Z k + 1) * (x * (1 + u)) * inject_Z h);
        [| lra].
      apply Qle_trans with (1920 * (1 - u) * inject_Z h); [lra |].
      apply Qmult_le_compat_r; lra. }
    split.
    + destruct (Z.le_gt_cases (1920 * h - w) (k * w)) as [H | H]; trivial.
      exfalso. assert (H' : (k * w + w + 1 <= 1920 * h)%Z) by lia.
      rewrite Zle_Qle in H'.
      rewrite !inject_Z_plus, !inject_Z_mult in H'.
      change (inject_Z 1920) with 1920 in H'. change (inject_Z 1) with 1 in H'.
      assert (L3' : 1920 * inject_Z h * (1 - u)
                    <= (inject_Z k * inject_Z w + inject_Z w) * (1 + u)).
      { eapply Qle_trans; [exact L3 |]. apply Qle_lteq. right. ring. }
      assert (Eu : u == 1 # 9007199254740992) by reflexivity.
      rewrite Eu in L3'.
      set (P := inject_Z k * inject_Z w) in *.
      lra.
    + destruct (Z.le_gt_cases (k * w) (1920 * h)) as [H | H]; trivial.
      exfalso. assert (H' : (1920 * h + 1 <= k * w)%Z) by lia.
      rewrite Zle_Qle in H'.
      rewrite !inject_Z_plus, !inject_Z_mult in H'.
      change (inject_Z 1920) with 1920 in H'. change (inject_Z 1) with 1 in H'.
      assert (Eu : u == 1 # 9007199254740992) by reflexivity.
      rewrite Eu in K3.
      set (P := inject_Z k * inject_Z w) in *.
      lra.
Qed.

Lemma tall_width (w h : Z) (a : Q) :
  (0 < w < 2 ^ 31)%Z -> (0 < h < 2 ^ 31)%Z ->
  a = round_pos (inject_Z w / inject_Z h) -> a <= 1 ->
  exists q,
    float_mul 1920 a = FFinite q /\
    int_of_float (FFinite q) = Ok (Qfloor q) /\
    (1920 * w - h <= Qfloor q * h <= 1920 * w)%Z.
Proof.
  intros Hw Hh Ha Ha1.
  destruct (aspect_spec Hw Hh) as (Hx & Hxh & _ & A1 & A2 & A3).
  set (x := inject_Z w / inject_Z h) in *. rewrite <- Ha in A1, A2, A3.
  assert (Eu : unit_roundoff == 1 # 9007199254740992) by reflexivity.
  rewrite Eu in A1, A2.
  assert (HW : 1 <= inject_Z w) by (change 1 with (inject_Z 1); rewrite <- Zle_Qle; lia).
  assert (HW2 : inject_Z w < inject_Z (2 ^ 31)) by (rewrite <- Zlt_Qlt; lia).
  assert (HH : 1 <= inject_Z h) by (change 1 with (inject_Z 1); rewrite <- Zle_Qle; lia).
  assert (HH2 : inject_Z h < inject_Z (2 ^ 31)) by (rewrite <- Zlt_Qlt; lia).
  assert (E31 : inject_Z (2 ^ 31) == 2147483648) by reflexivity.
  assert (Hx31 : 1 # 2147483648 <= x).
  { apply Qle_shift_div_l; lra. }
  set (y := 1920 * a).
  assert (Hy0 : 0 < y) by (unfold y; lra).
  assert (Hy1 : y <= inject_Z 1920).
  { change (inject_Z 1920) with 1920. unfold y. lra. }
  destruct (@to_float_small y 1920 Hy0 Hy1) as (Hf & Q0 & Q1); [reflexivity |].
  assert (Hnorm : pow2 (-1022) <= y).
  { apply Qle_trans with (pow2 (-31)); [now apply pow2_le |].
    assert (E : pow2 (-31) == 1 # 2147483648) by reflexivity.
    rewrite E. unfold y. lra. }
  destruct (round_pos_relative Hnorm) as [R1 R2].
  set (q := round_pos y) in *. fold unit_roundoff in R1, R2.
  rewrite Eu in R1, R2.
  exists q. split; [| split].
  - unfold float_mul. fold y. exact Hf.
  - simpl. destruct (Qle_bool 0 q) eqn:E; trivial.
    assert (Qle_bool 0 q = true) by now apply Qle_bool_iff. congruence.
  - pose proof (Qfloor_le q) as F1. pose proof (Qlt_floor q) as F2.
    rewrite inject_Z_plus in F2. change (inject_Z 1) with 1 in F2.
    set (k := Qfloor q) in *.
    assert (K1 : inject_Z k * inject_Z h
                 <= 1920 * (1 + (1 # 9007199254740992))
                    * (1 + (1 # 9007199254740992)) * inject_Z w).
    { rewrite <- Hxh.
      apply Qle_trans with
        (1920 * (1 + (1 # 9007199254740992))
         * (1 + (1 # 9007199254740992)) * x * inject_Z h); [| lra].
      apply Qmult_le_compat_r; [unfold y in *; lra | lra]. }
    assert (L1 : 1920 * (1 - (1 # 9007199254740992))
                 * (1 - (1 # 9007199254740992)) * inject_Z w
                 <= (inject_Z k + 1) * inject_Z h).
    { rewrite <- Hxh.
      apply Qle_trans with
        (1920 * (1 - (1 # 9007199254740992))
         * (1 - (1 # 9007199254740992)) * x * inject_Z h); [lra |].
      apply Qmult_le_compat_r; [unfold y in *; lra | lra]. }
    split.
    + destruct (Z.le_gt_cases (1920 * w - h) (k * h)) as [H | H]; trivial.
      exfalso. assert (H' : (k * h + h + 1 <= 1920 * w)%Z) by lia.
      rewrite Zle_Qle in H'.
      rewrite !inject_Z_plus, !inject_Z_mult in H'.
      change (inject_Z 1920) with 1920 in H'. change (inject_Z 1) with 1 in H'.
      assert (L1' : 1920 * (1 - (1 # 9007199254740992))
                    * (1 - (1 # 9007199254740992)) * inject_Z w
                    <= inject_Z k * inject_Z h + inject_Z h).
      { eapply Qle_trans; [exact L1 |]. apply Qle_lteq. right. ring. }
      set (P := inject_Z k * inject_Z h) in *.
      lra.
    + destruct (Z.le_gt_cases (k * h) (1920 * w)) as [H | H]; trivial.
      exfalso. assert (H' : (1920 * w + 1 <= k * h)%Z) by lia.
      rewrite Zle_Qle in H'.
      rewrite !inject_Z_plus, !inject_Z_mult in H'.
      change (inject_Z 1920) with 1920 in H'. change (inject_Z 1) with 1 in H'.
      set (P := inject_Z k * inject_Z h) in *.
      lra.
Qed.

(** [aspect > 1] tells the wide images from the others. *)
Lemma aspect_gt_1 (w h : Z) :
  (0 < w < 2 ^ 31)%Z -> (0 < h < 2 ^ 31)%Z ->
  (1 < round_pos (inject_Z w / inject_Z h) <-> (h < w)%Z).
Proof.
  intros Hw Hh.
  destruct (aspect_spec Hw Hh) as (Hx & Hxh & _ & A1 & A2 & A3).
  set (x := inject_Z w / inject_Z h) in *.
  set (a := round_pos x) in *.
  assert (Eu : unit_roundoff == 1 # 9007199254740992) by reflexivity.
  rewrite Eu in A1, A2.
  assert (HH : 1 <= inject_Z h) by (change 1 with (inject_Z 1); rewrite <- Zle_Qle; lia).
  assert (HH2 : inject_Z h < inject_Z (2 ^ 31)) by (rewrite <- Zlt_Qlt; lia).
  assert (E31 : inject_Z (2 ^ 31) == 2147483648) by reflexivity.
  split.
  - intros Ha. destruct (Z.lt_ge_cases h w) as [H | H]; trivial. exfalso.
    assert (Hx1 : x <= inject_Z 1).
    { change (inject_Z 1) with 1. apply Qle_shift_div_r; [lra |].
      rewrite Zle_Qle in H. lra. }
    assert (H53 : x < pow2 53).
    { assert (E : pow2 53 == 9007199254740992) by reflexivity.
      rewrite E. change (inject_Z 1) with 1 in Hx1. lra. }
    pose proof (@round_pos_le_int x 1 Hx Hx1 H53) as Hle.
    fold a in Hle. change (inject_Z 1) with 1 in Hle. lra.
  - intros H. assert (H' : (h + 1 <= w)%Z) by lia.
    rewrite Zle_Qle, inject_Z_plus in H'. change (inject_Z 1) with 1 in H'.
    assert (Hx1 : 1 + (1 # 2147483648) <= x).
    { apply Qle_shift_div_l; [lra |]. lra. }
    lra.
Qed.

(** The size computed for a source image of [w] by [h] pixels. *)
Lemma i2i_size_scaled (w h : Z) :
  (0 < w < 2 ^ 31)%Z -> (0 < h < 2 ^ 31)%Z ->
  exists w' h',
    i2i_size w h = Ok (w', h') /\
    ((3686400 < w * h)%Z ->
       Z.max w' h' = 1920%Z /\ (0 <= w' * h' <= 3686400)%Z /\
       ((h < w)%Z -> w' = 1920%Z /\ (1920 * h - w <= h' * w <= 1920 * h)%Z) /\
       ((w <= h)%Z -> h' = 1920%Z /\ (1920 * w - h <= w' * h <= 1920 * w)%Z))
    /\ ((w * h <= 3686400)%Z -> w' = w /\ h' = h).
Proof.
  intros Hw Hh.
  destruct (aspect_spec Hw Hh) as (_ & _ & Hdiv & _).
  pose proof (aspect_gt_1 Hw Hh) as Hgt.
  set (a := round_pos (inject_Z w / inject_Z h)) in *.
  unfold i2i_size. rewrite Hdiv. cbn [rbind].
  destruct (Z.ltb_spec 3686400 (w * h)) as [Hbig | Hsmall].
  2:{ exists w, h. split; trivial. split; [lia | auto]. }
  destruct (Qle_bool a 1) eqn:E; cbn [negb].
  - apply Qle_bool_iff in E.
    assert (Hwh : (w <= h)%Z).
    { destruct (Z.le_gt_cases w h); trivial.
      assert (1 < a) by (apply Hgt; lia). lra. }
    destruct (@tall_width w h a Hw Hh eq_refl E) as (q & Hq & Hi & Hb).
    rewrite Hq, Hi. cbn [rbind]. exists (Qfloor q), 1920%Z.
    split; trivial. split; [| lia]. intros _.
    assert (0 <= Qfloor q <= 1920)%Z by nia.
    split; [lia | split; [nia | split; [lia | auto]]].
  - assert (Ha : 1 < a).
    { apply Qnot_le_lt. intros H. apply Qle_bool_iff in H. congruence. }
    assert (Hwh : (h < w)%Z) by now apply Hgt.
    destruct (@wide_height w h a Hw Hh eq_refl Ha) as (q & Hq & Hi & Hb).
    rewrite Hq. cbn [rbind]. rewrite Hi. cbn [rbind].
    exists 1920%Z, (Qfloor q).
    split; trivial. split; [| lia]. intros _.
    assert (0 <= Qfloor q < 1920)%Z by nia.
    split; [lia | split; [nia | split; [auto | lia]]].
Qed.

End Rounding.

(** Between [n / d - 1] and [n / d] the integers are the integer part of
    [n / d] and, when [d] divides [n], the one below it. *)
Lemma truncation_from_bounds (x n d : Z) :
  0 < d -> n - d <= x * d <= n -> truncation_or_below x n d.
Proof.
  intros Hd [Hlo Hhi]. unfold truncation_or_below.
  pose proof (Z.div_mod n d ltac:(lia)) as E.
  pose proof (Z.mod_pos_bound n d Hd) as Hr.
  destruct (Z.eq_dec (n mod d) 0) as [H0 | H0].
  - assert (x <= n / d) by nia. assert (n / d - 1 <= x) by nia.
    destruct (Z.eq_dec x (n / d)); [now left | right; split; [trivial | lia]].
  - left. assert (x <= n / d) by nia. assert (n / d - 1 < x) by nia. lia.
Qed.

(** C9, as the code has it.  When [i2i] has downloaded a source image of
    [w] by [h] pixels (positive, below 2^31), the size it computes is
    [(w', h')] with: if [w * h > 3686400], the larger of the two is 1920,
    the area is at most 3686400, and the other side is the truncation of
    a double-precision quotient or product: it is the integer part of the
    exact proportional value, or one pixel below it when that value is
    itself an integer; otherwise [w' = w] and [h' = h].  Every job the
    command then submits carries [w'] and [h'] as the width and height of
    node ["51"]. *)
Theorem i2i_submits_scaled_size (py : pylib) (net : outside)
  (client_id text image_url : string) (denoise : json)
  (data : bytes) (image : pil_image) :
  http_download net image_url = Ok data ->
  Image_open py data = Ok image ->
  0 < im_width image < 2 ^ 31 ->
  0 < im_height image < 2 ^ 31 ->
  let w := im_width image in
  let h := im_height image in
  exists w' h',
    i2i_size w h = Ok (w', h') /\
    (3686400 < w * h ->
       Z.max w' h' = 1920 /\ 0 <= w' * h' <= 3686400 /\
       (h < w -> w' = 1920 /\ 1920 * h - w <= h' * w <= 1920 * h /\
                 truncation_or_below h' (1920 * h) w) /\
       (w <= h -> h' = 1920 /\ 1920 * w - h <= w' * h <= 1920 * w /\
                  truncation_or_below w' (1920 * w) h))
    /\ (w * h <= 3686400 -> w' = w /\ h' = h)
    /\ forall url body,
         In (HttpPost url body)
            (trace (snd (run (i2i py net client_id text image_url denoise)))) ->
         exists prompt,
           body = submission_body py client_id prompt /\
           get_input prompt "51" "width" = Ok (JInt w') /\
           get_input prompt "51" "height" = Ok (JInt h').
Proof.
  intros Hd Hi Hw Hh w h.
  destruct (i2i_size_scaled Hw Hh) as (w' & h' & Hs & Hbig & Hsmall).
  exists w', h'. split; [assumption |]. split; [| split; [assumption |]].
  { intros Hlarge. destruct (Hbig Hlarge) as (Hmax & Harea & Hwide & Htall).
    split; [assumption |]. split; [assumption |]. split.
    - intros Hlt. destruct (Hwide Hlt) as [-> Hb].
      split; [reflexivity |]. split; [exact Hb |].
      apply truncation_from_bounds; [apply Hw | exact Hb].
    - intros Hle. destruct (Htall Hle) as [-> Hb].
      split; [reflexivity |]. split; [exact Hb |].
      apply truncation_from_bounds; [apply Hh | exact Hb]. }
  intros url body Hin.
  apply generation_trace_post
    with (1 := i2i_trace py net client_id text image_url denoise) in Hin.
  destruct Hin as (prompt & w0 & w1 & Hrun & _ & ->).
  exists prompt. split; trivial.
  apply i2i_prompt_inputs in Hrun.
  destruct Hrun as (data' & image' & size & Hd' & Hi' & Hs' & Hgw & Hgh).
  rewrite Hd in Hd'. injection Hd' as <-.
  rewrite Hi in Hi'. injection Hi' as <-.
  rewrite Hs in Hs'. injection Hs' as <-.
  now split.
Qed.

(** A wide image whose proportional height is exactly 1692. *)
Lemma i2i_submits_scaled_size_witness :
  let w := 7200 in
  let h := 6345 in
  exists w' h',
    i2i_size w h = Ok (w', h') /\
    (3686400 < w * h ->
       Z.max w' h' = 1920 /\ 0 <= w' * h' <= 3686400 /\
       (h < w -> w' = 1920 /\ 1920 * h - w <= h' * w <= 1920 * h /\
                 truncation_or_below h' (1920 * h) w) /\
       (w <= h -> h' = 1920 /\ 1920 * w - h <= w' * h <= 1920 * w /\
                  truncation_or_below w' (1920 * w) h))
    /\ (w * h <= 3686400 -> w' = w /\ h' = h)
    /\ forall url body,
         In (HttpPost url body)
            (trace (snd (run (i2i Scenario.py
                                (Scenario.net Scenario.history_one)
                                Scenario.identifier "a cat"
                                "https://cdn.example/wide.png"
                                default_denoise)))) ->
         exists prompt,
           body = submission_body Scenario.py Scenario.identifier prompt /\
           get_input prompt "51" "width" = Ok (JInt w') /\
           get_input prompt "51" "height" = Ok (JInt h').
Proof.
  apply (@i2i_submits_scaled_size Scenario.py
           (Scenario.net Scenario.history_one) Scenario.identifier "a cat"
           "https://cdn.example/wide.png" default_denoise
           (Scenario.data "wide")
           {| im_width := 7200; im_height := 6345;
              im_png := Ok (Scenario.data "wide") |});
    [reflexivity | reflexivity | simpl; lia | simpl; lia].
Defined.

(** C9 as stated fails: a source image of 7200 by 6345 pixels is scaled
    to 1920 by 1691, although 1920 by 1692 has exactly its aspect ratio:
    the quotient [7200 / 6345] is rounded, [1920] divided by it is
    rounded again, and the result falls just below 1692. *)
Lemma i2i_size_below_the_truncation :
  3686400 < 7200 * 6345
  /\ truncated_size 7200 6345 = (1920, 1692)
  /\ 1692 * 7200 = 1920 * 6345
  /\ i2i_size 7200 6345 = Ok (1920, 1691)
  /\ i2i_size 7200 6345 <> Ok (truncated_size 7200 6345).
Proof.
  split; [reflexivity |]. split; [reflexivity |]. split; [reflexivity |].
  assert (E : i2i_size 7200 6345 = Ok (1920, 1691)) by (vm_compute; reflexivity).
  split; [exact E |]. rewrite E. discriminate.
Qed.

(* ================================================================= *)
(** ** Further properties of the commands *)

(** The end-to-end scenario.  The submission returns job ["abc"]; the
    stream yields the end of job ["xyz"], a binary frame, then the end
    of job ["abc"]; the history of ["abc"] lists node ["9"] with the
    image [out.png], which the backend serves as [PNGDATA].
    [process_images] returns [{"9": [b"PNGDATA"]}], after connecting,
    sending the graph, submitting it, reading the three frames, fetching
    the history and the image, and closing the socket. *)
Theorem process_images_end_to_end :
  let it :=
    run (process_images Scenario.py (Scenario.net Scenario.history_one)
           Scenario.identifier server_address Scenario.identifier
           Scenario.flux_template) in
  fst it = Ret [(JStr "9", [Scenario.data "PNGDATA"])]
  /\ trace (snd it) =
     [ WsConnect (ws_uri server_address Scenario.identifier);
       WsSend (Scenario.dumps Scenario.flux_template);
       HttpPost prompt_url
         (submission_body Scenario.py Scenario.identifier
            Scenario.flux_template);
       WsRecv (TextFrame
                 (Scenario.dumps (Scenario.executing JNull (JStr "xyz"))));
       WsRecv (BinaryFrame (Scenario.data "preview"));
       WsRecv (TextFrame
                 (Scenario.dumps (Scenario.executing JNull (JStr "abc"))));
       HttpGet (history_url Scenario.py (JStr "abc"));
       HttpGet (Scenario.view "out.png");
       WsClose ].
Proof. split; vm_compute; reflexivity. Qed.





Section Blocks.

Variable py : pylib.
Variable net : outside.
Variable client_id : string.








End Blocks.


Lemma report_returns (e : exn) (w : world) : fst (report e w) = Ret tt.
Proof. now destruct e. Qed.

Lemma report_i2i_returns (e : exn) (w : world) : fst (report_i2i e w) = Ret tt.
Proof. now destruct e. Qed.

Lemma handled {A} (m : M A) (handler : exn -> M unit) (k : A -> M unit)
  (w : world) (e : exn) :
  (forall e' w', fst (handler e' w') = Ret tt) ->
  fst (bind (effect Defer (Ok tt))
         (fun _ => try_except (bind m k) handler) w) <> Raise e.
Proof.
  intros Hh. unfold bind at 1. unfold effect. simpl. unfold try_except.
  destruct (bind m k (emit Defer w)) as [[[] | e' |] w'] eqn:E; simpl;
    try discriminate.
  rewrite Hh. discriminate.
Qed.

(** No exception leaves a command: whatever is raised while the graph is
    built, sent, awaited or fetched is caught by the handler, logged, and
    answered with one of the two apologies.  A command returns, or waits
    for ever on a silent connection. *)
Theorem commands_never_raise (py : pylib) (net : outside) (p : process)
  (c : invocation) (w : world) (e : exn) :
  fst (invoke py net p c w) <> Raise e.
Proof.
  destruct c as [text width height | text image_url denoise | image_url];
    simpl.
  - unfold img_command, img. apply handled. apply report_returns.
  - unfold i2i. apply handled. apply report_i2i_returns.
  - unfold des. apply handled. apply report_returns.
Qed.

(** The sizes [i2i] computes for some source images, as CPython computes
    them: a small image keeps its size; a tall one is scaled to width
    979 where the proportional width is exactly 980; a strip one pixel
    wide is scaled to width 0; an image without height makes the
    division raise. *)
Theorem i2i_size_examples :
  i2i_size 1024 768 = Ok (1024, 768)
  /\ i2i_size 1920 1920 = Ok (1920, 1920)
  /\ i2i_size 4000 3000 = Ok (1920, 1440)
  /\ i2i_size 5880 11520 = Ok (979, 1920)
  /\ i2i_size 1 4000000 = Ok (0, 1920)
  /\ i2i_size 640 0 = Err ZeroDivisionError.
Proof. repeat split; vm_compute; reflexivity. Qed.

(* ================================================================= *)
(** ** Theorems: the deliveries *)

Lemma extended_nil (w : world) : extended w [] = w.
Proof. destruct w. unfold extended. simpl. now rewrite app_nil_r. Qed.

Lemma extended_extended (w : world) (a b : list event) :
  extended (extended w a) b = extended w (a ++ b).
Proof. unfold extended. simpl. now rewrite app_assoc. Qed.

Lemma emit_extended (ev : event) (w : world) : emit ev w = extended w [ev].
Proof. reflexivity. Qed.

Lemma lookup_listed {V} (images : list (json * V)) k v :
  Forall is_str (assoc_keys images) ->
  NoDup (assoc_keys images) ->
  In (k, v) images ->
  assoc_get py_eq images k = Some v.
Proof.
  induction images as [| [k0 v0] m IH]; simpl; intros Hs Hnd Hin;
    [contradiction |].
  inversion Hs as [| ? ? Hk0 Hs']; inversion Hnd as [| ? ? Hn Hnd']; subst.
  destruct Hin as [E | Hin].
  - injection E as -> ->. destruct Hk0 as [s ->]. simpl.
    now rewrite String.eqb_refl.
  - assert (Hk : is_str k).
    { apply (proj1 (Forall_forall _ _) Hs'). apply in_map_iff.
      now exists (k, v). }
    destruct (py_eq k0 k) eqn:E.
    + apply py_eq_is_str in E; trivial. subst k0. exfalso. apply Hn.
      apply in_map_iff. now exists (k, v).
    + now apply IH.
Qed.

Section Deliveries.

Variable py : pylib.

Local Abbreviation deliver node_id :=
  (fun (image_data : bytes) (_ : unit) =>
     image <- lift (Image_open py image_data) ;;
     image_binary <- lift (im_png image) ;;
     ctx_send_file (py_str py node_id ++ ".png") image_binary)%M.

Lemma deliver_node node_id datas pngs :
  Forall2 (reencoded py) datas pngs ->
  forall w,
    for_each datas (deliver node_id) tt w =
    (Ret tt, extended w (node_files py node_id pngs)).
Proof.
  induction 1 as [| data png datas pngs (image & Ho & Hp) _ IH]; intros w;
    simpl.
  - now rewrite extended_nil.
  - unfold bind at 1. unfold bind at 1. rewrite Ho. simpl.
    unfold bind at 1. rewrite Hp. simpl.
    unfold ctx_send_file, effect. simpl. rewrite IH.
    now rewrite emit_extended, extended_extended.
Qed.

Lemma deliver_node_stops node_id ok pngs bad rest e :
  Forall2 (reencoded py) ok pngs ->
  Image_open py bad = Err e \/
  (exists image, Image_open py bad = Ok image /\ im_png image = Err e) ->
  forall w,
    for_each (ok ++ bad :: rest) (deliver node_id) tt w =
    (Raise e, extended w (node_files py node_id pngs)).
Proof.
  intros Hok Hbad.
  induction Hok as [| data png ok pngs (image & Ho & Hp) _ IH]; intros w;
    simpl.
  - rewrite extended_nil. unfold bind at 1. unfold bind at 1.
    destruct Hbad as [Hb | (image & Hb & Hs)]; rewrite Hb; simpl; trivial.
    unfold bind at 1. now rewrite Hs.
  - unfold bind at 1. unfold bind at 1. rewrite Ho. simpl.
    unfold bind at 1. rewrite Hp. simpl.
    unfold ctx_send_file, effect. simpl. rewrite IH.
    now rewrite emit_extended, extended_extended.
Qed.

Local Abbreviation visit images :=
  (fun (node_id : json) (_ : unit) =>
     match assoc_get py_eq images node_id with
     | None => raise (KeyError node_id)
     | Some datas => for_each datas (deliver node_id) tt
     end).

Lemma send_listed (images : list (json * list bytes)) :
  forall l pngs,
    Forall2 (fun node => Forall2 (reencoded py) (snd node)) l pngs ->
    (forall node, In node l ->
       assoc_get py_eq images (fst node) = Some (snd node)) ->
    forall w,
      for_each (assoc_keys l) (visit images) tt w =
      (Ret tt, extended w (files py (assoc_keys l) pngs)).
Proof.
  intros l pngs Hall.
  induction Hall as [| node ps l pngs Hnode _ IH]; intros Hin w; simpl.
  - now rewrite extended_nil.
  - unfold bind at 1. rewrite (Hin node (or_introl eq_refl)).
    rewrite (deliver_node (fst node) Hnode).
    rewrite IH by (intros n H; apply Hin; now right).
    rewrite extended_extended. reflexivity.
Qed.

Lemma for_each_app {A S} (body : A -> S -> M S) (l1 l2 : list A) :
  forall st w,
    for_each (l1 ++ l2) body st w =
    bind (for_each l1 body st) (fun st' => for_each l2 body st') w.
Proof.
  induction l1 as [| x l1 IH]; intros st w; simpl; trivial.
  unfold bind. destruct (body x st w) as [[st' | e |] w']; trivial.
Qed.

(** When PIL opens and saves every image, the delivery loop sends one
    attachment per image, node by node and in listed order, each named
    after its node, and nothing else. *)
Theorem send_images_delivers (images : list (json * list bytes))
  (pngs : list (list bytes)) (w : world) :
  Forall is_str (assoc_keys images) ->
  NoDup (assoc_keys images) ->
  Forall2 (fun node => Forall2 (reencoded py) (snd node)) images pngs ->
  send_images py images w =
  (Ret tt, extended w (files py (assoc_keys images) pngs)).
Proof.
  intros Hs Hnd Hall. unfold send_images.
  apply send_listed; trivial.
  intros [k v] Hin. now apply lookup_listed.
Qed.

(** An image that PIL cannot open, or cannot save, stops the delivery
    with that exception: the attachments before it have been sent, the
    images after it and the nodes after its node are not. *)
Theorem send_images_stops_at_bad_image (pre post : list (json * list bytes))
  (node_id : json) (ok rest : list bytes) (bad : bytes)
  (pngs_pre : list (list bytes)) (pngs_ok : list bytes) (e : exn)
  (w : world) :
  let images := (pre ++ (node_id, ok ++ bad :: rest) :: post)%list in
  Forall is_str (assoc_keys images) ->
  NoDup (assoc_keys images) ->
  Forall2 (fun node => Forall2 (reencoded py) (snd node)) pre pngs_pre ->
  Forall2 (reencoded py) ok pngs_ok ->
  Image_open py bad = Err e \/
  (exists image, Image_open py bad = Ok image /\ im_png image = Err e) ->
  send_images py images w =
  (Raise e,
   extended w
     (files py (assoc_keys pre) pngs_pre ++ node_files py node_id pngs_ok)).
Proof.
  intros images Hs Hnd Hpre Hok Hbad. unfold send_images.
  assert (Hlook : forall node, In node images ->
            assoc_get py_eq images (fst node) = Some (snd node)).
  { intros [k v] Hin. now apply lookup_listed. }
  unfold images at 1. unfold assoc_keys. rewrite map_app.
  rewrite for_each_app. unfold bind at 1.
  fold (assoc_keys pre).
  rewrite (@send_listed images pre pngs_pre Hpre).
  2:{ intros n H. apply Hlook. apply in_or_app. now left. }
  simpl. unfold bind at 1.
  assert (Hnode : assoc_get py_eq images node_id
                  = Some (ok ++ bad :: rest)%list).
  { apply (Hlook (node_id, (ok ++ bad :: rest)%list)).
    apply in_or_app. right. now left. }
  rewrite Hnode.
  rewrite (@deliver_node_stops node_id ok pngs_ok bad rest e Hok Hbad).
  now rewrite extended_extended.
Qed.

End Deliveries.

Lemma send_images_delivers_witness :
  send_images Scenario.py
    [(JStr "9", [Scenario.data "A"; Scenario.data "B"]);
     (JStr "12", [Scenario.data "C"])] idle =
  (Ret tt,
   extended idle
     (files Scenario.py [JStr "9"; JStr "12"]
        [[Scenario.data "A"; Scenario.data "B"]; [Scenario.data "C"]])).
Proof.
  apply (@send_images_delivers Scenario.py
           [(JStr "9", [Scenario.data "A"; Scenario.data "B"]);
            (JStr "12", [Scenario.data "C"])]
           [[Scenario.data "A"; Scenario.data "B"]; [Scenario.data "C"]]
           idle).
  - repeat constructor; now eexists.
  - repeat constructor; simpl; intuition discriminate.
  - repeat constructor; eexists; split; reflexivity.
Defined.

(** The second image of node ["9"] is no image: the first has been sent,
    the third and node ["12"] are not. *)
Lemma send_images_stops_at_bad_image_witness :
  send_images (Faults.picky "X" Scenario.py)
    ([] ++ (JStr "9", [Scenario.data "A"] ++ Scenario.data "X"
                        :: [Scenario.data "B"])
        :: [(JStr "12", [Scenario.data "C"])])%list idle =
  (Raise UnidentifiedImageError,
   extended idle
     (files (Faults.picky "X" Scenario.py)
        (assoc_keys (@nil (json * list bytes))) [] ++
      node_files (Faults.picky "X" Scenario.py) (JStr "9")
        [Scenario.data "A"])).
Proof.
  apply (@send_images_stops_at_bad_image (Faults.picky "X" Scenario.py)
           [] [(JStr "12", [Scenario.data "C"])] (JStr "9")
           [Scenario.data "A"] [Scenario.data "B"] (Scenario.data "X")
           [] [Scenario.data "A"] UnidentifiedImageError idle).
  - repeat constructor; now eexists.
  - repeat constructor; simpl; intuition discriminate.
  - constructor.
  - repeat constructor. eexists. split; reflexivity.
  - left. reflexivity.
Defined.

(* ================================================================= *)
(** ** Theorems: a command from end to end *)

Lemma bind_fst_Ret {A B} (m : M A) (k : A -> M B) (w : world) (a : A) :
  fst (m w) = Ret a -> bind m k w = k a (snd (m w)).
Proof. unfold bind. destruct (m w) as [o w']. simpl. now intros ->. Qed.

Lemma bind_fst_Raise {A B} (m : M A) (k : A -> M B) (w : world) (e : exn) :
  fst (m w) = Raise e -> bind m k w = (Raise e, snd (m w)).
Proof. unfold bind. destruct (m w) as [o w']. simpl. now intros ->. Qed.

Lemma within_5_fetches (evs : list event) :
  within 5 5 evs -> Forall (fun ev => is_image_fetch ev = true) evs.
Proof.
  intros [_ H]. eapply Forall_impl; [| exact H].
  intros ev Hev. destruct ev; simpl in *; trivial; lia.
Qed.

Section Composition.

Variable py : pylib.
Variable net : outside.
Variable client_id : string.

Local Abbreviation uri := (ws_uri server_address client_id).
Local Abbreviation posted prompt :=
  (HttpPost prompt_url (submission_body py client_id prompt)).

Lemma submit_ok prompt w body response pid :
  urlopen_post net prompt_url (submission_body py client_id prompt) = Ok body ->
  json_loads_bytes py body = Some response ->
  getitem response "prompt_id" = Ok pid ->
  submit py net client_id prompt w = (Ret pid, emit (posted prompt) w).
Proof.
  intros Hpost Hloads Hpid.
  unfold submit, queue_prompt, bind, http_post, effect.
  fold (submission_body py client_id prompt). rewrite Hpost. simpl.
  unfold loads_bytes. rewrite Hloads. simpl. now rewrite Hpid.
Qed.

Lemma submit_refused prompt w e :
  urlopen_post net prompt_url (submission_body py client_id prompt) = Err e ->
  submit py net client_id prompt w = (Raise e, emit (posted prompt) w).
Proof.
  intros Hpost.
  unfold submit, queue_prompt, bind, http_post, effect.
  fold (submission_body py client_id prompt). now rewrite Hpost.
Qed.

(** The three steps of [get_images] composed: when the backend accepts
    the submission as job [job], the stream holds decoys and then the
    frame that ends [job], and every node of the history of [job] lists
    images the backend serves, [get_images] returns the images of every
    node in listed order; it has posted the submission, read the decoys
    and the terminating frame and no frame after it, and then made only
    [GET] requests. *)
Lemma get_images_completes (prompt : json) (w : world)
  (body0 : bytes) (response0 : json) (job : string)
  (decoys rest : list frame) (t : frame)
  (body : bytes) (response history : json) (nodes : list (string * json))
  (images : list (list bytes)) :
  urlopen_post net prompt_url (submission_body py client_id prompt) = Ok body0 ->
  json_loads_bytes py body0 = Some response0 ->
  getitem response0 "prompt_id" = Ok (JStr job) ->
  ws_frames (inbox w) = (decoys ++ t :: rest)%list ->
  Forall (decoy py (JStr job)) decoys ->
  terminating py (JStr job) t ->
  urlopen_get net (history_url py (JStr job)) = Ok body ->
  json_loads_bytes py body = Some response ->
  getitem response job = Ok history ->
  getitem history "outputs" = Ok (JObj nodes) ->
  NoDup (map fst nodes) ->
  all_with_images py net nodes images ->
  fst (get_images py net client_id prompt w) =
    Ret (combine (map (fun node => JStr (fst node)) nodes) images)
  /\ exists fetches,
       Forall (fun ev => is_image_fetch ev = true) fetches /\
       trace (snd (get_images py net client_id prompt w)) =
       (trace w ++ posted prompt :: map WsRecv (decoys ++ [t]) ++ fetches)%list.
Proof.
  intros Hpost Hl0 Hpid Hw Hdec Ht Hget Hl Hjob Ho Hnd Hall.
  set (w2 := received (emit (posted prompt) w) (decoys ++ [t]) rest).
  assert (E : get_images py net client_id prompt w =
              fetch_results py net (JStr job) w2).
  { unfold get_images. unfold bind at 1.
    rewrite (submit_ok prompt w Hpost Hl0 Hpid).
    unfold bind at 1.
    now rewrite (@await_completion_returns py (JStr job)
                   (emit (posted prompt) w) decoys rest t Hw Hdec Ht). }
  rewrite E.
  pose proof (@fetch_results_listed py net job w2 body response history
                nodes images Hget Hl Hjob Ho Hnd Hall) as Hf.
  destruct (staged_fetch_results py net (JStr job) w2) as (evs & Htr & Hin).
  split; [exact Hf |].
  exists evs. split; [now apply within_5_fetches |].
  rewrite Htr. unfold w2. simpl. rewrite <- !app_assoc. reflexivity.
Qed.

Lemma connected {A} (prompt : json) (address identifier : string)
  (session : ws_session) (m : M A) (w : world) :
  ws_server net (ws_uri address identifier) = Ok session ->
  bind (ws_connect net (ws_uri address identifier))
    (fun _ => scoped (bind (ws_send (json_dumps py prompt)) (fun _ => m))
                WsClose) w =
  scoped m WsClose
    (extended {| inbox := session; trace := trace w |}
       [WsConnect (ws_uri address identifier);
        WsSend (json_dumps py prompt)]).
Proof.
  intros Hs. unfold bind at 1. unfold ws_connect. rewrite Hs.
  unfold scoped, bind, ws_send, effect, lift, ret, emit, extended. simpl.
  now rewrite <- app_assoc.
Qed.

(** [process_images] from end to end.  When the connection opens, the
    backend accepts the submission as job [job], the stream holds decoys
    and then the frame that ends [job], and every node of the history
    lists images the backend serves, [process_images] returns the images
    of every node in listed order, and its effects are: the connection
    to the address and with the identifier it was given, the frame with
    the graph, the submission (to the module's address, with the
    module's identifier), the frames up to the terminating one, [GET]
    requests, the close. *)
Theorem process_images_returns (address identifier : string) (prompt : json)
  (w : world) (session : ws_session)
  (body0 : bytes) (response0 : json) (job : string)
  (decoys rest : list frame) (t : frame)
  (body : bytes) (response history : json) (nodes : list (string * json))
  (images : list (list bytes)) :
  ws_server net (ws_uri address identifier) = Ok session ->
  ws_frames session = (decoys ++ t :: rest)%list ->
  urlopen_post net prompt_url (submission_body py client_id prompt) = Ok body0 ->
  json_loads_bytes py body0 = Some response0 ->
  getitem response0 "prompt_id" = Ok (JStr job) ->
  Forall (decoy py (JStr job)) decoys ->
  terminating py (JStr job) t ->
  urlopen_get net (history_url py (JStr job)) = Ok body ->
  json_loads_bytes py body = Some response ->
  getitem response job = Ok history ->
  getitem history "outputs" = Ok (JObj nodes) ->
  NoDup (map fst nodes) ->
  all_with_images py net nodes images ->
  fst (process_images py net client_id address identifier prompt w) =
    Ret (combine (map (fun node => JStr (fst node)) nodes) images)
  /\ exists fetches,
       Forall (fun ev => is_image_fetch ev = true) fetches /\
       trace (snd (process_images py net client_id address identifier prompt w))
       = (trace w ++
          [WsConnect (ws_uri address identifier);
           WsSend (json_dumps py prompt); posted prompt] ++
          map WsRecv (decoys ++ [t]) ++ fetches ++ [WsClose])%list.
Proof.
  intros Hs Hfr Hpost Hl0 Hpid Hdec Ht Hget Hl Hjob Ho Hnd Hall.
  unfold process_images.
  rewrite (@connected _ prompt address identifier session _ w Hs).
  set (w1 := extended _ _).
  destruct (@get_images_completes prompt w1 body0 response0 job decoys rest t
              body response history nodes images)
    as (Hfst & fetches & Hfetch & Htr); trivial.
  unfold scoped.
  destruct (get_images py net client_id prompt w1) as [[r | e |] w2];
    simpl in Hfst; try discriminate.
  injection Hfst as ->. split; [reflexivity |].
  exists fetches. split; trivial.
  simpl in *. rewrite Htr. rewrite <- !app_assoc. simpl.
  now rewrite <- !app_assoc.
Qed.

End Composition.

(** The end-to-end scenario. *)
Lemma process_images_returns_witness :
  let it :=
    process_images Scenario.py (Scenario.net Scenario.history_one)
      Scenario.identifier "10.0.0.7:8188" "another-identifier"
      Scenario.flux_template idle in
  fst it =
    Ret (combine
           (map (fun node => JStr (fst node))
              [("9", JObj [("images", JArr [Scenario.image_ref "out.png"])])])
           [[Scenario.data "PNGDATA"]])
  /\ exists fetches,
       Forall (fun ev => is_image_fetch ev = true) fetches /\
       trace (snd it)
       = (trace idle ++
          [WsConnect (ws_uri "10.0.0.7:8188" "another-identifier");
           WsSend (json_dumps Scenario.py Scenario.flux_template);
           HttpPost prompt_url
             (submission_body Scenario.py Scenario.identifier
                Scenario.flux_template)] ++
          map WsRecv (firstn 2 Scenario.frames ++
                      [TextFrame (Scenario.dumps
                                    (Scenario.executing JNull (JStr "abc")))])
          ++ fetches ++ [WsClose])%list.
Proof.
  apply (@process_images_returns Scenario.py
           (Scenario.net Scenario.history_one) Scenario.identifier
           "10.0.0.7:8188" "another-identifier" Scenario.flux_template idle
           {| ws_frames := Scenario.frames; ws_end := None |}
           (Scenario.encode Scenario.submitted) Scenario.submitted "abc"
           (firstn 2 Scenario.frames) []
           (TextFrame (Scenario.dumps (Scenario.executing JNull (JStr "abc"))))
           (Scenario.encode Scenario.history_one) Scenario.history_one
           (JObj [("outputs",
                   JObj [("9", JObj [("images",
                                      JArr [Scenario.image_ref "out.png"])])])])
           [("9", JObj [("images", JArr [Scenario.image_ref "out.png"])])]
           [[Scenario.data "PNGDATA"]]).
  - reflexivity.
  - reflexivity.
  - reflexivity.
  - reflexivity.
  - reflexivity.
  - repeat constructor. eapply decoy_other_job; reflexivity.
  - eapply terminating_intro; reflexivity.
  - reflexivity.
  - reflexivity.
  - reflexivity.
  - reflexivity.
  - repeat constructor. simpl. tauto.
  - repeat constructor. exists [Scenario.image_ref "out.png"].
    split; [reflexivity |]. repeat constructor.
    exists (JStr "out.png"), (JStr ""), (JStr "output").
    repeat split; reflexivity.
Defined.

(* ================================================================= *)
(** ** Theorems: what a command answers *)

Lemma report_apology (e : exn) (w : world) :
  report e w = (Ret tt, emit (CtxSend (apology e)) (emit (LogError e) w)).
Proof. destruct e; reflexivity. Qed.

Lemma report_i2i_apology (e : exn) (w : world) :
  report_i2i e w =
  (Ret tt, emit (CtxSend (apology_i2i e)) (emit (LogError e) w)).
Proof. destruct e; reflexivity. Qed.

Lemma keys_combine {A B} (l : list A) (l' : list B) :
  List.length l = List.length l' -> map fst (combine l l') = l.
Proof.
  revert l'. induction l as [| a l IH]; intros [| b l'] H; simpl in *;
    try discriminate; trivial.
  injection H as H. now rewrite IH.
Qed.

Lemma Forall2_combine {A B C} (R : B -> C -> Prop) (images : list B)
  (pngs : list C) :
  Forall2 R images pngs ->
  forall keys : list A,
    List.length keys = List.length images ->
    Forall2 (fun node => R (snd node)) (combine keys images) pngs.
Proof.
  induction 1 as [| b c images pngs Hr _ IH]; intros [| k keys] H;
    simpl in *; try discriminate; constructor; trivial.
  apply IH. now injection H.
Qed.

Section Invocations.

Variable py : pylib.
Variable net : outside.
Variable p : process.

Local Abbreviation uri := (ws_uri server_address (proc_client_id p)).
Local Abbreviation posted prompt :=
  (HttpPost prompt_url (submission_body py (proc_client_id p) prompt)).

(** A command is [defer], the graph, the block, and the handler. *)
Lemma invoke_graph_fails c w e w1 :
  graph_of py net c (emit Defer w) = (Raise e, w1) ->
  invoke py net p c w =
  (Ret tt, emit (CtxSend (apology_of c e)) (emit (LogError e) w1)).
Proof.
  intros Hg.
  destruct c as [text width height | text image_url denoise | image_url];
    simpl in *.
  - unfold img_command, img. unfold bind at 1. unfold effect at 1. simpl.
    unfold try_except. unfold bind at 1. rewrite Hg. apply report_apology.
  - unfold i2i. unfold bind at 1. unfold effect at 1. simpl.
    unfold try_except. unfold bind at 1. rewrite Hg. apply report_i2i_apology.
  - unfold des. unfold bind at 1. unfold effect at 1. simpl.
    unfold try_except. unfold bind at 1. rewrite Hg. apply report_apology.
Qed.

Lemma invoke_block c w prompt w1 :
  graph_of py net c (emit Defer w) = (Ret prompt, w1) ->
  invoke py net p c w =
  match block_of py net p c prompt w1 with
  | (Raise e, w2) =>
      (Ret tt, emit (CtxSend (apology_of c e)) (emit (LogError e) w2))
  | other => other
  end.
Proof.
  intros Hg.
  destruct c as [text width height | text image_url denoise | image_url];
    simpl in *.
  - unfold img_command, img. unfold bind at 1. unfold effect at 1. simpl.
    unfold try_except. unfold bind at 1. rewrite Hg.
    destruct (run_prompt py net (proc_client_id p) prompt w1)
      as [[[] | e |] w2]; trivial. apply report_apology.
  - unfold i2i. unfold bind at 1. unfold effect at 1. simpl.
    unfold try_except. unfold bind at 1. rewrite Hg.
    destruct (run_prompt py net (proc_client_id p) prompt w1)
      as [[[] | e |] w2]; trivial. apply report_i2i_apology.
  - unfold des. unfold bind at 1. unfold effect at 1. simpl.
    unfold try_except. unfold bind at 1. rewrite Hg.
    destruct (describe py net (proc_client_id p) prompt w1)
      as [[[] | e |] w2]; trivial. apply report_apology.
Qed.

Lemma graph_of_quiet c : only quiet (graph_of py net c).
Proof.
  destruct c as [text width height | text image_url denoise | image_url];
    simpl.
  - apply only_staged with 0%nat 0%nat; [apply staged_img_prompt | now left].
  - apply only_staged with 0%nat 0%nat; [apply staged_i2i_prompt | now left].
  - apply only_des_prompt.
Qed.

(** When the graph cannot be built (the attachment cannot be downloaded
    or opened, the template is missing, is no JSON or lacks a node the
    command patches), the command opens no connection and submits
    nothing: it logs the exception, sends the handler's apology, and
    returns. *)
Theorem command_graph_fails (c : invocation) (w w1 : world) (e : exn) :
  graph_of py net c (emit Defer w) = (Raise e, w1) ->
  invoke py net p c w =
    (Ret tt, emit (CtxSend (apology_of c e)) (emit (LogError e) w1))
  /\ exists pre,
       trace w1 = (trace w ++ Defer :: pre)%list /\ Forall quiet pre.
Proof.
  intros Hg. split; [now apply invoke_graph_fails |].
  destruct (graph_of_quiet c (emit Defer w)) as (pre & Htr & Hq).
  rewrite Hg in Htr. simpl in Htr. exists pre. split; trivial.
  now rewrite Htr, <- app_assoc.
Qed.

(** When the backend refuses the WebSocket connection, nothing is sent
    to it: the command logs the exception, apologises, and returns. *)
Theorem command_connection_refused (c : invocation) (w w1 : world)
  (prompt : json) (e : exn) :
  graph_of py net c (emit Defer w) = (Ret prompt, w1) ->
  ws_server net uri = Err e ->
  invoke py net p c w =
  (Ret tt,
   extended w1 [WsConnect uri; LogError e; CtxSend (apology_of c e)]).
Proof.
  intros Hg Hs. rewrite (@invoke_block c w prompt w1 Hg).
  assert (E : block_of py net p c prompt w1 = (Raise e, emit (WsConnect uri) w1)).
  { destruct c; simpl; unfold run_prompt, describe, bind, ws_connect;
      now rewrite Hs. }
  rewrite E. unfold emit, extended. simpl. now rewrite <- !app_assoc.
Qed.

Lemma block_generates c prompt :
  generates c = true ->
  block_of py net p c prompt = run_prompt py net (proc_client_id p) prompt.
Proof. destruct c; simpl; trivial; discriminate. Qed.

Lemma run_prompt_connected prompt session w :
  ws_server net uri = Ok session ->
  run_prompt py net (proc_client_id p) prompt w =
  scoped (bind (get_images py net (proc_client_id p) prompt)
            (fun images => send_images py images))
    WsClose
    (extended {| inbox := session; trace := trace w |}
       [WsConnect uri; WsSend (json_dumps py prompt)]).
Proof.
  intros Hs. unfold run_prompt.
  now rewrite (@connected py net _ prompt server_address (proc_client_id p)
                 session _ w Hs).
Qed.

(** When the backend refuses the submission, the graph has already gone
    out on the WebSocket; no frame is read, the socket is closed, and
    the command logs the exception, apologises, and returns. *)
Theorem command_submission_refused (c : invocation) (w w1 : world)
  (prompt : json) (session : ws_session) (e : exn) :
  generates c = true ->
  graph_of py net c (emit Defer w) = (Ret prompt, w1) ->
  ws_server net uri = Ok session ->
  urlopen_post net prompt_url
    (submission_body py (proc_client_id p) prompt) = Err e ->
  invoke py net p c w =
  (Ret tt,
   extended {| inbox := session; trace := trace w1 |}
     [WsConnect uri; WsSend (json_dumps py prompt); posted prompt; WsClose;
      LogError e; CtxSend (apology_of c e)]).
Proof.
  intros Hc Hg Hs Hpost. rewrite (@invoke_block c w prompt w1 Hg).
  rewrite (@block_generates c prompt Hc).
  rewrite (@run_prompt_connected prompt session w1 Hs).
  unfold scoped. unfold bind at 1. unfold get_images. unfold bind at 1.
  rewrite (@submit_refused py net (proc_client_id p) prompt _ e Hpost).
  unfold emit, extended. simpl. now rewrite <- !app_assoc.
Qed.

(** When the stream holds only decoys, the command reads them all and
    then: on a connection that stays open it waits for ever, having
    answered nothing and closed nothing; on a connection that ends with
    an exception it closes the socket, logs the exception, apologises,
    and returns. *)
Theorem command_without_completion (c : invocation) (w w1 : world)
  (prompt : json) (session : ws_session) (body0 : bytes)
  (response0 pid : json) :
  generates c = true ->
  graph_of py net c (emit Defer w) = (Ret prompt, w1) ->
  ws_server net uri = Ok session ->
  urlopen_post net prompt_url
    (submission_body py (proc_client_id p) prompt) = Ok body0 ->
  json_loads_bytes py body0 = Some response0 ->
  getitem response0 "prompt_id" = Ok pid ->
  Forall (decoy py pid) (ws_frames session) ->
  let read :=
    extended {| inbox := {| ws_frames := []; ws_end := ws_end session |};
                trace := trace w1 |}
      ([WsConnect uri; WsSend (json_dumps py prompt); posted prompt] ++
       map WsRecv (ws_frames session)) in
  invoke py net p c w =
  match ws_end session with
  | None => (Hang, read)
  | Some e =>
      (Ret tt,
       extended read [WsClose; LogError e; CtxSend (apology_of c e)])
  end.
Proof.
  intros Hc Hg Hs Hpost Hl0 Hpid Hdec read.
  rewrite (@invoke_block c w prompt w1 Hg).
  rewrite (@block_generates c prompt Hc).
  rewrite (@run_prompt_connected prompt session w1 Hs).
  unfold scoped. unfold bind at 1. unfold get_images. unfold bind at 1.
  rewrite (@submit_ok py net (proc_client_id p) prompt _ body0 response0 pid
             Hpost Hl0 Hpid).
  unfold bind at 1.
  rewrite await_completion_no_end with (decoys := ws_frames session);
    [| reflexivity | exact Hdec].
  simpl.
  assert (E : received
                (emit (posted prompt)
                   (extended {| inbox := session; trace := trace w1 |}
                      [WsConnect uri; WsSend (json_dumps py prompt)]))
                (ws_frames session) [] = read).
  { unfold read, received, emit, extended. simpl.
    now rewrite <- !app_assoc. }
  rewrite E.
  destruct (ws_end session) as [e |]; trivial.
  unfold emit, extended. simpl. now rewrite <- !app_assoc.
Qed.

(** A generation command from end to end.  When the graph is built, the
    connection opens, the backend accepts the submission as job [job],
    the stream holds decoys and then the frame that ends [job], every
    node of the history lists images the backend serves, and PIL opens
    and saves each of them, the command returns without an apology, and
    after the graph was built its effects are: the connection, the frame
    with the graph, the submission, the frames up to the terminating
    one, [GET] requests, one attachment per image named after its node,
    in the order of the history, and the close. *)
Theorem command_delivers (c : invocation) (w w1 : world) (prompt : json)
  (session : ws_session) (body0 : bytes) (response0 : json) (job : string)
  (decoys rest : list frame) (t : frame)
  (body : bytes) (response history : json) (nodes : list (string * json))
  (images pngs : list (list bytes)) :
  generates c = true ->
  graph_of py net c (emit Defer w) = (Ret prompt, w1) ->
  ws_server net uri = Ok session ->
  ws_frames session = (decoys ++ t :: rest)%list ->
  urlopen_post net prompt_url
    (submission_body py (proc_client_id p) prompt) = Ok body0 ->
  json_loads_bytes py body0 = Some response0 ->
  getitem response0 "prompt_id" = Ok (JStr job) ->
  Forall (decoy py (JStr job)) decoys ->
  terminating py (JStr job) t ->
  urlopen_get net (history_url py (JStr job)) = Ok body ->
  json_loads_bytes py body = Some response ->
  getitem response job = Ok history ->
  getitem history "outputs" = Ok (JObj nodes) ->
  NoDup (map fst nodes) ->
  all_with_images py net nodes images ->
  Forall2 (Forall2 (reencoded py)) images pngs ->
  fst (invoke py net p c w) = Ret tt
  /\ exists fetches,
       Forall (fun ev => is_image_fetch ev = true) fetches /\
       trace (snd (invoke py net p c w)) =
       (trace w1 ++
        [WsConnect uri; WsSend (json_dumps py prompt); posted prompt] ++
        map WsRecv (decoys ++ [t]) ++ fetches ++
        files py (map (fun node => JStr (fst node)) nodes) pngs ++
        [WsClose])%list.
Proof.
  intros Hc Hg Hs Hfr Hpost Hl0 Hpid Hdec Ht Hget Hl Hjob Ho Hnd Hall Hpng.
  rewrite (@invoke_block c w prompt w1 Hg).
  rewrite (@block_generates c prompt Hc).
  rewrite (@run_prompt_connected prompt session w1 Hs).
  set (w2 := extended _ _).
  destruct (@get_images_completes py net (proc_client_id p) prompt w2 body0
              response0 job decoys rest t body response history nodes images)
    as (Hfst & fetches & Hfetch & Htr); trivial.
  set (keys := map (fun node : string * json => JStr (fst node)) nodes) in *.
  assert (Hlen : List.length keys = List.length images).
  { unfold keys. rewrite length_map. eapply Forall2_length. exact Hall. }
  assert (Hkeys : assoc_keys (combine keys images) = keys)
    by now apply keys_combine.
  assert (Hstr : Forall is_str keys).
  { apply Forall_forall. intros x Hx. apply in_map_iff in Hx.
    destruct Hx as [kv [<- _]]. now eexists. }
  assert (Hdistinct : NoDup keys).
  { unfold keys. rewrite <- (map_map fst JStr).
    apply NoDup_map_NoDup_ForallPairs; trivial.
    intros a b _ _ H. now injection H. }
  unfold scoped. unfold bind.
  destruct (get_images py net (proc_client_id p) prompt w2) as [[r | e |] w3];
    simpl in Hfst; try discriminate.
  injection Hfst as ->. simpl in Htr.
  unfold send_images.
  rewrite (@send_listed py (combine keys images) (combine keys images) pngs).
  - split; [reflexivity |]. exists fetches. split; trivial.
    simpl. rewrite Htr, Hkeys. rewrite <- !app_assoc. simpl.
    now rewrite <- !app_assoc.
  - now apply Forall2_combine.
  - intros [k v] Hin. apply lookup_listed; trivial; now rewrite Hkeys.
Qed.

End Invocations.

Lemma command_graph_fails_witness :
  invoke Scenario.py (Faults.without_files (Scenario.net Scenario.history_one))
    (startup Scenario.identifier) (Img "a cat" None None) idle =
    (Ret tt,
     emit (CtxSend (apology_of (Img "a cat" None None) FileNotFoundError))
       (emit (LogError FileNotFoundError) Scenario.ready))
  /\ exists pre,
       trace Scenario.ready = (trace idle ++ Defer :: pre)%list /\
       Forall quiet pre.
Proof.
  apply (@command_graph_fails Scenario.py
           (Faults.without_files (Scenario.net Scenario.history_one))
           (startup Scenario.identifier) (Img "a cat" None None) idle
           Scenario.ready FileNotFoundError).
  reflexivity.
Defined.

Lemma command_connection_refused_witness :
  invoke Scenario.py (Faults.unreachable (Scenario.net Scenario.history_one))
    (startup Scenario.identifier) (Img "a cat" None None) idle =
  (Ret tt,
   extended Scenario.ready
     [WsConnect (ws_uri server_address
                   (proc_client_id (startup Scenario.identifier)));
      LogError ConnectionResetError;
      CtxSend (apology_of (Img "a cat" None None) ConnectionResetError)]).
Proof.
  apply (@command_connection_refused Scenario.py
           (Faults.unreachable (Scenario.net Scenario.history_one))
           (startup Scenario.identifier) (Img "a cat" None None) idle
           Scenario.ready Scenario.a_cat ConnectionResetError);
    reflexivity.
Defined.

Lemma command_submission_refused_witness :
  invoke Scenario.py (Faults.refusing (Scenario.net Scenario.history_one))
    (startup Scenario.identifier) (Img "a cat" None None) idle =
  (Ret tt,
   extended {| inbox := {| ws_frames := Scenario.frames; ws_end := None |};
               trace := trace Scenario.ready |}
     [WsConnect (ws_uri server_address
                   (proc_client_id (startup Scenario.identifier)));
      WsSend (json_dumps Scenario.py Scenario.a_cat);
      HttpPost prompt_url
        (submission_body Scenario.py
           (proc_client_id (startup Scenario.identifier)) Scenario.a_cat);
      WsClose; LogError URLError;
      CtxSend (apology_of (Img "a cat" None None) URLError)]).
Proof.
  apply (@command_submission_refused Scenario.py
           (Faults.refusing (Scenario.net Scenario.history_one))
           (startup Scenario.identifier) (Img "a cat" None None) idle
           Scenario.ready Scenario.a_cat
           {| ws_frames := Scenario.frames; ws_end := None |} URLError);
    reflexivity.
Defined.

(** Only the two decoys of the scenario arrive, and the connection stays
    open. *)
Lemma command_without_completion_witness :
  let session := {| ws_frames := firstn 2 Scenario.frames; ws_end := None |} in
  let read :=
    extended {| inbox := {| ws_frames := []; ws_end := ws_end session |};
                trace := trace Scenario.ready |}
      ([WsConnect (ws_uri server_address
                     (proc_client_id (startup Scenario.identifier)));
        WsSend (json_dumps Scenario.py Scenario.a_cat);
        HttpPost prompt_url
          (submission_body Scenario.py
             (proc_client_id (startup Scenario.identifier)) Scenario.a_cat)]
       ++ map WsRecv (ws_frames session)) in
  invoke Scenario.py
    (Faults.streaming (firstn 2 Scenario.frames) None
       (Scenario.net Scenario.history_one))
    (startup Scenario.identifier) (Img "a cat" None None) idle =
  match ws_end session with
  | None => (Hang, read)
  | Some e =>
      (Ret tt,
       extended read
         [WsClose; LogError e; CtxSend (apology_of (Img "a cat" None None) e)])
  end.
Proof.
  apply (@command_without_completion Scenario.py
           (Faults.streaming (firstn 2 Scenario.frames) None
              (Scenario.net Scenario.history_one))
           (startup Scenario.identifier) (Img "a cat" None None) idle
           Scenario.ready Scenario.a_cat
           {| ws_frames := firstn 2 Scenario.frames; ws_end := None |}
           (Scenario.encode Scenario.submitted) Scenario.submitted
           (JStr "abc")); try reflexivity.
  repeat constructor. eapply decoy_other_job; reflexivity.
Defined.

(** [/img a cat] in the end-to-end scenario. *)
Lemma command_delivers_witness :
  let it :=
    invoke Scenario.py (Scenario.net Scenario.history_one)
      (startup Scenario.identifier) (Img "a cat" None None) idle in
  fst it = Ret tt
  /\ exists fetches,
       Forall (fun ev => is_image_fetch ev = true) fetches /\
       trace (snd it) =
       (trace Scenario.ready ++
        [WsConnect (ws_uri server_address
                      (proc_client_id (startup Scenario.identifier)));
         WsSend (json_dumps Scenario.py Scenario.a_cat);
         HttpPost prompt_url
           (submission_body Scenario.py
              (proc_client_id (startup Scenario.identifier)) Scenario.a_cat)]
        ++ map WsRecv (firstn 2 Scenario.frames ++
                       [TextFrame (Scenario.dumps
                                     (Scenario.executing JNull (JStr "abc")))])
        ++ fetches ++
        files Scenario.py
          (map (fun node => JStr (fst node))
             [("9", JObj [("images", JArr [Scenario.image_ref "out.png"])])])
          [[Scenario.data "PNGDATA"]] ++
        [WsClose])%list.
Proof.
  apply (@command_delivers Scenario.py (Scenario.net Scenario.history_one)
           (startup Scenario.identifier) (Img "a cat" None None) idle
           Scenario.ready Scenario.a_cat
           {| ws_frames := Scenario.frames; ws_end := None |}
           (Scenario.encode Scenario.submitted) Scenario.submitted "abc"
           (firstn 2 Scenario.frames) []
           (TextFrame (Scenario.dumps (Scenario.executing JNull (JStr "abc"))))
           (Scenario.encode Scenario.history_one) Scenario.history_one
           (JObj [("outputs",
                   JObj [("9", JObj [("images",
                                      JArr [Scenario.image_ref "out.png"])])])])
           [("9", JObj [("images", JArr [Scenario.image_ref "out.png"])])]
           [[Scenario.data "PNGDATA"]] [[Scenario.data "PNGDATA"]]);
    try reflexivity.
  - repeat constructor. eapply decoy_other_job; reflexivity.
  - eapply terminating_intro; reflexivity.
  - repeat constructor. simpl. tauto.
  - repeat constructor. exists [Scenario.image_ref "out.png"].
    split; [reflexivity |]. repeat constructor.
    exists (JStr "out.png"), (JStr ""), (JStr "output").
    repeat split; reflexivity.
  - repeat constructor. eexists. split; reflexivity.
Defined.

(* ================================================================= *)
(** ** Theorems: [des] *)

Section Describe.

Variable py : pylib.
Variable net : outside.
Variable p : process.

Local Abbreviation uri := (ws_uri server_address (proc_client_id p)).
Local Abbreviation mute :=
  (fun ev : event => spoken ev /\ is_ws_recv ev = false).

(** [des] answers with the first frame the server pushes.  When the
    graph is built, the connection opens and the first frame decodes,
    the command sends the graph on the WebSocket, reads that one frame,
    logs it, answers with the decoded value (serialised again when it is
    a mapping, as it is otherwise) and closes the socket; the frames
    after the first stay unread. *)
Theorem des_answers (image_url : string) (w w1 : world) (prompt : json)
  (session : ws_session) (f : frame) (rest : list frame) (v : json) :
  graph_of py net (Des image_url) (emit Defer w) = (Ret prompt, w1) ->
  ws_server net uri = Ok session ->
  ws_frames session = f :: rest ->
  loads_frame py f = Ok v ->
  invoke py net p (Des image_url) w =
  (Ret tt,
   extended {| inbox := {| ws_frames := rest; ws_end := ws_end session |};
               trace := trace w1 |}
     [WsConnect uri; WsSend (json_dumps py prompt); WsRecv f;
      LogInfo ("Received response from server: " ++ frame_str py f);
      CtxSend (des_answer py v); WsClose]).
Proof.
  intros Hg Hs Hfr Hv.
  rewrite (@invoke_block py net p (Des image_url) w prompt w1 Hg).
  simpl. unfold describe. unfold bind at 1. unfold ws_connect. rewrite Hs.
  unfold scoped, bind, ws_send, effect, ws_recv. simpl. rewrite Hfr. simpl.
  rewrite Hv. simpl.
  unfold emit, extended, des_answer. simpl. rewrite <- !app_assoc. simpl.
  now destruct v.
Qed.

Lemma describe_events prompt w :
  exists evs,
    trace (snd (describe py net (proc_client_id p) prompt w)) =
    (trace w ++ evs)%list
    /\ Forall spoken evs
    /\ (List.length (filter is_ws_recv evs) <= 1)%nat.
Proof.
  unfold describe. unfold bind at 1. unfold ws_connect.
  destruct (ws_server net uri) as [session | e].
  2:{ exists [WsConnect uri]. simpl. repeat split; auto.
      repeat constructor. }
  unfold scoped, bind, ws_send, effect, ws_recv. simpl.
  destruct (ws_frames session) as [| f rest]; simpl.
  - destruct (ws_end session); simpl; eexists;
      (split; [rewrite <- !app_assoc; simpl; reflexivity |]);
      simpl; split; auto; repeat constructor.
  - destruct (loads_frame py f); simpl; eexists;
      (split; [rewrite <- !app_assoc; simpl; reflexivity |]);
      simpl; split; auto; repeat constructor.
Qed.

Lemma mute_des_prompt image_url : only mute (des_prompt py net image_url).
Proof.
  unfold des_prompt.
  repeat (apply only_bind; [| intros ?]);
    try apply only_lift; try apply only_ret;
    try (apply only_effect; simpl; auto).
Qed.

Lemma filter_mute evs :
  Forall mute evs -> filter is_ws_recv evs = [] /\ Forall spoken evs.
Proof.
  induction 1 as [| ev evs [Hs Hr] _ [IH1 IH2]]; simpl; auto.
  rewrite Hr. auto.
Qed.

(** [des] never submits a job and fetches nothing: whatever the backend
    does, the command makes no HTTP request to it and sends no
    attachment, and it reads one frame at most. *)
Theorem des_never_submits (image_url : string) (w : world) :
  exists evs,
    trace (snd (invoke py net p (Des image_url) w)) = (trace w ++ evs)%list
    /\ Forall spoken evs
    /\ (List.length (filter is_ws_recv evs) <= 1)%nat.
Proof.
  destruct (mute_des_prompt image_url (emit Defer w)) as (pre & Hpre & Hmute).
  apply filter_mute in Hmute. destruct Hmute as [Hnone Hspoken].
  simpl in Hpre.
  destruct (des_prompt py net image_url (emit Defer w))
    as [[prompt | e |] w1] eqn:Hg; simpl in Hpre.
  - rewrite (@invoke_block py net p (Des image_url) w prompt w1 Hg). simpl.
    destruct (describe_events prompt w1) as (evs & Htr & Hs & Hn).
    destruct (describe py net (proc_client_id p) prompt w1)
      as [[[] | e |] w2]; simpl in *.
    + exists ([Defer] ++ pre ++ evs)%list.
      rewrite Htr, Hpre, <- !app_assoc. split; [reflexivity |].
      split.
      * repeat (apply Forall_app; split); trivial. repeat constructor.
      * simpl. rewrite filter_app, Hnone. simpl. exact Hn.
    + exists ([Defer] ++ pre ++ evs ++
              [LogError e; CtxSend (apology e)])%list.
      rewrite Htr, Hpre, <- !app_assoc. split; [reflexivity |].
      split.
      * repeat (apply Forall_app; split); trivial; repeat constructor.
      * simpl. rewrite filter_app, Hnone. simpl.
        rewrite filter_app. simpl. now rewrite app_nil_r.
    + exists ([Defer] ++ pre ++ evs)%list.
      rewrite Htr, Hpre, <- !app_assoc. split; [reflexivity |].
      split.
      * repeat (apply Forall_app; split); trivial. repeat constructor.
      * simpl. rewrite filter_app, Hnone. simpl. exact Hn.
  - rewrite (@invoke_graph_fails py net p (Des image_url) w e w1 Hg). simpl.
    exists ([Defer] ++ pre ++ [LogError e; CtxSend (apology e)])%list.
    rewrite Hpre, <- !app_assoc. split; [reflexivity |].
    split.
    + repeat (apply Forall_app; split); trivial; repeat constructor.
    + simpl. rewrite filter_app, Hnone. simpl. lia.
  - exists ([Defer] ++ pre)%list.
    assert (E : invoke py net p (Des image_url) w = (Hang, w1)).
    { simpl. unfold des. unfold bind at 1. unfold effect at 1. simpl.
      unfold try_except. unfold bind at 1. now rewrite Hg. }
    rewrite E. simpl. rewrite Hpre, <- !app_assoc. split; [reflexivity |].
    split.
    + constructor; simpl; trivial.
    + simpl. rewrite Hnone. simpl. lia.
Qed.

End Describe.

(** The first frame of the scenario's stream, the end of another job, is
    what [des] answers. *)
Lemma des_answers_witness :
  invoke Florence.py Florence.net (startup Scenario.identifier)
    (Des "https://cdn.example/wide.png") idle =
  (Ret tt,
   extended {| inbox := {| ws_frames := skipn 1 Scenario.frames;
                           ws_end := None |};
               trace := trace Florence.ready |}
     [WsConnect (ws_uri server_address
                   (proc_client_id (startup Scenario.identifier)));
      WsSend (json_dumps Florence.py Florence.graph);
      WsRecv (TextFrame
                (Scenario.dumps (Scenario.executing JNull (JStr "xyz"))));
      LogInfo ("Received response from server: " ++
               frame_str Florence.py
                 (TextFrame
                    (Scenario.dumps (Scenario.executing JNull (JStr "xyz")))));
      CtxSend (des_answer Florence.py
                 (Scenario.executing JNull (JStr "xyz")));
      WsClose]).
Proof.
  apply (@des_answers Florence.py Florence.net (startup Scenario.identifier)
           "https://cdn.example/wide.png" idle Florence.ready Florence.graph
           {| ws_frames := Scenario.frames; ws_end := None |}
           (TextFrame (Scenario.dumps (Scenario.executing JNull (JStr "xyz"))))
           (skipn 1 Scenario.frames)
           (Scenario.executing JNull (JStr "xyz")));
    reflexivity.
Defined.

(* ================================================================= *)
(** ** Theorems: the graph a command builds *)

Lemma dict_set_keys {V} (d : list (string * V)) k v x :
  dict_get d k = Some x -> map fst (dict_set d k v) = map fst d.
Proof.
  unfold dict_get, dict_set.
  induction d as [| [k0 v0] d IH]; simpl; [discriminate |].
  destruct (String.eqb k0 k); simpl; trivial.
  intros H. now rewrite IH.
Qed.

Lemma set_input_total prompt node field v :
  patchable prompt node ->
  exists prompt', set_input prompt node field v = Ok prompt'.
Proof.
  intros (dp & dn & di & -> & Hn & Hi). unfold set_input.
  rewrite getitem_obj, Hn. cbn [rbind]. rewrite getitem_obj, Hi. cbn [rbind].
  simpl. eauto.
Qed.

Lemma set_input_patchable prompt node field v prompt' :
  set_input prompt node field v = Ok prompt' ->
  patchable prompt node /\
  forall node', patchable prompt' node' <-> patchable prompt node'.
Proof.
  intros H. apply set_input_Ok in H.
  destruct H as (dp & dn & di & -> & Hn & Hi & ->).
  split; [now exists dp, dn, di |].
  intros node'. unfold patchable. split.
  - intros (dp' & dn' & di' & E & Hn' & Hi'). injection E as <-.
    rewrite dict_get_set in Hn'.
    destruct (String.eqb_spec node node') as [<- | Hne].
    + now exists dp, dn, di.
    + now exists dp, dn', di'.
  - intros (dp' & dn' & di' & E & Hn' & Hi'). injection E as <-.
    destruct (String.eqb_spec node node') as [<- | Hne].
    + eexists _, _, _. split; [reflexivity |].
      rewrite dict_get_set, String.eqb_refl. split; [reflexivity |].
      now rewrite dict_get_set.
    + eexists _, dn', di'. split; [reflexivity |].
      rewrite dict_get_set. apply String.eqb_neq in Hne. rewrite Hne. auto.
Qed.

Lemma set_input_frame prompt node field v prompt' :
  set_input prompt node field v = Ok prompt' ->
  (forall node' field',
     (node', field') <> (node, field) ->
     get_input prompt' node' field' = get_input prompt node' field')
  /\ (forall node' key,
        key <> "inputs" ->
        node_attr prompt' node' key = node_attr prompt node' key)
  /\ py_iter prompt' = py_iter prompt.
Proof.
  intros H. split; [| split].
  - intros node' field' Hne.
    destruct (String.eqb node node') eqn:En.
    + apply String.eqb_eq in En. subst node'.
      rewrite (get_input_set_input _ _ _ _ _ H).
      destruct (String.eqb_spec field field') as [-> | _]; trivial.
      now contradiction Hne.
    + now apply get_input_other_node with node field v.
  - intros node' key Hkey. apply set_input_Ok in H.
    destruct H as (dp & dn & di & -> & Hn & Hi & ->).
    unfold node_attr. rewrite !getitem_obj, dict_get_set.
    destruct (String.eqb_spec node node') as [<- | _]; trivial.
    rewrite Hn. cbn [rbind]. rewrite !getitem_obj, dict_get_set.
    destruct (String.eqb_spec "inputs" key) as [<- | _]; trivial.
    now contradiction Hkey.
  - apply set_input_Ok in H.
    destruct H as (dp & dn & di & -> & Hn & Hi & ->).
    simpl. rewrite <- !(map_map fst JStr).
    now rewrite (dict_set_keys dp node _ Hn).
Qed.

(** The assignment [prompt[node]["inputs"][field] = v] succeeds exactly
    on a graph whose [node] is a mapping with an ["inputs"] mapping;
    the input then reads back as [v], every other input of every node,
    every other attribute of every node and the order of the nodes are
    as before. *)
Theorem set_input_changes_one_input (prompt : json) (node field : string)
  (v : json) :
  ((exists prompt', set_input prompt node field v = Ok prompt') <->
   patchable prompt node)
  /\ forall prompt',
       set_input prompt node field v = Ok prompt' ->
       get_input prompt' node field = Ok v
       /\ (forall node' field',
             (node', field') <> (node, field) ->
             get_input prompt' node' field' = get_input prompt node' field')
       /\ (forall node' key,
             key <> "inputs" ->
             node_attr prompt' node' key = node_attr prompt node' key)
       /\ py_iter prompt' = py_iter prompt.
Proof.
  split.
  - split.
    + intros [prompt' H]. now apply set_input_patchable in H.
    + apply set_input_total.
  - intros prompt' H. split.
    + rewrite (get_input_set_input _ _ _ _ _ H). now rewrite String.eqb_refl.
    + now apply set_input_frame with v.
Qed.

Section Graphs.

Variable py : pylib.
Variable net : outside.

Lemma load_prompt_Ret filename w0 template w1 :
  load_prompt py net filename w0 = (Ret template, w1) ->
  exists text, open_file net filename = Ok text /\
               json_loads py text = Some template.
Proof.
  unfold load_prompt, bind, effect, loads.
  destruct (open_file net filename) as [text | e]; simpl; [| discriminate].
  destruct (json_loads py text) as [t |] eqn:Hl; simpl; [| discriminate].
  intros H. injection H as <- _. now exists text.
Qed.

Lemma load_prompt_fst filename text template w :
  open_file net filename = Ok text ->
  json_loads py text = Some template ->
  load_prompt py net filename w = (Ret template, emit (OpenFile filename) w).
Proof.
  intros Ho Hl. unfold load_prompt, bind, effect, loads.
  rewrite Ho. simpl. now rewrite Hl.
Qed.

(** The graph [img] builds is its template with three inputs written:
    the text of node ["6"], the width and the height of node ["27"].
    Every other input, every other attribute of a node and the order of
    the nodes are the template's. *)
Theorem img_patches_three_inputs (text : string) (width height : json)
  (w0 w1 : world) (prompt : json) :
  img_prompt py net text width height w0 = (Ret prompt, w1) ->
  exists source template,
    open_file net "flux-api.json" = Ok source /\
    json_loads py source = Some template /\
    get_input prompt "6" "text" = Ok (JStr text) /\
    get_input prompt "27" "width" = Ok (fst (img_size width height)) /\
    get_input prompt "27" "height" = Ok (snd (img_size width height)) /\
    (forall node field,
       ~ In (node, field) [("6", "text"); ("27", "width"); ("27", "height")] ->
       get_input prompt node field = get_input template node field) /\
    (forall node key,
       key <> "inputs" ->
       node_attr prompt node key = node_attr template node key) /\
    py_iter prompt = py_iter template.
Proof.
  intros H. pose proof (@img_prompt_inputs py net text width height w0 prompt w1 H)
    as [Hw Hh].
  unfold img_prompt in H. unfold bind at 1 in H.
  destruct (load_prompt py net "flux-api.json" w0) as [[p0 | e |] w] eqn:Hl;
    try discriminate.
  apply load_prompt_Ret in Hl. destruct Hl as (source & Ho & Hl).
  unfold bind at 1 in H.
  destruct (set_input p0 "6" "text" (JStr text)) as [p1 | e] eqn:H1;
    simpl in H; [| discriminate].
  unfold bind at 1 in H.
  destruct (set_input p1 "27" "width" _) as [p2 | e] eqn:H2; simpl in H;
    [| discriminate].
  destruct (set_input p2 "27" "height" _) as [p3 | e] eqn:H3; simpl in H;
    [| discriminate].
  injection H as <- _.
  destruct (@set_input_frame _ _ _ _ _ H1) as (F1 & A1 & I1).
  destruct (@set_input_frame _ _ _ _ _ H2) as (F2 & A2 & I2).
  destruct (@set_input_frame _ _ _ _ _ H3) as (F3 & A3 & I3).
  exists source, p0. repeat (split; trivial).
  - rewrite F3, F2 by discriminate.
    rewrite (@get_input_set_input _ _ _ _ _ "text" H1). reflexivity.
  - intros node field Hn. simpl in Hn.
    rewrite F3, F2, F1; trivial; intros E; apply Hn; rewrite E; auto.
  - intros node key Hk. now rewrite A3, A2, A1.
  - now rewrite I3, I2, I1.
Qed.

(** [img] builds its graph exactly when the template file opens, holds
    JSON, and its nodes ["6"] and ["27"] are mappings with an
    ["inputs"] mapping. *)
Theorem img_needs_nodes_6_and_27 (text : string) (width height : json)
  (w0 : world) :
  (exists prompt w1,
     img_prompt py net text width height w0 = (Ret prompt, w1)) <->
  (exists source template,
     open_file net "flux-api.json" = Ok source /\
     json_loads py source = Some template /\
     patchable template "6" /\ patchable template "27").
Proof.
  split.
  - intros (prompt & w1 & H).
    unfold img_prompt in H. unfold bind at 1 in H.
    destruct (load_prompt py net "flux-api.json" w0) as [[p0 | e |] w] eqn:Hl;
      try discriminate.
    apply load_prompt_Ret in Hl. destruct Hl as (source & Ho & Hl).
    unfold bind at 1 in H.
    destruct (set_input p0 "6" "text" (JStr text)) as [p1 | e] eqn:H1;
      simpl in H; [| discriminate].
    unfold bind at 1 in H.
    destruct (set_input p1 "27" "width" _) as [p2 | e] eqn:H2; simpl in H;
      [| discriminate].
    exists source, p0. repeat (split; trivial).
    + now apply set_input_patchable in H1.
    + apply set_input_patchable in H1. apply set_input_patchable in H2.
      apply (proj2 H1). exact (proj1 H2).
  - intros (source & template & Ho & Hl & H6 & H27).
    destruct (@set_input_total template "6" "text" (JStr text) H6) as [p1 H1].
    assert (H27' : patchable p1 "27").
    { apply set_input_patchable in H1. now apply H1. }
    destruct (@set_input_total p1 "27" "width" (fst (img_size width height))
                H27') as [p2 H2].
    assert (H27'' : patchable p2 "27").
    { apply set_input_patchable in H2. now apply H2. }
    destruct (@set_input_total p2 "27" "height"
                (snd (img_size width height)) H27'') as [p3 H3].
    exists p3, (emit (OpenFile "flux-api.json") w0).
    unfold img_prompt. unfold bind at 1.
    rewrite (@load_prompt_fst "flux-api.json" source template w0 Ho Hl).
    unfold bind at 1. rewrite H1. simpl.
    unfold bind at 1. rewrite H2. simpl. now rewrite H3.
Qed.

(** The graph [i2i] builds is its template with five inputs written:
    the text of node ["6"], the base64 text of the attachment saved as
    PNG at node ["53"], the computed width and height at node ["51"],
    and the denoise strength at node ["17"].  Every other input, every
    other attribute of a node and the order of the nodes are the
    template's. *)
Theorem i2i_patches_five_inputs (text image_url : string) (denoise : json)
  (w0 w1 : world) (prompt : json) :
  i2i_prompt py net text image_url denoise w0 = (Ret prompt, w1) ->
  exists data image png size source template,
    http_download net image_url = Ok data /\
    Image_open py data = Ok image /\
    im_png image = Ok png /\
    i2i_size (im_width image) (im_height image) = Ok size /\
    open_file net "i2iflux-base64.json" = Ok source /\
    json_loads py source = Some template /\
    get_input prompt "6" "text" = Ok (JStr text) /\
    get_input prompt "53" "image" = Ok (JStr (b64encode py png)) /\
    get_input prompt "51" "width" = Ok (JInt (fst size)) /\
    get_input prompt "51" "height" = Ok (JInt (snd size)) /\
    get_input prompt "17" "denoise" = Ok denoise /\
    (forall node field,
       ~ In (node, field)
           [("6", "text"); ("53", "image"); ("51", "width");
            ("51", "height"); ("17", "denoise")] ->
       get_input prompt node field = get_input template node field) /\
    (forall node key,
       key <> "inputs" ->
       node_attr prompt node key = node_attr template node key) /\
    py_iter prompt = py_iter template.
Proof.
  unfold i2i_prompt. unfold bind at 1. unfold effect at 1.
  destruct (http_download net image_url) as [data | e] eqn:Hd; simpl;
    [| discriminate].
  unfold bind at 1.
  destruct (Image_open py data) as [image | e] eqn:Hi; simpl;
    [| discriminate].
  unfold bind at 1. destruct (im_png image) as [png | e] eqn:Hp; simpl;
    [| discriminate].
  unfold bind at 1.
  destruct (i2i_size (im_width image) (im_height image)) as [size | e] eqn:Hs;
    simpl; [| discriminate].
  unfold bind at 1.
  destruct (load_prompt py net "i2iflux-base64.json" _) as [[p0 | e |] w] eqn:Hl;
    try discriminate.
  apply load_prompt_Ret in Hl. destruct Hl as (source & Ho & Hl).
  unfold bind at 1.
  destruct (set_input p0 "6" "text" _) as [p1 | e] eqn:H1; simpl;
    [| discriminate].
  unfold bind at 1.
  destruct (set_input p1 "53" "image" _) as [p2 | e] eqn:H2; simpl;
    [| discriminate].
  unfold bind at 1.
  destruct (set_input p2 "51" "width" _) as [p3 | e] eqn:H3; simpl;
    [| discriminate].
  unfold bind at 1.
  destruct (set_input p3 "51" "height" _) as [p4 | e] eqn:H4; simpl;
    [| discriminate].
  destruct (set_input p4 "17" "denoise" denoise) as [p5 | e] eqn:H5; simpl;
    [| discriminate].
  intros H. injection H as <- _.
  destruct (@set_input_frame _ _ _ _ _ H1) as (F1 & A1 & I1).
  destruct (@set_input_frame _ _ _ _ _ H2) as (F2 & A2 & I2).
  destruct (@set_input_frame _ _ _ _ _ H3) as (F3 & A3 & I3).
  destruct (@set_input_frame _ _ _ _ _ H4) as (F4 & A4 & I4).
  destruct (@set_input_frame _ _ _ _ _ H5) as (F5 & A5 & I5).
  exists data, image, png, size, source, p0. repeat (split; trivial).
  - rewrite F5, F4, F3, F2 by discriminate.
    now rewrite (@get_input_set_input _ _ _ _ _ "text" H1).
  - rewrite F5, F4, F3 by discriminate.
    now rewrite (@get_input_set_input _ _ _ _ _ "image" H2).
  - rewrite F5, F4 by discriminate.
    now rewrite (@get_input_set_input _ _ _ _ _ "width" H3).
  - rewrite F5 by discriminate.
    now rewrite (@get_input_set_input _ _ _ _ _ "height" H4).
  - now rewrite (@get_input_set_input _ _ _ _ _ "denoise" H5).
  - intros node field Hn. simpl in Hn.
    rewrite F5, F4, F3, F2, F1; trivial; intros E; apply Hn; rewrite E;
      auto 6.
  - intros node key Hk. now rewrite A5, A4, A3, A2, A1.
  - now rewrite I5, I4, I3, I2, I1.
Qed.

End Graphs.

Lemma img_patches_three_inputs_witness :
  exists source template,
    open_file (Scenario.net Scenario.history_one) "flux-api.json" = Ok source /\
    json_loads Scenario.py source = Some template /\
    get_input Scenario.a_cat "6" "text" = Ok (JStr "a cat") /\
    get_input Scenario.a_cat "27" "width" =
      Ok (fst (img_size (JInt 1024) (JInt 1024))) /\
    get_input Scenario.a_cat "27" "height" =
      Ok (snd (img_size (JInt 1024) (JInt 1024))) /\
    (forall node field,
       ~ In (node, field) [("6", "text"); ("27", "width"); ("27", "height")] ->
       get_input Scenario.a_cat node field = get_input template node field) /\
    (forall node key,
       key <> "inputs" ->
       node_attr Scenario.a_cat node key = node_attr template node key) /\
    py_iter Scenario.a_cat = py_iter template.
Proof.
  apply (@img_patches_three_inputs Scenario.py
           (Scenario.net Scenario.history_one) "a cat" (JInt 1024) (JInt 1024)
           idle (emit (OpenFile "flux-api.json") idle) Scenario.a_cat).
  reflexivity.
Defined.

Lemma i2i_patches_five_inputs_witness :
  exists data image png size source template,
    http_download (Scenario.net Scenario.history_one)
      "https://cdn.example/wide.png" = Ok data /\
    Image_open Scenario.py data = Ok image /\
    im_png image = Ok png /\
    i2i_size (im_width image) (im_height image) = Ok size /\
    open_file (Scenario.net Scenario.history_one) "i2iflux-base64.json"
      = Ok source /\
    json_loads Scenario.py source = Some template /\
    get_input Scenario.wide_graph "6" "text" = Ok (JStr "a cat") /\
    get_input Scenario.wide_graph "53" "image" =
      Ok (JStr (b64encode Scenario.py png)) /\
    get_input Scenario.wide_graph "51" "width" = Ok (JInt (fst size)) /\
    get_input Scenario.wide_graph "51" "height" = Ok (JInt (snd size)) /\
    get_input Scenario.wide_graph "17" "denoise" = Ok default_denoise /\
    (forall node field,
       ~ In (node, field)
           [("6", "text"); ("53", "image"); ("51", "width");
            ("51", "height"); ("17", "denoise")] ->
       get_input Scenario.wide_graph node field =
       get_input template node field) /\
    (forall node key,
       key <> "inputs" ->
       node_attr Scenario.wide_graph node key = node_attr template node key) /\
    py_iter Scenario.wide_graph = py_iter template.
Proof.
  apply (@i2i_patches_five_inputs Scenario.py
           (Scenario.net Scenario.history_one) "a cat"
           "https://cdn.example/wide.png" default_denoise idle
           (extended idle [Download "https://cdn.example/wide.png";
                           OpenFile "i2iflux-base64.json"])
           Scenario.wide_graph).
  vm_compute. reflexivity.
Defined.

(* ================================================================= *)
(** ** Theorems: more on the size [i2i] submits *)

(** [i2i] never enlarges: for a source image of [w] by [h] pixels
    (positive, below 2^31) neither side of the size it computes exceeds
    the source's, and the area is at most 3686400.  A side can come out
    as 0: it does when the image is more than 1920 times as long as it
    is wide (or the reverse) and large enough to be scaled, and only for
    images at least that elongated. *)
Theorem i2i_size_never_enlarges (w h : Z) :
  0 < w < 2 ^ 31 -> 0 < h < 2 ^ 31 ->
  exists w' h',
    i2i_size w h = Ok (w', h') /\
    0 <= w' <= w /\ 0 <= h' <= h /\ w' * h' <= 3686400 /\
    (3686400 < w * h -> 1920 * h < w -> h' = 0) /\
    (3686400 < w * h -> 1920 * w < h -> w' = 0) /\
    (w' = 0 \/ h' = 0 ->
     3686400 < w * h /\ (1920 * h <= w \/ 1920 * w <= h)).
Proof.
  intros Hw Hh.
  destruct (i2i_size_scaled Hw Hh) as (w' & h' & Hs & Hbig & Hsmall).
  exists w', h'. split; [exact Hs |].
  destruct (Z.le_gt_cases (w * h) 3686400) as [Hle | Hgt].
  - destruct (Hsmall Hle) as [-> ->].
    repeat split; try lia.
  - destruct (Hbig Hgt) as (Hmax & Harea & Hwide & Htall).
    destruct (Z.lt_ge_cases h w) as [Hlt | Hge].
    + destruct (Hwide Hlt) as [-> [Hlo Hhi]].
      assert (Hw1920 : 1920 < w) by nia.
      assert (H0 : 0 <= h') by lia.
      assert (Hh' : h' <= h) by nia.
      repeat split; try lia; try nia.
    + destruct (Htall ltac:(lia)) as [-> [Hlo Hhi]].
      assert (Hh1920 : 1920 <= h) by nia.
      assert (H0 : 0 <= w') by lia.
      assert (Hw' : w' <= w) by nia.
      repeat split; try lia; try nia.
Qed.

(** A strip of 4000000 by 1 pixels. *)
Lemma i2i_size_never_enlarges_witness :
  exists w' h',
    i2i_size 4000000 1 = Ok (w', h') /\
    0 <= w' <= 4000000 /\ 0 <= h' <= 1 /\ w' * h' <= 3686400 /\
    (3686400 < 4000000 * 1 -> 1920 * 1 < 4000000 -> h' = 0) /\
    (3686400 < 4000000 * 1 -> 1920 * 4000000 < 1 -> w' = 0) /\
    (w' = 0 \/ h' = 0 ->
     3686400 < 4000000 * 1 /\ (1920 * 1 <= 4000000 \/ 1920 * 4000000 <= 1)).
Proof. apply (@i2i_size_never_enlarges 4000000 1); lia. Defined.

(* ================================================================= *)
(** ** Theorems: the text service *)

Section TextService.

Import Ollama.

Variable requests : requests_lib.

Lemma raise_for_status_passes (r : response) log :
  passes r -> raise_for_status r log = (Returns tt, log).
Proof.
  intros H. unfold raise_for_status, passes in *.
  destruct (Z.leb_spec 400 (status_code r));
    destruct (Z.ltb_spec (status_code r) 600); simpl; trivial; lia.
Qed.

Lemma raise_for_status_refuses (r : response) log :
  400 <= status_code r < 600 ->
  raise_for_status r log =
  (Raises (RequestException (HTTPError (status_code r))), log).
Proof.
  intros H. unfold raise_for_status.
  destruct (Z.leb_spec 400 (status_code r));
    destruct (Z.ltb_spec (status_code r) 600); simpl; trivial; lia.
Qed.

Lemma status_cases (r : response) :
  passes r \/ 400 <= status_code r < 600.
Proof. unfold passes. lia. Qed.

(** [get_ollama_response] lets no [RequestException] out: when the POST
    fails, when the status is a 4xx or a 5xx, and when the body is not
    JSON, it prints one line about the exception and returns the
    apology. *)
Theorem get_ollama_response_falls_back (query : string) (log : list action)
  (kind : failure) :
  requests_post requests chat_url (chat_data query) = Fails kind
  \/ (exists r,
        requests_post requests chat_url (chat_data query) = Answers r /\
        400 <= status_code r < 600 /\ kind = HTTPError (status_code r))
  \/ (exists r,
        requests_post requests chat_url (chat_data query) = Answers r /\
        passes r /\ decoded r = None /\ kind = RequestsJSONDecodeError) ->
  get_ollama_response requests query log =
  (Returns sorry,
   (log ++ [Posted chat_url (chat_data query);
            Printed ("Error querying Ollama API: "
                     ++ str_of_failure requests kind)])%list).
Proof.
  intros [H | [(r & H & Hs & ->) | (r & H & Hp & Hd & ->)]];
    unfold get_ollama_response, except_RequestException;
    unfold then_ at 1; unfold post; rewrite H.
  - unfold then_, act, returns. simpl. now rewrite <- app_assoc.
  - unfold then_ at 1. rewrite raise_for_status_refuses by exact Hs.
    unfold then_, act, returns. simpl. now rewrite <- app_assoc.
  - unfold then_ at 1. rewrite raise_for_status_passes by exact Hp.
    unfold then_ at 1. unfold response_json. rewrite Hd.
    unfold raises, then_, act, returns. simpl. now rewrite <- app_assoc.
Qed.

(** When the service answers with a status that passes and a JSON
    mapping whose ["message"], if any, is a mapping,
    [get_ollama_response] prints nothing and returns the ["content"] of
    the message, or the apology when the message or its content is
    missing. *)
Theorem get_ollama_response_reads_content (query : string)
  (log : list action) (r : response) (body : json) :
  requests_post requests chat_url (chat_data query) = Answers r ->
  passes r ->
  decoded r = Some body ->
  ~ unreadable body ->
  get_ollama_response requests query log =
  (Returns (content_of body),
   (log ++ [Posted chat_url (chat_data query)])%list).
Proof.
  intros H Hp Hd Hr.
  unfold get_ollama_response, except_RequestException.
  unfold then_ at 1. unfold post. rewrite H.
  unfold then_ at 1. rewrite raise_for_status_passes by exact Hp.
  unfold then_ at 1. unfold response_json. rewrite Hd. unfold returns at 1.
  destruct body as [| b | n | x | s | l | d]; simpl in Hr;
    try (exfalso; apply Hr; exact I).
  unfold then_, method_get, returns, content_of. simpl.
  destruct (dict_get d "message") as [[| b | n | x | s | l | m] |];
    simpl in *; try (exfalso; apply Hr; exact I); trivial.
Qed.

Lemma not_refused (r : response) :
  (400 <=? status_code r) && (status_code r <? 600) = false -> passes r.
Proof.
  unfold passes.
  destruct (Z.leb_spec 400 (status_code r));
    destruct (Z.ltb_spec (status_code r) 600); simpl; try discriminate; lia.
Qed.

(** A reply that [get_ollama_response] cannot read makes [gem] raise
    [AttributeError], which nothing catches: the command has deferred
    and posted the query, and sends no message. *)
Theorem gem_raises_AttributeError (query : string) (log : list action)
  (r : response) (body : json) :
  requests_post requests chat_url (chat_data query) = Answers r ->
  passes r ->
  decoded r = Some body ->
  unreadable body ->
  gem requests query log =
  (Raises AttributeError,
   (log ++ [Deferred; Posted chat_url (chat_data query)])%list).
Proof.
  intros H Hp Hd Hu.
  unfold gem. unfold then_ at 1. unfold act at 1. unfold then_ at 1.
  unfold get_ollama_response, except_RequestException.
  unfold then_ at 1. unfold post. rewrite H.
  unfold then_ at 1. rewrite raise_for_status_passes by exact Hp.
  unfold then_ at 1. unfold response_json. rewrite Hd. unfold returns at 1.
  destruct body as [| b | n | x | s | l | d]; simpl in Hu;
    unfold then_, method_get, raises, returns; simpl;
    try (now rewrite <- app_assoc).
  destruct (dict_get d "message") as [[| b | n | x | s | l | m] |];
    simpl in *; try contradiction; now rewrite <- app_assoc.
Qed.

(** What [gem] can do, whatever the text service does: either it
    returns, having deferred, posted the query, printed one line at most
    and sent exactly one message, its last action, which is the apology
    when a line was printed; or the reply was one it cannot read, and it
    raises [AttributeError] without sending a message. *)
Theorem gem_outcomes (query : string) (log : list action) :
  (exists content printed,
     gem requests query log =
     (Returns tt,
      (log ++ [Deferred; Posted chat_url (chat_data query)] ++ printed
           ++ [Sent content])%list)
     /\ (printed = [] \/
         (content = sorry /\
          exists kind,
            printed = [Printed ("Error querying Ollama API: "
                                ++ str_of_failure requests kind)])))
  \/ (gem requests query log =
      (Raises AttributeError,
       (log ++ [Deferred; Posted chat_url (chat_data query)])%list)
      /\ exists r body,
           requests_post requests chat_url (chat_data query) = Answers r /\
           passes r /\ decoded r = Some body /\ unreadable body).
Proof.
  unfold gem, get_ollama_response, except_RequestException, then_, act, post,
    raise_for_status, response_json.
  destruct (requests_post requests chat_url (chat_data query))
    as [r | kind] eqn:H.
  2:{ left. exists sorry, [Printed ("Error querying Ollama API: "
                                     ++ str_of_failure requests kind)].
      unfold returns. simpl. rewrite <- !app_assoc. simpl. eauto. }
  destruct ((400 <=? status_code r) && (status_code r <? 600)) eqn:Hs.
  { left. exists sorry, [Printed ("Error querying Ollama API: "
                                   ++ str_of_failure requests
                                        (HTTPError (status_code r)))].
    unfold raises, returns. simpl. rewrite <- !app_assoc. simpl. eauto. }
  apply not_refused in Hs. unfold returns at 1.
  destruct (decoded r) as [body |] eqn:Hd.
  2:{ left. exists sorry, [Printed ("Error querying Ollama API: "
                                     ++ str_of_failure requests
                                          RequestsJSONDecodeError)].
      unfold raises, returns. simpl. rewrite <- !app_assoc. simpl. eauto. }
  unfold returns at 1.
  destruct body as [| b | n | x | s | l | d];
    try (right; unfold method_get, raises; simpl; rewrite <- !app_assoc;
         split; [reflexivity | eexists _, _; repeat split; eauto; exact I]).
  unfold method_get, returns, raises. simpl.
  destruct (dict_get d "message") as [[| b | n | x | s | l | m] |] eqn:Hm;
    simpl;
    try (right; rewrite <- !app_assoc;
         split; [reflexivity |];
         exists r, (JObj d); repeat split; trivial; simpl; now rewrite Hm).
  - left. eexists _, []. rewrite <- !app_assoc. simpl. eauto.
  - left. eexists _, []. rewrite <- !app_assoc. simpl. eauto.
Qed.

(** [initialize_ollama] and [on_ready] always return: the helper posts
    one request and prints one line, the success line exactly when the
    service answered with a status that passes. *)
Theorem initialize_ollama_never_raises (me : string) (log : list action) :
  exists line,
    initialize_ollama requests log =
    (Returns tt,
     (log ++ [Posted generate_url (JObj [("model", JStr "gemma2:27b")]);
              Printed line])%list)
    /\ on_ready requests me log =
       (Returns tt,
        (log ++ [Printed ("We have logged in as " ++ me);
                 Posted generate_url (JObj [("model", JStr "gemma2:27b")]);
                 Printed line])%list)
    /\ (line = "Ollama initialization successful." <->
        exists r,
          requests_post requests generate_url
            (JObj [("model", JStr "gemma2:27b")]) = Answers r /\
          passes r).
Proof.
  unfold on_ready, initialize_ollama, except_RequestException, then_, act,
    post, raise_for_status.
  destruct (requests_post requests generate_url
              (JObj [("model", JStr "gemma2:27b")])) as [r | kind] eqn:H.
  2:{ eexists. unfold returns. simpl. rewrite <- !app_assoc. simpl.
      split; [reflexivity |]. split; [reflexivity |].
      split; [discriminate | intros (r & Hr & _); discriminate]. }
  destruct ((400 <=? status_code r) && (status_code r <? 600)) eqn:Hs.
  - eexists. unfold raises, returns. simpl. rewrite <- !app_assoc. simpl.
    split; [reflexivity |]. split; [reflexivity |].
    split; [discriminate |].
    intros (r' & Hr & Hp). injection Hr as <-. exfalso.
    unfold passes in Hp.
    destruct (Z.leb_spec 400 (status_code r));
      destruct (Z.ltb_spec (status_code r) 600); simpl in Hs;
      try discriminate; lia.
  - eexists. unfold returns. simpl. rewrite <- !app_assoc. simpl.
    split; [reflexivity |]. split; [reflexivity |].
    split; [| reflexivity].
    intros _. exists r. split; trivial. now apply not_refused.
Qed.

End TextService.

(** The text service is down. *)
Lemma get_ollama_response_falls_back_witness :
  Ollama.get_ollama_response
    (Chat.requests (Ollama.Fails Ollama.ConnectionError)) "hi" [] =
  (Ollama.Returns Ollama.sorry,
   ([] ++ [Ollama.Posted Ollama.chat_url (Ollama.chat_data "hi");
           Ollama.Printed
             ("Error querying Ollama API: "
              ++ Ollama.str_of_failure
                   (Chat.requests (Ollama.Fails Ollama.ConnectionError))
                   Ollama.ConnectionError)])%list).
Proof.
  apply (@get_ollama_response_falls_back
           (Chat.requests (Ollama.Fails Ollama.ConnectionError)) "hi" []
           Ollama.ConnectionError).
  left. reflexivity.
Defined.

(** The text service says hello. *)
Lemma get_ollama_response_reads_content_witness :
  Ollama.get_ollama_response
    (Chat.requests (Chat.ok (Chat.said "hello"))) "hi" [] =
  (Ollama.Returns (Ollama.content_of (Chat.said "hello")),
   ([] ++ [Ollama.Posted Ollama.chat_url (Ollama.chat_data "hi")])%list).
Proof.
  apply (@get_ollama_response_reads_content
           (Chat.requests (Chat.ok (Chat.said "hello"))) "hi" []
           {| Ollama.status_code := 200;
              Ollama.decoded := Some (Chat.said "hello") |}
           (Chat.said "hello")).
  - reflexivity.
  - left. reflexivity.
  - reflexivity.
  - simpl. tauto.
Defined.

(** The text service answers with a JSON array. *)
Lemma gem_raises_AttributeError_witness :
  Ollama.gem (Chat.requests (Chat.ok (JArr []))) "hi" [] =
  (Ollama.Raises Ollama.AttributeError,
   ([] ++ [Ollama.Deferred;
           Ollama.Posted Ollama.chat_url (Ollama.chat_data "hi")])%list).
Proof.
  apply (@gem_raises_AttributeError (Chat.requests (Chat.ok (JArr []))) "hi" []
           {| Ollama.status_code := 200; Ollama.decoded := Some (JArr []) |}
           (JArr [])).
  - reflexivity.
  - left. reflexivity.
  - reflexivity.
  - exact I.
Defined.
